(** * StashVideohasherNodeVAAPI: a shallow embedding of the scene pipeline

    The development follows the Python sources file by file:
    [config.py], [helpers/stash_utils.py], [helpers/preview_video_generator.py],
    [helpers/video_sprite_generator.py], [helpers/scene_discovery.py],
    [helpers/scene_processor.py], [helpers/statistics.py],
    [helpers/vaapi_utils.py], [helpers/health_check.py],
    [phash_videohasher_main.py] and the sheet builder of
    [benchmarking/sprite_benchmark.py].

    Modelling conventions.
    - Python [int] is [Z]; [//] and [%] are [Z.div] and [Z.modulo], which
      round like Python's (towards minus infinity, sign of the divisor).
    - Python [float] is read as an exact rational ([Q]); binary64 rounding
      is outside the model.
    - Python code that can raise returns an [Outcome]; code with effects is
      a function from [State] to an [Outcome] and a new [State], so that
      the effects performed before an exception are kept.
    - Everything outside the repository (the catalog service, ffmpeg,
      ffprobe, the hashing binary, HTTP, the random generator, parts of
      [os.path]) is an oracle collected in the record [World]; the file
      system is the set of the paths that exist.
    - The state carries a trace of what the code does that the properties
      speak about: the calls of the claim protocol, the failure reports,
      the catalog queries, the external commands. Progress and debug
      printing, wall-clock times and the text of the command lines are
      left out.
    - The helpers bind the settings of [config.py] by value when they are
      imported ([World] holds the values they see); [main], the discovery
      and the health checks read the module when they run ([Config.t]).
    - What [main] and the health checks ask of the machine (access
      rights, the working directory, whether a removal or a creation
      fails) is the record [Host]; a host call that fails raises and
      changes nothing. *)

From Stdlib Require Import ZArith QArith Qround Lia List String Ascii.
From Stdlib Require Import DecimalString Lqa.
From stdpp Require Import gmap strings list.

Local Open Scope Z_scope.
Local Open Scope string_scope.

(* ===================================================================== *)
(** * Part I. Definitions                                                 *)
(* ===================================================================== *)

(** ** Python exceptions and outcomes *)

Inductive exn : Type :=
| CalledProcessError
| ValueError
| ZeroDivisionError
| FileNotFoundError
| RuntimeError
| RemoteError
| IndexError
| AttributeError
| OtherError (what : string).

Inductive Outcome (A : Type) : Type :=
| Ret (a : A)
| Raise (e : exn).
Arguments Ret {A} a.
Arguments Raise {A} e.

Definition is_raise {A} (o : Outcome A) : bool :=
  match o with Ret _ => false | Raise _ => true end.

(** ** Integers, rationals and text *)

(** [range(a, b)] *)
Definition py_range (a b : Z) : list Z :=
  map (fun k => a + Z.of_nat k) (seq 0 (Z.to_nat (b - a))).

(** [divmod(a, b)] for a non-zero [b] *)
Definition py_divmod (a b : Z) : Z * Z := (a / b, a mod b).

(** [int(x)] for a float [x]: truncation towards zero *)
Definition py_int (x : Q) : Z := Z.quot (Qnum x) (Z.pos (Qden x)).

(** [x % 1] for a float [x]: the fractional part, in [0, 1) *)
Definition py_mod1 (x : Q) : Q := (x - inject_Z (Qfloor x))%Q.

(** Decimal digits of a natural number, as [str] prints them *)
Definition digits (n : N) : string := NilEmpty.string_of_uint (N.to_uint n).

Fixpoint zeros (n : nat) : string :=
  match n with
  | O => ""
  | S k => String "0" (zeros k)
  end.

Definition zfill (width : nat) (s : string) : string :=
  zeros (width - String.length s) ++ s.

(** [f"{z:0w}"] for an integer [z]: sign-aware zero padding to a minimum
    width *)
Definition fmt_int (width : nat) (z : Z) : string :=
  if (z <? 0)%Z then "-" ++ zfill (width - 1) (digits (Z.to_N (- z)))
  else zfill width (digits (Z.to_N z)).

(** [s[n:]] *)
Fixpoint string_drop (n : nat) (s : string) : string :=
  match n, s with
  | O, _ => s
  | S k, EmptyString => EmptyString
  | S k, String _ r => string_drop k r
  end.

(** [sub in s] *)
Fixpoint contains (sub s : string) : bool :=
  String.prefix sub s ||
  match s with
  | EmptyString => false
  | String _ r => contains sub r
  end.

(** [s.replace(orig, local, 1)] *)
Fixpoint replace_first (orig local s : string) : string :=
  if String.prefix orig s then local ++ string_drop (String.length orig) s
  else match s with
       | EmptyString => EmptyString
       | String c r => String c (replace_first orig local r)
       end.

Definition lower_ascii (c : ascii) : ascii :=
  let n := nat_of_ascii c in
  if ((65 <=? n)%nat && (n <=? 90)%nat)%bool then ascii_of_nat (n + 32) else c.

(** [s.lower()] on ASCII text *)
Fixpoint lower (s : string) : string :=
  match s with
  | EmptyString => EmptyString
  | String c r => String (lower_ascii c) (lower r)
  end.

Definition is_sep (c : ascii) : bool :=
  (Ascii.eqb c "/" || Ascii.eqb c "\")%bool.

(** The text after the last [/] or [\], if there is one: group 1 of
    [re.search(r'.*[/\\](.*?)$', s)] *)
Fixpoint after_last_sep (s : string) : option string :=
  match s with
  | EmptyString => None
  | String c r =>
      match after_last_sep r with
      | Some t => Some t
      | None => if is_sep c then Some r else None
      end
  end.

(** [os.path.basename] on POSIX paths *)
Fixpoint basename (s : string) : string :=
  match s with
  | EmptyString => EmptyString
  | String c r =>
      if contains "/" s then basename r else s
  end.

(** [os.path.join(a, b)] for a relative [b] *)
Definition path_join (a b : string) : string := a ++ "/" ++ b.

Definition double_quote : ascii := ascii_of_nat 34.

(** [s.lstrip(c)], [s.rstrip(c)] and [s.strip(c)] for one character *)
Fixpoint lstrip (c : ascii) (s : string) : string :=
  match s with
  | String a r => if Ascii.eqb a c then lstrip c r else s
  | EmptyString => EmptyString
  end.

Fixpoint rstrip (c : ascii) (s : string) : string :=
  match s with
  | String a r =>
      match rstrip c r with
      | EmptyString => if Ascii.eqb a c then EmptyString else String a EmptyString
      | r' => String a r'
      end
  | EmptyString => EmptyString
  end.

Definition strip (c : ascii) (s : string) : string := rstrip c (lstrip c s).

(** [s.endswith(suffix)] *)
Definition ends_with (suffix s : string) : bool :=
  ((String.length suffix <=? String.length s)%nat &&
   String.eqb suffix (string_drop (String.length s - String.length suffix) s))%bool.

(** [sorted(l)] for a list of strings *)
Fixpoint insert_sorted (x : string) (l : list string) : list string :=
  match l with
  | [] => [x]
  | y :: r => if String.leb x y then x :: l else y :: insert_sorted x r
  end.

Definition sorted (l : list string) : list string :=
  fold_right insert_sorted [] l.

(** [enumerate(l)] *)
Definition enumerate {A} (l : list A) : list (Z * A) :=
  combine (map Z.of_nat (seq 0 (length l))) l.

(** ** config.py *)

Definition hashing_tag : Z := 15015.
Definition hashing_error_tag : Z := 15018.
Definition cover_error_tag : Z := 15019.

(** ** The sampling computations *)

(** The tile rectangle computed in [take_screenshots] and [create_sprite]:
    [x = (i % columns) * max_width], [y = (i // columns) * max_height]. *)
Definition gridPlacement (index columns tileWidth tileHeight : Z)
  : Outcome (Z * Z * Z * Z) :=
  if (columns =? 0)%Z then Raise ZeroDivisionError
  else Ret ((index mod columns) * tileWidth,
            (index / columns) * tileHeight, tileWidth, tileHeight).

(** [VideoSpriteGenerator.format_time] *)
Definition format_time (seconds : Q) : string :=
  let millisec := py_int (py_mod1 seconds * 1000)%Q in
  let seconds := py_int seconds in
  let '(minutes, seconds) := py_divmod seconds 60 in
  let '(hours, minutes) := py_divmod minutes 60 in
  fmt_int 2 hours ++ ":" ++ fmt_int 2 minutes ++ ":" ++ fmt_int 2 seconds
    ++ "." ++ fmt_int 3 millisec.

(** The fixed-width decimal fields of a timecode [HH:MM:SS.mmm] *)
Definition digit_char (d : Z) : ascii := ascii_of_nat (48 + Z.to_nat d).

Definition two_digits (v : Z) : string :=
  String (digit_char (v / 10)) (String (digit_char (v mod 10)) "").

Definition three_digits (v : Z) : string :=
  String (digit_char (v / 100)) (two_digits (v mod 100)).

(** ** Scenes, the catalog and the file system *)

Record SceneFile : Type := {
  file_id : Z;
  file_path : string;
  fingerprints : list (string * string)   (* (type, value) *)
}.

Record Scene : Type := {
  scene_id : Z;
  scene_files : list SceneFile;
  screenshot : option string               (* scene['paths'].get('screenshot') *)
}.

(** What the code does that an observer can see, in order. The calls of
    the claim protocol are recorded when the helper is entered. *)
Inductive Event : Type :=
| CallClaim (scene : Z)
| CallRelease (scene : Z)
| CallTagError (scene tag : Z)
| LogFailure (scene : Z) (step : string)
| Printed (msg : string)
| CatalogQuery (page_size : Z) (page : option Z) (fragment : string)
| PhashSet (file : Z) (phash : string)
| CoverSet (scene : Z)
| ClipCommand (index : Z)
| FrameCommand (index : Z)
| ConcatCommand (clips : list string)
| Cue (start stop : string) (rect : Z * Z * Z * Z)
| SpriteSaved (path : string) (tiles : list (Z * Z)).

Record State : Type := {
  tags : gmap Z (gset Z);     (* catalog: scene id to its tag ids *)
  fs : gset string;           (* paths that exist *)
  trace : list Event;
  requests : nat              (* catalog requests sent so far *)
}.

Definition scene_tags (st : State) (scene : Z) : gset Z :=
  default ∅ (tags st !! scene).

Definition with_tags (t : gmap Z (gset Z)) (st : State) : State :=
  {| tags := t; fs := fs st; trace := trace st; requests := requests st |}.
Definition with_fs (f : gset string) (st : State) : State :=
  {| tags := tags st; fs := f; trace := trace st; requests := requests st |}.
Definition with_event (e : Event) (st : State) : State :=
  {| tags := tags st; fs := fs st; trace := trace st ++ [e];
     requests := requests st |}.
Definition with_request (st : State) : State :=
  {| tags := tags st; fs := fs st; trace := trace st;
     requests := S (requests st) |}.

(** [p] is [dir] or lies below it *)
Definition is_under (dir p : string) : bool :=
  (String.eqb p dir || String.prefix (dir ++ "/") p)%bool.

(** [shutil.rmtree(dir)] *)
Definition rmtree (dir : string) (files : gset string) : gset string :=
  filter (fun p => is_under dir p = false) files.

(** ** Effectful code: state and exceptions *)

Definition M (A : Type) : Type := State -> Outcome A * State.

Definition ret {A} (a : A) : M A := fun st => (Ret a, st).
Definition raise {A} (e : exn) : M A := fun st => (Raise e, st).
Definition bind {A B} (m : M A) (k : A -> M B) : M B :=
  fun st =>
    match m st with
    | (Ret a, st1) => k a st1
    | (Raise e, st1) => (Raise e, st1)
    end.

Declare Scope py_scope.
Delimit Scope py_scope with py.
Notation "x <- m ;; k" := (bind m (fun x => k))
  (at level 100, m at next level, right associativity) : py_scope.
Notation "m ;; k" := (bind m (fun _ => k))
  (at level 100, right associativity) : py_scope.
Local Open Scope py_scope.

(** [try: body / except Exception as e: handler(e)] *)
Definition try_except {A} (body : M A) (handler : exn -> M A) : M A :=
  fun st =>
    match body st with
    | (Ret a, st1) => (Ret a, st1)
    | (Raise e, st1) => handler e st1
    end.

(** [try: body / finally: final]. The final block runs on every exit of
    the body; an exception of the final block replaces the body's outcome. *)
Definition try_finally {A} (body : M A) (final : M unit) : M A :=
  fun st =>
    match body st with
    | (r, st1) =>
        match final st1 with
        | (Ret _, st2) => (r, st2)
        | (Raise e, st2) => (Raise e, st2)
        end
    end.

(** [for x in l: f(x)] *)
Fixpoint for_each {A} (l : list A) (f : A -> M unit) : M unit :=
  match l with
  | [] => ret tt
  | x :: r => f x ;; for_each r f
  end.

Definition when (b : bool) (m : M unit) : M unit := if b then m else ret tt.

Definition emit (e : Event) : M unit := fun st => (Ret tt, with_event e st).
Definition print (msg : string) : M unit := emit (Printed msg).

Definition read_fs : M (gset string) := fun st => (Ret (fs st), st).
Definition path_exists (p : string) : M bool :=
  fun st => (Ret (bool_decide (p ∈ fs st)), st).
Definition create_path (p : string) : M unit :=
  fun st => (Ret tt, with_fs ({[p]} ∪ fs st) st).
Definition remove_path (p : string) : M unit :=
  fun st => (Ret tt, with_fs (fs st ∖ {[p]}) st).
Definition remove_tree (dir : string) : M unit :=
  fun st => (Ret tt, with_fs (rmtree dir (fs st)) st).

(** ** The world outside the repository *)

Record World : Type := {
  (* config.py, with the values that the helpers see *)
  dry_run : bool;
  verbose : bool;
  generate_sprite : bool;
  generate_preview : bool;
  per_page : Z;
  filemask : option string;
  translations : list (string * string);        (* (orig, local) *)
  sprite_path : string;
  preview_path : string;
  preview_clips : Z;
  preview_clip_length : Q;
  preview_skip_seconds : Q;
  (* the catalog service: whether the n-th request is accepted, and what a
     scene query answers *)
  request_ok : nat -> bool;
  find_scenes : Z -> option Z -> list Scene;
  (* ffprobe: the duration it prints, if it is a number *)
  probe_duration : string -> option Q;
  (* ffmpeg: the exception, if any, that the extraction of clip or frame
     [i] ends with; [CalledProcessError] is a non-zero exit status *)
  clip_failure : string -> Z -> option exn;
  frame_failure : string -> Z -> option exn;
  concat_ok : list string -> bool;
  (* the hashing binary and the JSON it prints *)
  videohash : string -> Outcome string;
  (* requests.get(url).content, decoded *)
  http_get : string -> Outcome string;
  (* the cover extraction at a seek position: exit status zero, and
     whether the image file was written *)
  cover_ffmpeg : string -> string -> bool * bool;
  (* random.choices(...) for the name of a scratch directory *)
  random_token : string;
  (* os.path and fnmatch *)
  normpath : string -> string;
  abspath : string -> string;
  fnmatch : string -> string -> bool
}.

(** ** helpers/stash_utils.py *)

Inductive TagMode : Type := ADD | REMOVE.

Definition apply_tag (mode : TagMode) (tag : Z) (s : gset Z) : gset Z :=
  match mode with
  | ADD => s ∪ {[tag]}
  | REMOVE => s ∖ {[tag]}
  end.

Section StashUtils.
Variable W : World.

(** One request to the catalog: it is counted, and either accepted or
    answered with an error. *)
Definition catalog_request : M unit :=
  fun st =>
    if request_ok W (requests st) then (Ret tt, with_request st)
    else (Raise RemoteError, with_request st).

(** [stash.update_scenes({"ids": scene, "tag_ids": {"ids": tag, "mode": mode}})] *)
Definition update_scenes (scene tag : Z) (mode : TagMode) : M unit :=
  catalog_request ;;
  fun st =>
    (Ret tt,
     with_tags (<[scene := apply_tag mode tag (scene_tags st scene)]> (tags st)) st).

Definition log_scene_failure (scene : Z) (step : string) : M unit :=
  emit (LogFailure scene step).

Definition tag_scene_error (scene error_tag : Z) (error_msg : option string)
  : M unit :=
  emit (CallTagError scene error_tag) ;;
  if dry_run W then print "[DRY RUN] Would tag scene with error tag"
  else
    update_scenes scene error_tag ADD ;;
    update_scenes scene hashing_tag REMOVE ;;
    match error_msg with
    | Some msg => when (negb (String.eqb msg "")) (create_path "error_log.txt")
    | None => ret tt
    end.

Definition claim_scene (scene : Z) : M unit :=
  emit (CallClaim scene) ;;
  if dry_run W then print "[DRY RUN] Would claim scene"
  else update_scenes scene hashing_tag ADD.

Definition release_scene (scene : Z) : M unit :=
  emit (CallRelease scene) ;;
  if dry_run W then print "[DRY RUN] Would release scene"
  else update_scenes scene hashing_tag REMOVE.

Definition update_phash (file : Z) (phash : string) : M unit :=
  if dry_run W then print "[DRY RUN] Would update phash"
  else catalog_request ;; emit (PhashSet file phash).

Definition update_cover (scene : Z) : M unit :=
  if dry_run W then print "[DRY RUN] Would update cover image"
  else catalog_request ;; emit (CoverSet scene).

End StashUtils.

(** ** Worker pools

    [ThreadPoolExecutor.submit] starts a task whose exception, if any, is
    kept in the future and raised again by [future.result()]. All tasks
    are submitted before the first result is read, and leaving the [with]
    block waits for every task, so every task runs to its end whatever the
    results are. The tasks only add files and events of their own, so they
    are run here one after the other, in the order of submission. *)

Definition submit {A} (task : M A) : M (Outcome A) :=
  fun st => match task st with (r, st1) => (Ret r, st1) end.

Fixpoint submit_all {A} (tasks : list (M A)) : M (list (Outcome A)) :=
  match tasks with
  | [] => ret []
  | t :: r => future <- submit t ;; rest <- submit_all r ;; ret (future :: rest)
  end.

Definition future_result {A} (future : Outcome A) : M A :=
  match future with
  | Ret a => ret a
  | Raise e => raise e
  end.

(** a computation without effects inside one with effects *)
Definition lift {A} (o : Outcome A) : M A := future_result o.

(** ** helpers/preview_video_generator.py *)

Module PreviewVideoGenerator.

Record t : Type := {
  filename : string;
  output_path : string;
  temp_dir : string;
  num_clips : Z;
  clip_length : Q;
  skip_seconds : Q;
  use_vaapi : option bool
}.

(** [get_start_times] *)
Definition get_start_times (self : t) (video_duration : Q) : Outcome (list Q) :=
  if (num_clips self + 1 =? 0)%Z then Raise ZeroDivisionError
  else
    let interval :=
      ((video_duration - skip_seconds self - clip_length self)
         / inject_Z (num_clips self + 1))%Q in
    Ret (map (fun i => (skip_seconds self + interval * inject_Z i)%Q)
             (py_range 1 (num_clips self + 1))).

Section Methods.
Variable W : World.

(** [__init__] *)
Definition init (file output filehash : string) (preview_clips : Z)
    (clip_len skip : Q) (vaapi : option bool) : t :=
  {| filename := abspath W (strip "'" (strip double_quote file));
     output_path := abspath W output;
     temp_dir := abspath W (path_join ".tmp" ("preview_temp_" ++ filehash));
     num_clips := preview_clips;
     clip_length := clip_len;
     skip_seconds := skip;
     use_vaapi := vaapi |}.

Definition get_video_duration (self : t) : M Q :=
  match probe_duration W (filename self) with
  | Some d => ret d
  | None => raise ValueError
  end.

Definition clean_previous_clips (self : t) : M unit :=
  e <- path_exists (temp_dir self) ;;
  when e (remove_tree (temp_dir self)).

Definition clip_file (self : t) (i : Z) : string :=
  path_join (temp_dir self) ("clip_" ++ fmt_int 3 i ++ ".mp4").

(** the inner function [extract_clip] of [generate_clips] *)
Definition extract_clip (self : t) (i : Z) (start_time : Q) : M (option string) :=
  emit (ClipCommand i) ;;
  match clip_failure W (filename self) i with
  | None => create_path (clip_file self i) ;; ret (Some (clip_file self i))
  | Some CalledProcessError => print "Failed to generate clip" ;; ret None
  | Some e => raise e
  end.

(** the loop of [generate_clips] over the futures: [clips.append(clip)]
    for every result that is not [None] *)
Fixpoint collect_clips (futures : list (Outcome (option string))) : M (list string) :=
  match futures with
  | [] => ret []
  | future :: r =>
      clip <- future_result future ;;
      rest <- collect_clips r ;;
      ret (match clip with Some c => c :: rest | None => rest end)
  end.

Definition generate_clips (self : t) : M (list string) :=
  create_path (temp_dir self) ;;
  video_duration <- get_video_duration self ;;
  start_times <- lift (get_start_times self video_duration) ;;
  futures <- submit_all
    (map (fun '(i, start_time) => extract_clip self i start_time)
         (enumerate start_times)) ;;
  collect_clips futures.

Definition concatenate_clips (self : t) (clips : list string) : M unit :=
  files <- read_fs ;;
  match List.filter (fun c => negb (bool_decide (c ∈ files))) clips with
  | _ :: _ => raise FileNotFoundError
  | [] =>
      create_path (path_join (temp_dir self) "clips.txt") ;;
      emit (ConcatCommand (sorted clips)) ;;
      if concat_ok W (sorted clips) then create_path (output_path self)
      else print "Failed to concatenate preview" ;; raise RuntimeError
  end.

Definition generate_preview (self : t) : M unit :=
  clean_previous_clips self ;;
  clips <- generate_clips self ;;
  match clips with
  | [] => print "No clips generated"
  | _ :: _ =>
      try_finally
        (try_except
           (concatenate_clips self clips ;;
            e <- path_exists (output_path self) ;;
            if e then when (verbose W) (print "Preview video created")
            else print "Preview video not created")
           (fun _ => print "Preview generation failed"))
        (clean_previous_clips self)
  end.

End Methods.
End PreviewVideoGenerator.

(** ** helpers/video_sprite_generator.py *)

Module VideoSpriteGenerator.

Record t : Type := {
  video_path : string;
  temp_dir : string;
  sprite_path : string;
  vtt_path : string;
  total_shots : Z;
  max_width : Z;
  max_height : Z;
  columns : Z;
  rows : Z;
  use_vaapi : option bool
}.

Section Methods.
Variable W : World.

(** [__init__], with its default grid *)
Definition init (video sprite vtt filehash : string) (vaapi : option bool) : t :=
  {| video_path := abspath W (strip "'" (strip double_quote video));
     temp_dir := abspath W (path_join ".tmp" ("screenshots_" ++ filehash));
     sprite_path := abspath W sprite;
     vtt_path := abspath W vtt;
     total_shots := 81;
     max_width := 160;
     max_height := 90;
     columns := 9;
     rows := 9;
     use_vaapi := vaapi |}.

(** [float(...)] of the probe output, or [False] *)
Definition get_video_duration (self : t) : M (option Q) :=
  ret (probe_duration W (video_path self)).

Definition clean_previous_files (self : t) : M unit :=
  e <- path_exists (temp_dir self) ;;
  when e (remove_tree (temp_dir self)) ;;
  v <- path_exists (vtt_path self) ;;
  when v (remove_path (vtt_path self)).

Definition frame_file (self : t) (i : Z) : string :=
  path_join (temp_dir self) ("frame_" ++ fmt_int 3 i ++ ".jpg").

Definition extract_and_resize (self : t) (i : Z) (interval : Q) : M (Z * Q) :=
  let time := (inject_Z i * interval)%Q in
  emit (FrameCommand i) ;;
  match frame_failure W (video_path self) i with
  | Some e => raise e
  | None => create_path (frame_file self i) ;; ret (i, time)
  end.

(** the body of the loop of [take_screenshots] over the futures *)
Definition write_cue (self : t) (interval : Q) (future : Outcome (Z * Q)) : M unit :=
  shot <- future_result future ;;
  let '(i, time) := shot in
  let end_time := (time + interval)%Q in
  rect <- lift (gridPlacement i (columns self) (max_width self) (max_height self)) ;;
  emit (Cue (format_time time) (format_time end_time) rect).

Definition take_screenshots (self : t) : M bool :=
  clean_previous_files self ;;
  create_path (temp_dir self) ;;
  duration <- get_video_duration self ;;
  match duration with
  | None => ret false
  | Some duration =>
      if Qeq_bool duration 0 then ret false
      else
        interval <-
          (if (total_shots self =? 0)%Z then raise ZeroDivisionError
           else ret (duration / inject_Z (total_shots self))%Q) ;;
        create_path (vtt_path self) ;;
        futures <- submit_all
          (map (fun i => extract_and_resize self i interval)
               (py_range 0 (total_shots self))) ;;
        for_each futures (write_cue self interval) ;;
        ret true
  end.

(** the [.jpg] entries of [os.listdir(temp_dir)], sorted *)
Definition listed_images (self : t) (files : gset string) : list string :=
  sorted (List.filter
            (fun p =>
               (String.prefix (temp_dir self ++ "/") p &&
                negb (contains "/"
                        (string_drop (String.length (temp_dir self ++ "/")) p)) &&
                ends_with ".jpg" p)%bool)
            (elements files)).

(** the loop of [create_sprite]: the corner at which each image is pasted *)
Fixpoint paste_tiles (self : t) (images : list (Z * string)) : M (list (Z * Z)) :=
  match images with
  | [] => ret []
  | (idx, _) :: r =>
      rect <- lift (gridPlacement idx (columns self)
                      (max_width self) (max_height self)) ;;
      rest <- paste_tiles self r ;;
      ret ((rect.1.1.1, rect.1.1.2) :: rest)
  end.

Definition create_sprite (self : t) : M unit :=
  files <- read_fs ;;
  match listed_images self files with
  | [] => raise ValueError
  | image :: more =>
      tiles <- paste_tiles self (enumerate (image :: more)) ;;
      create_path (sprite_path self) ;;
      emit (SpriteSaved (sprite_path self) tiles)
  end.

Definition clean_up (self : t) : M unit :=
  e <- path_exists (temp_dir self) ;;
  when e (remove_tree (temp_dir self)).

Definition generate_sprite (self : t) : M unit :=
  try_finally
    (result <- take_screenshots self ;;
     when result (create_sprite self) ;;
     when (verbose W) (print "Sprite generation complete"))
    (clean_up self).

End Methods.
End VideoSpriteGenerator.

(** ** helpers/scene_discovery.py *)

(** [random.randint(a, b)] draws each integer of [a..b] with the same
    probability. A draw is modelled by the list of its equally likely
    results, and a computation that draws once by the list of its equally
    likely runs. *)
Definition randint (a b : Z) : list Z := py_range a (b + 1).

(** the fields of a scene that the pipeline needs *)
Definition full_fragment : string :=
  "id files{id path fingerprints{value type}} paths{screenshot}".

Section SceneDiscovery.
Variable W : World.

(** [stash.find_scenes(f=..., filter={per_page, page}, fragment=...)] with
    the filter "no phash, none of the three state tags" *)
Definition stash_find_scenes (page_size : Z) (page : option Z)
    (fragment : string) : M (list Scene) :=
  emit (CatalogQuery page_size page fragment) ;;
  catalog_request W ;;
  ret (find_scenes W page_size page).

Definition matches_filemask (mask : string) (scene : Scene) : bool :=
  existsb (fun file => fnmatch W (basename (file_path file)) mask)
          (scene_files scene).

(** Steps 5 to 7 of [discover_scenes], once the page is drawn *)
Definition fetch_page (selected_page : Z) : M (list Scene) :=
  print "Selected page" ;;
  batch_scenes <- stash_find_scenes (per_page W) (Some selected_page)
                                    full_fragment ;;
  match filemask W with
  | Some mask =>
      if String.eqb mask "" then ret batch_scenes
      else
        let filtered_scenes := List.filter (matches_filemask mask) batch_scenes in
        print (match filtered_scenes with
               | [] => "Filemask matched 0 scenes in this batch"
               | _ :: _ => "Filemask matched" end) ;;
        ret filtered_scenes
  | None => ret batch_scenes
  end.

Definition discover_scenes (st : State) : list (Outcome (list Scene) * State) :=
  match stash_find_scenes (-1) None "id" st with
  | (Raise e, st1) => [(Raise e, st1)]
  | (Ret all_scenes, st1) =>
      let total_count := Z.of_nat (length all_scenes) in
      if (total_count =? 0)%Z then
        [(print "No scenes found to process." ;; ret []) st1]
      else if (per_page W =? 0)%Z then [(Raise ZeroDivisionError, st1)]
      else
        let total_pages :=
          Z.max 1 ((total_count + per_page W - 1) / per_page W) in
        map (fun selected_page => fetch_page selected_page st1)
            (randint 1 total_pages)
  end.

End SceneDiscovery.

(** ** helpers/scene_processor.py *)

Record ProcessResult : Type := {
  success : bool;
  result_scene_id : Z
  (* 'elapsed_time' is wall-clock time and is not modelled *)
}.

(** [str(e)] *)
Definition exn_text (e : exn) : string :=
  match e with
  | CalledProcessError => "Command returned non-zero exit status"
  | ValueError => "ValueError"
  | ZeroDivisionError => "division by zero"
  | FileNotFoundError => "File not found"
  | RuntimeError => "RuntimeError"
  | RemoteError => "RemoteError"
  | IndexError => "list index out of range"
  | AttributeError => "'NoneType' object has no attribute 'group'"
  | OtherError what => what
  end.

Section SceneProcessor.
Variable W : World.

(** the hashing step *)
Definition phash_step (scene file : Z) (filename : string) : M bool :=
  if dry_run W then print "[DRY RUN] Would run videohash" ;; ret true
  else
    try_except
      (phash <- lift (videohash W filename) ;;
       update_phash W file phash ;;
       ret true)
      (fun e =>
         log_scene_failure scene "hashing" ;;
         tag_scene_error W scene hashing_error_tag (Some (exn_text e)) ;;
         ret false).

Definition run_cover_ffmpeg (filename image seek : string) : M unit :=
  let '(exit_ok, written) := cover_ffmpeg W filename seek in
  when written (create_path image) ;;
  if exit_ok then ret tt else raise CalledProcessError.

(** the cover step *)
Definition cover_step (scene : Scene) (filename filehash : string) : M unit :=
  try_except
    (match screenshot scene with
     | None => ret tt
     | Some cover_image =>
         if String.eqb cover_image "" then ret tt
         else
           content <- lift (http_get W cover_image) ;;
           if contains "<svg" (lower content) then
             let temp_dir := abspath W (path_join ".tmp" ("cover_temp_" ++ filehash)) in
             let image_filename := path_join temp_dir (filehash ++ "_cover.jpg") in
             create_path temp_dir ;;
             if dry_run W then print "[DRY RUN] Would extract cover image"
             else
               try_finally
                 (try_except
                    (run_cover_ffmpeg filename image_filename "00:00:30" ;;
                     e1 <- path_exists image_filename ;;
                     when (negb e1)
                       (run_cover_ffmpeg filename image_filename "00:00:05") ;;
                     e2 <- path_exists image_filename ;;
                     (if e2 then ret tt else raise FileNotFoundError) ;;
                     update_cover W (scene_id scene))
                    (fun e =>
                       log_scene_failure (scene_id scene) "cover image generation" ;;
                       tag_scene_error W (scene_id scene) cover_error_tag
                         (Some (exn_text e))))
                 (remove_tree temp_dir)
           else ret tt
     end)
    (fun e =>
       log_scene_failure (scene_id scene) "cover image setup" ;;
       tag_scene_error W (scene_id scene) cover_error_tag (Some (exn_text e))).

(** the sprite step *)
Definition sprite_step (scene : Z) (filename filehash : string)
    (vaapi_supported : bool) : M bool :=
  if generate_sprite W then
    let sprite_file := path_join (sprite_path W) (filehash ++ "_sprite.jpg") in
    let vtt_file := path_join (sprite_path W) (filehash ++ "_thumbs.vtt") in
    e <- path_exists sprite_file ;;
    if e then ret true
    else if dry_run W then print "[DRY RUN] Would generate sprite" ;; ret true
    else
      try_except
        (VideoSpriteGenerator.generate_sprite W
           (VideoSpriteGenerator.init W filename sprite_file vtt_file filehash
              (Some vaapi_supported)) ;;
         ret true)
        (fun e =>
           log_scene_failure scene "sprite generation" ;;
           tag_scene_error W scene hashing_error_tag (Some (exn_text e)) ;;
           ret false)
  else ret true.

(** the preview step *)
Definition preview_step (scene : Z) (filename filehash : string)
    (vaapi_supported : bool) : M bool :=
  if generate_preview W then
    let preview_file := path_join (preview_path W) (filehash ++ ".mp4") in
    e <- path_exists preview_file ;;
    if e then ret true
    else if dry_run W then print "[DRY RUN] Would generate preview" ;; ret true
    else
      try_except
        (PreviewVideoGenerator.generate_preview W
           (PreviewVideoGenerator.init W filename preview_file filehash
              (preview_clips W) (preview_clip_length W)
              (preview_skip_seconds W) (Some vaapi_supported)) ;;
         ret true)
        (fun e =>
           log_scene_failure scene "preview generation" ;;
           tag_scene_error W scene hashing_error_tag (Some (exn_text e)) ;;
           ret false)
  else ret true.

(** the path of the scene's first file after the translations *)
Definition translated_path (filename : string) : string :=
  normpath W
    (fold_left (fun name t => replace_first (fst t) (snd t) name)
               (translations W) filename).

(** the [oshash] of the file, or a random token: the name of the scene's
    scratch directories and artifacts *)
Definition scratch_hash (file : SceneFile) : string :=
  let filehash :=
    fold_left (fun h fp => if String.eqb (lower (fst fp)) "oshash" then snd fp else h)
              (fingerprints file) "" in
  if (String.eqb filehash "" || contains ":" filehash ||
      contains "\" filehash || contains "/" filehash)%bool
  then random_token W else filehash.

(** the body of the [try] block of [process_scene] *)
Definition pipeline (scene : Scene) (file : SceneFile) (filename filehash : string)
    (vaapi_supported : bool) : M ProcessResult :=
  hashed <- phash_step (scene_id scene) (file_id file) filename ;;
  cover_step scene filename filehash ;;
  sprite_ok <- sprite_step (scene_id scene) filename filehash vaapi_supported ;;
  preview_ok <- preview_step (scene_id scene) filename filehash vaapi_supported ;;
  ret {| success := (hashed && sprite_ok && preview_ok)%bool;
         result_scene_id := scene_id scene |}.

Definition process_scene (scene : Scene) (vaapi_supported : bool)
  : M ProcessResult :=
  match scene_files scene with
  | [] => raise IndexError
  | file :: _ =>
      match after_last_sep (file_path file) with
      | None => raise AttributeError
      | Some filename_pretty =>
          print "Processing scene" ;;
          let filename := translated_path (file_path file) in
          let filehash := scratch_hash file in
          file_exists <- path_exists filename ;;
          if negb file_exists then
            log_scene_failure (scene_id scene) "file check" ;;
            tag_scene_error W (scene_id scene) hashing_error_tag
              (Some "File not found after translation") ;;
            ret {| success := false; result_scene_id := scene_id scene |}
          else
            claim_scene W (scene_id scene) ;;
            try_finally
              (pipeline scene file filename filehash vaapi_supported)
              (release_scene W (scene_id scene))
      end
  end.

End SceneProcessor.

(** ** helpers/stash_utils.py: the error tags *)

Definition has_error_tag (s : gset Z) : bool :=
  (bool_decide (hashing_error_tag ∈ s) || bool_decide (cover_error_tag ∈ s))%bool.

(** What the catalog answers to the query of [get_error_scenes] (tags
    INCLUDES the two error tags): the scenes that carry one of them. The
    callers modelled here use the ids of the answer only. *)
Definition error_scene_ids (st : State) : list Z :=
  map fst (List.filter (fun entry => has_error_tag (snd entry))
                       (map_to_list (tags st))).

Section ErrorTags.
Variable W : World.

Definition get_error_scenes : M (list Z) :=
  catalog_request W ;;
  fun st => (Ret (error_scene_ids st), st).

Definition clear_error_tags (scene_ids : list Z) : M unit :=
  if dry_run W then print "[DRY RUN] Would clear error tags"
  else
    for_each scene_ids
      (fun scene_id =>
         update_scenes W scene_id hashing_error_tag REMOVE ;;
         update_scenes W scene_id cover_error_tag REMOVE).

(** the command [--clear-error-tags] of [main]; both branches end the
    program *)
Definition clear_error_tags_command : M unit :=
  print "Fetching scenes with error tags..." ;;
  error_scenes <- get_error_scenes ;;
  match error_scenes with
  | [] => print "No scenes with error tags found."
  | _ :: _ =>
      print "Clearing error tags" ;;
      clear_error_tags error_scenes ;;
      print "Cleared error tags"
  end.

End ErrorTags.

(** ** helpers/statistics.py *)

(** [a / b] on numbers *)
Definition true_div (a b : Q) : Outcome Q :=
  if Qeq_bool b 0 then Raise ZeroDivisionError else Ret (a / b)%Q.

(** [x // d] and [x % d] on floats, for a positive integer [d] *)
Definition float_floordiv (x : Q) (d : Z) : Q :=
  inject_Z (Qfloor (x / inject_Z d)).

Definition float_mod (x : Q) (d : Z) : Q :=
  (x - inject_Z d * float_floordiv x d)%Q.

(** [x < y] on floats *)
Definition Qlt_bool (x y : Q) : bool := negb (Qle_bool y x).

(** [sum(l)] *)
Definition py_sum (l : list Q) : Q := fold_left Qplus l 0%Q.

Module BatchStatistics.

Record t : Type := {
  total_scenes : Z;
  successful : Z;
  failed : Z;
  start_time : option Q;
  scene_times : list Q
}.

(** [__init__] *)
Definition init : t :=
  {| total_scenes := 0; successful := 0; failed := 0;
     start_time := None; scene_times := [] |}.

(** [start_batch]; [now] is what [time.time()] returns *)
Definition start_batch (now : Q) (total : Z) (self : t) : t :=
  {| total_scenes := total; successful := 0; failed := 0;
     start_time := Some now; scene_times := [] |}.

(** [record_success]: [if elapsed_time:] holds for a number other than
    zero *)
Definition record_success (elapsed_time : option Q) (self : t) : t :=
  {| total_scenes := total_scenes self;
     successful := successful self + 1;
     failed := failed self;
     start_time := start_time self;
     scene_times :=
       match elapsed_time with
       | Some elapsed =>
           if Qeq_bool elapsed 0 then scene_times self
           else (scene_times self ++ [elapsed])%list
       | None => scene_times self
       end |}.

Definition record_failure (self : t) : t :=
  {| total_scenes := total_scenes self;
     successful := successful self;
     failed := failed self + 1;
     start_time := start_time self;
     scene_times := scene_times self |}.

(** The numbers that [get_summary] prints; the text around them and the
    rounding to one decimal are left out. *)
Record Summary : Type := {
  shown_successful : Z;
  shown_failed : Z;
  shown_total : Z;
  success_rate : Q;
  avg_time : Q;
  elapsed : Q
}.

(** [get_summary]; [None] stands for the text "No statistics available" *)
Definition get_summary (now : Q) (self : t) : Outcome (option Summary) :=
  match start_time self with
  | None => Ret None
  | Some started =>
      let total_processed := successful self + failed self in
      match (if (0 <? total_processed)%Z then
               match true_div (inject_Z (successful self))
                              (inject_Z total_processed) with
               | Ret ratio => Ret (ratio * 100)%Q
               | Raise e => Raise e
               end
             else Ret 0%Q) with
      | Raise e => Raise e
      | Ret rate =>
          match (match scene_times self with
                 | [] => Ret 0%Q
                 | _ :: _ =>
                     true_div (py_sum (scene_times self))
                              (inject_Z (Z.of_nat (length (scene_times self))))
                 end) with
          | Raise e => Raise e
          | Ret average =>
              Ret (Some {| shown_successful := successful self;
                           shown_failed := failed self;
                           shown_total := total_scenes self;
                           success_rate := rate;
                           avg_time := average;
                           elapsed := (now - started)%Q |})
          end
      end
  end.

Section FormatDuration.
(** [f"{x:.1f}"], the decimal rounding of a binary float, is a parameter *)
Variable format_1f : Q -> string.

Definition _format_duration (seconds : Q) : string :=
  if Qlt_bool seconds 60 then format_1f seconds ++ "s"
  else if Qlt_bool seconds 3600 then
    let minutes := py_int (float_floordiv seconds 60) in
    let secs := py_int (float_mod seconds 60) in
    fmt_int 0 minutes ++ "m " ++ fmt_int 0 secs ++ "s"
  else
    let hours := py_int (float_floordiv seconds 3600) in
    let minutes := py_int (float_floordiv (float_mod seconds 3600) 60) in
    fmt_int 0 hours ++ "h " ++ fmt_int 0 minutes ++ "m".

End FormatDuration.
End BatchStatistics.

(** ** helpers/vaapi_utils.py *)

Definition device_paths : list string :=
  ["/dev/dri/renderD128"; "/dev/dri/card0"; "/dev/dri/card1"].

(** The loop of [vaapi_available] over the device paths; [vainfo device]
    is the decoded output of the [vainfo] command, or the exception that
    running it or decoding its output ends with. *)
Fixpoint probe_devices (vainfo : string -> Outcome string)
    (devices : list string) : bool * option string :=
  match devices with
  | [] => (false, None)
  | device :: rest =>
      match vainfo device with
      | Ret output =>
          if (contains "VA-API version" output &&
              contains "Driver version" output)%bool
          then (true, Some device)
          else probe_devices vainfo rest
      | Raise _ => probe_devices vainfo rest
      end
  end.

Definition vaapi_available (vainfo : string -> Outcome string)
  : bool * option string :=
  probe_devices vainfo device_paths.

(** ** phash_videohasher_main.py *)

Module Args.
(** the parsed command line, as far as [apply_cli_args] reads it *)
Record t : Type := {
  windows : bool;
  generate_sprite : bool;
  generate_preview : bool;
  dry_run : bool;
  verbose : bool;
  once : bool;
  debug : bool;
  batch_size : option Z;
  max_workers : option Z;
  filemask : option string;
  vaapi : bool;
  novaapi : bool
}.
End Args.

Module Config.
(** the attributes of the module [config] that [main] and the health
    checks read when they run *)
Record t : Type := {
  windows : bool;
  generate_sprite : bool;
  generate_preview : bool;
  dry_run : bool;
  verbose : bool;
  once : bool;
  debug : bool;
  per_page : Z;
  max_workers : Z;
  filemask : option string;
  vaapi_override : option bool;    (* [None]: the attribute is not set *)
  binary : string;
  ffmpeg : string;
  ffprobe : string;
  sprite_path : string;
  preview_path : string
}.
End Config.

(** [if x:] for an optional integer and an optional string *)
Definition truthy_int (x : option Z) : option Z :=
  match x with
  | Some n => if (n =? 0)%Z then None else Some n
  | None => None
  end.

Definition truthy_string (x : option string) : option string :=
  match x with
  | Some s => if String.eqb s "" then None else Some s
  | None => None
  end.

Definition apply_cli_args (args : Args.t) (config : Config.t) : Config.t :=
  {| Config.windows := Args.windows args;
     Config.generate_sprite := Args.generate_sprite args;
     Config.generate_preview := Args.generate_preview args;
     Config.dry_run := Args.dry_run args;
     Config.verbose := Args.verbose args;
     Config.once := Args.once args;
     Config.debug := Args.debug args;
     Config.per_page :=
       match truthy_int (Args.batch_size args) with
       | Some n => n
       | None => Config.per_page config
       end;
     Config.max_workers :=
       match truthy_int (Args.max_workers args) with
       | Some n => n
       | None => Config.max_workers config
       end;
     Config.filemask :=
       match truthy_string (Args.filemask args) with
       | Some mask => Some mask
       | None => Config.filemask config
       end;
     Config.vaapi_override :=
       if Args.vaapi args then Some true
       else if Args.novaapi args then Some false
       else Config.vaapi_override config;
     Config.binary := Config.binary config;
     Config.ffmpeg := Config.ffmpeg config;
     Config.ffprobe := Config.ffprobe config;
     Config.sprite_path := Config.sprite_path config;
     Config.preview_path := Config.preview_path config |}.

(** [discover_scenes] reads [config.per_page] and [config.filemask] when
    it runs: the world it sees after the command line is applied *)
Definition discovery_world (config : Config.t) (W : World) : World :=
  {| dry_run := dry_run W;
     verbose := verbose W;
     generate_sprite := generate_sprite W;
     generate_preview := generate_preview W;
     per_page := Config.per_page config;
     filemask := Config.filemask config;
     translations := translations W;
     sprite_path := sprite_path W;
     preview_path := preview_path W;
     preview_clips := preview_clips W;
     preview_clip_length := preview_clip_length W;
     preview_skip_seconds := preview_skip_seconds W;
     request_ok := request_ok W;
     find_scenes := find_scenes W;
     probe_duration := probe_duration W;
     clip_failure := clip_failure W;
     frame_failure := frame_failure W;
     concat_ok := concat_ok W;
     videohash := videohash W;
     http_get := http_get W;
     cover_ffmpeg := cover_ffmpeg W;
     random_token := random_token W;
     normpath := normpath W;
     abspath := abspath W;
     fnmatch := fnmatch W |}.

(** The VAAPI decision at the start of [main] (the notifications are left
    out): detection unless on Windows, the override of the command line,
    and the default device when VAAPI is on without a detected device. *)
Definition resolve_vaapi (config : Config.t) (vainfo : string -> Outcome string)
  : bool * option string :=
  let '(vaapi_supported, vaapi_device) :=
    if negb (Config.windows config) then vaapi_available vainfo
    else (false, None) in
  let '(vaapi_supported, vaapi_device) :=
    match Config.vaapi_override config with
    | Some true => (true, vaapi_device)
    | Some false => (false, None)
    | None => (vaapi_supported, vaapi_device)
    end in
  let vaapi_device :=
    match vaapi_supported, vaapi_device with
    | true, None => Some "/dev/dri/renderD128"
    | _, _ => vaapi_device
    end in
  (vaapi_supported, vaapi_device).

(** what [main] passes to [run_health_check]:
    [vaapi_device if vaapi_supported else None] *)
Definition health_check_device (resolved : bool * option string) : option string :=
  if fst resolved then snd resolved else None.

(** The machine the node runs on, as far as [main] and the health checks
    ask it. A call that fails raises and changes nothing. *)
Record Host : Type := {
  getcwd : string;
  access_x : string -> bool;                 (* os.access(path, os.X_OK) *)
  access_w : string -> bool;                 (* os.access(path, os.W_OK) *)
  access_rw : string -> bool;                (* os.access(path, os.R_OK | os.W_OK) *)
  version_failure : string -> option exn;    (* [tool -version] with check=True *)
  rmtree_failure : string -> option exn;     (* shutil.rmtree(path) *)
  makedirs_failure : string -> option exn;   (* os.makedirs(path, exist_ok=True) *)
  open_failure : string -> option exn;       (* open(path, 'w') and the write *)
  remove_failure : string -> option exn      (* os.remove(path) *)
}.

(** a call of the host that may fail: the exception, or the effect *)
Definition host_call (failure : option exn) (effect : M unit) : M unit :=
  match failure with
  | Some e => raise e
  | None => effect
  end.

Section Main.
Variable config : Config.t.
Variable H : Host.

Definition tmp_dir : string := path_join (getcwd H) ".tmp".

Definition clean_temp_dirs (recreate : bool) : M unit :=
  e <- path_exists tmp_dir ;;
  when e
    (try_except
       (host_call (rmtree_failure H tmp_dir) (remove_tree tmp_dir) ;;
        when (Config.verbose config) (print "Cleaned temporary directory: .tmp"))
       (fun _ => when (Config.verbose config) (print "Failed to remove .tmp"))) ;;
  when recreate
    (try_except
       (host_call (makedirs_failure H tmp_dir) (create_path tmp_dir))
       (fun _ => when (Config.verbose config) (print "Failed to create .tmp"))).

End Main.

(** What [future.result(timeout=600)] gives in the loop of [main] over the
    futures of a batch: the dictionary that [process_scene] returned, a
    timeout, or the exception of the worker. *)
Inductive Future : Type :=
| Finished (success : bool) (elapsed_time : option Q)
| TimedOut
| Crashed (e : exn).

Definition record_future (future : Future) (stats : BatchStatistics.t)
  : BatchStatistics.t :=
  match future with
  | Finished true elapsed_time => BatchStatistics.record_success elapsed_time stats
  | Finished false _ => BatchStatistics.record_failure stats
  | TimedOut => BatchStatistics.record_failure stats
  | Crashed _ => BatchStatistics.record_failure stats
  end.

(** The loop over the futures; [shutdown k] is the value of the flag
    [shutdown_requested] when the future number [k] is about to be read. *)
Fixpoint result_loop (shutdown : nat -> bool) (k : nat) (futures : list Future)
    (stats : BatchStatistics.t) : BatchStatistics.t :=
  match futures with
  | [] => stats
  | future :: rest =>
      if shutdown k then stats
      else result_loop shutdown (S k) rest (record_future future stats)
  end.

(** [batch_stats.start_batch(total_batch)] and the loop *)
Definition run_batch (now : Q) (shutdown : nat -> bool) (futures : list Future)
    (stats : BatchStatistics.t) : BatchStatistics.t :=
  result_loop shutdown 0 futures
    (BatchStatistics.start_batch now (Z.of_nat (length futures)) stats).

(** ** helpers/health_check.py *)

Section HealthCheck.
Variable W : World.
Variable config : Config.t.
Variable H : Host.

Definition check_stash_connection : M (bool * string) :=
  try_except
    (catalog_request W ;; ret (true, "Stash API connection successful"))
    (fun e => ret (false, "Stash API connection failed: " ++ exn_text e)).

Definition check_binary_exists : M (bool * string) :=
  let binary_path := Config.binary config in
  e <- path_exists binary_path ;;
  if negb e then ret (false, "Binary not found: " ++ binary_path)
  else if negb (access_x H binary_path)
       then ret (false, "Binary not executable: " ++ binary_path)
       else ret (true, "Binary found and executable: " ++ binary_path).

(** only a non-zero exit status and a missing program are caught *)
Definition check_ffmpeg_available : M (bool * string) :=
  try_except
    (host_call (version_failure H (Config.ffmpeg config)) (ret tt) ;;
     host_call (version_failure H (Config.ffprobe config)) (ret tt) ;;
     ret (true, "FFmpeg and FFprobe available"))
    (fun e =>
       match e with
       | CalledProcessError | FileNotFoundError =>
           ret (false, "FFmpeg/FFprobe not available: " ++ exn_text e)
       | _ => raise e
       end).

(** the loop of [check_output_paths] *)
Fixpoint check_paths (paths_to_check : list (string * string)) : M (bool * string) :=
  match paths_to_check with
  | [] => ret (true, "All output paths are writable")
  | (name, path) :: rest =>
      e <- path_exists path ;;
      if negb e then ret (false, name ++ " does not exist: " ++ path)
      else if negb (access_w H path)
           then ret (false, name ++ " is not writable: " ++ path)
           else check_paths rest
  end.

Definition output_paths : list (string * string) :=
  ((if Config.generate_sprite config
    then [("Sprite path", Config.sprite_path config)] else []) ++
   (if Config.generate_preview config
    then [("Preview path", Config.preview_path config)] else []))%list.

Definition check_output_paths : M (bool * string) := check_paths output_paths.

Definition check_vaapi_device (vaapi_device : option string) : M (bool * string) :=
  match truthy_string vaapi_device with
  | Some device =>
      if negb (Config.windows config) then
        e <- path_exists device ;;
        if negb e then ret (false, "VAAPI device not found: " ++ device)
        else if negb (access_rw H device)
             then ret (false, "VAAPI device not accessible: " ++ device)
             else ret (true, "VAAPI device accessible: " ++ device)
      else ret (true, "VAAPI check skipped (disabled or Windows)")
  | None => ret (true, "VAAPI check skipped (disabled or Windows)")
  end.

Definition check_temp_directory : M (bool * string) :=
  try_except
    (let temp_dir := path_join (getcwd H) ".tmp" in
     host_call (makedirs_failure H temp_dir) (create_path temp_dir) ;;
     let test_file := path_join temp_dir "health_check_test" in
     host_call (open_failure H test_file) (create_path test_file) ;;
     host_call (remove_failure H test_file) (remove_path test_file) ;;
     ret (true, "Temp directory writable"))
    (fun e => ret (false, "Cannot write to temp directory: " ++ exn_text e)).

(** the body of the loop of [run_health_check]: the results so far and the
    flag [all_passed], before and after one check *)
Definition run_check (check : string * M (bool * string))
    (acc : list (string * bool * string) * bool)
  : M (list (string * bool * string) * bool) :=
  let '(check_name, check_func) := check in
  let '(results, all_passed) := acc in
  try_except
    (outcome <- check_func ;;
     let '(passed, message) := outcome in
     print ((if passed then "passed " else "failed ") ++ check_name ++ ": " ++ message) ;;
     ret ((results ++ [(check_name, passed, message)])%list,
          if negb passed then false else all_passed))
    (fun e =>
       print ("failed " ++ check_name ++ ": Unexpected error - " ++ exn_text e) ;;
       ret ((results ++ [(check_name, false, exn_text e)])%list, false)).

Fixpoint run_checks (checks : list (string * M (bool * string)))
    (acc : list (string * bool * string) * bool)
  : M (list (string * bool * string) * bool) :=
  match checks with
  | [] => ret acc
  | check :: rest => acc' <- run_check check acc ;; run_checks rest acc'
  end.

Definition health_checks (vaapi_device : option string)
  : list (string * M (bool * string)) :=
  ([("Stash API Connection", check_stash_connection);
    ("Videohashes Binary", check_binary_exists);
    ("FFmpeg/FFprobe", check_ffmpeg_available);
    ("Output Paths", check_output_paths);
    ("Temp Directory", check_temp_directory)] ++
   match truthy_string vaapi_device with
   | Some _ => [("VAAPI Device", check_vaapi_device vaapi_device)]
   | None => []
   end)%list.

Definition run_health_check (vaapi_device : option string)
  : M (bool * list (string * bool * string)) :=
  print "Running Health Checks..." ;;
  acc <- run_checks (health_checks vaapi_device) ([], true) ;;
  let '(results, all_passed) := acc in
  print (if all_passed then "All health checks passed!"
         else "Some health checks failed. Please resolve issues before processing.") ;;
  ret (all_passed, results).

End HealthCheck.

(** ** Concrete worlds for the examples

    [config.py] on Linux; the oracles that the examples vary are
    arguments, the other tools succeed. *)

Definition linux_world (dry : bool) (accept : nat -> bool)
    (answer : Z -> option Z -> list Scene) (duration : option Q)
    (clips_fail : Z -> option exn) (frames_fail : Z -> option exn) : World :=
  {| dry_run := dry;
     verbose := false;
     generate_sprite := true;
     generate_preview := true;
     per_page := 25;
     filemask := None;
     translations := [("/data/", "/mnt/strangyr/"); ("/xerxes/", "/mnt/xerxes/");
                      ("/data_stranghouse/", "/mnt/Stranghouse/")];
     sprite_path := "/mnt/stash/stash/generated/vtt";
     preview_path := "/mnt/stash/stash/generated/screenshots";
     preview_clips := 15;
     preview_clip_length := 1;
     preview_skip_seconds := 15;
     request_ok := accept;
     find_scenes := answer;
     probe_duration := fun _ => duration;
     clip_failure := fun _ i => clips_fail i;
     frame_failure := fun _ i => frames_fail i;
     concat_ok := fun _ => true;
     videohash := fun _ => Ret "c3f0a1b2d4e5f607";
     http_get := fun _ => Ret "<html>";
     cover_ffmpeg := fun _ _ => (true, true);
     random_token := "k3j9x0q2m1zz";
     normpath := fun p => p;
     abspath := fun p => if String.prefix "/" p then p else "/opt/node/" ++ p;
     fnmatch := fun _ _ => true |}.

(** Every request accepted, every tool succeeds, an empty catalog *)
Definition calm_world : World :=
  linux_world false (fun _ => true) (fun _ _ => []) (Some 100%Q)
              (fun _ => None) (fun _ => None).

Definition empty_state : State :=
  {| tags := ∅; fs := ∅; trace := []; requests := 0 |}.

(** The catalog refuses the second and the third request *)
Definition stormy_world : World :=
  linux_world false (fun n => (n =? 0)%nat || (3 <=? n)%nat) (fun _ _ => [])
              (Some 100%Q) (fun _ => None) (fun _ => None).

(** Dry-run mode *)
Definition dry_world : World :=
  linux_world true (fun _ => true) (fun _ _ => []) (Some 100%Q)
              (fun _ => None) (fun _ => None).

(** Every clip extraction fails *)
Definition clipless_world : World :=
  linux_world false (fun _ => true) (fun _ _ => []) (Some 100%Q)
              (fun _ => Some CalledProcessError) (fun _ => None).

(** The extraction of frame 5 fails *)
Definition frame_drop_world : World :=
  linux_world false (fun _ => true) (fun _ _ => []) (Some 100%Q)
              (fun _ => None)
              (fun i => if (i =? 5)%Z then Some CalledProcessError else None).

Definition scene7 : Scene :=
  {| scene_id := 7;
     scene_files := [{| file_id := 70; file_path := "/xerxes/a.mp4";
                        fingerprints := [("oshash", "0f1e2d3c")] |}];
     screenshot := Some "http://stash/scene/7/screenshot" |}.

(** A catalog of 60 scenes without phash *)
Definition busy_world : World :=
  linux_world false (fun _ => true)
              (fun size page =>
                 match page with
                 | None => repeat scene7 60
                 | Some _ => repeat scene7 (Z.to_nat size)
                 end)
              (Some 100%Q) (fun _ => None) (fun _ => None).

(** The file of scene 7 is on disk *)
Definition on_disk : State :=
  {| tags := ∅; fs := {["/mnt/xerxes/a.mp4"]}; trace := []; requests := 0 |}.

(** Scene 7 holds the processing tag *)
Definition claimed_state : State :=
  {| tags := {[7 := {[hashing_tag]}]}; fs := ∅; trace := []; requests := 0 |}.

(** The generator [process_scene] builds from [config.py] *)
Definition config_preview : PreviewVideoGenerator.t :=
  PreviewVideoGenerator.init calm_world "/mnt/xerxes/a.mp4"
    "/mnt/stash/stash/generated/screenshots/0f1e2d3c.mp4" "0f1e2d3c"
    15 1 15 (Some false).

Definition config_sprite : VideoSpriteGenerator.t :=
  VideoSpriteGenerator.init calm_world "/mnt/xerxes/a.mp4"
    "/mnt/stash/stash/generated/vtt/0f1e2d3c_sprite.jpg"
    "/mnt/stash/stash/generated/vtt/0f1e2d3c_thumbs.vtt" "0f1e2d3c" (Some false).

(** ** Reading traces and relating states *)

(** how often [claim_scene] and [release_scene] were called for a scene *)
Fixpoint claim_calls (scene : Z) (tr : list Event) : nat :=
  match tr with
  | [] => 0
  | CallClaim s :: r => (if bool_decide (s = scene) then 1 else 0) + claim_calls scene r
  | _ :: r => claim_calls scene r
  end.

Fixpoint release_calls (scene : Z) (tr : list Event) : nat :=
  match tr with
  | [] => 0
  | CallRelease s :: r => (if bool_decide (s = scene) then 1 else 0) + release_calls scene r
  | _ :: r => release_calls scene r
  end.

(** an event other than a call of [claim_scene] or [release_scene] *)
Definition other_event (e : Event) : Prop :=
  match e with
  | CallClaim _ | CallRelease _ => False
  | _ => True
  end.

(** the page queries sent to the catalog, in order: page size, page
    number and requested fields *)
Fixpoint page_queries (tr : list Event) : list (Z * Z * string) :=
  match tr with
  | [] => []
  | CatalogQuery size (Some page) fragment :: r =>
      (size, page, fragment) :: page_queries r
  | _ :: r => page_queries r
  end.

(** [m] relates every state to the state it leaves, whatever its outcome *)
Definition preserves (R : State -> State -> Prop) {A} (m : M A) : Prop :=
  forall st, R st (snd (m st)).

(** the later state has the claim and release calls of the earlier one,
    and no other *)
Definition same_protocol_calls (st st' : State) : Prop :=
  forall scene,
    claim_calls scene (trace st') = claim_calls scene (trace st) /\
    release_calls scene (trace st') = release_calls scene (trace st).

(** the later state has every file of the earlier one *)
Definition keeps_files (st st' : State) : Prop :=
  forall p, p ∈ fs st -> p ∈ fs st'.

(** the later state has no file that the earlier did not have, except
    the allowed ones *)
Definition adds_only (allowed : string -> Prop) (st st' : State) : Prop :=
  forall p, p ∈ fs st' -> p ∈ fs st \/ allowed p.

(** ** More worlds, readers and relations *)

(** a name that can be a component of a path: not empty, and free of the
    characters that [process_scene] refuses in a hash *)
Definition safe_name (s : string) : Prop :=
  s <> "" /\ contains ":" s = false /\ contains "\" s = false /\
  contains "/" s = false.

(** the catalog accepts every request from the [n]-th on *)
Definition accepts_from (W : World) (n : nat) : Prop :=
  forall k, (n <= k)%nat -> request_ok W k = true.

Definition error_tags : gset Z := {[hashing_error_tag; cover_error_tag]}.

(** nothing was sent to the catalog between the two states *)
Definition same_catalog (st st' : State) : Prop :=
  tags st' = tags st /\ requests st' = requests st.

(** between the two states the tags of the other scenes did not change,
    and on the scene itself no tag was added but the processing tag and
    the two error tags, and no tag was taken away but the processing tag *)
Definition touches_only (scene : Z) (st st' : State) : Prop :=
  (forall s, s <> scene -> scene_tags st' s = scene_tags st s) /\
  (forall t, t ∈ scene_tags st' scene ->
             t ∈ scene_tags st scene \/ t = hashing_tag \/
             t = hashing_error_tag \/ t = cover_error_tag) /\
  (forall t, t ∈ scene_tags st scene -> t <> hashing_tag ->
             t ∈ scene_tags st' scene).

(** [W] with another answer to the download of the cover *)
Definition with_cover (content : Outcome string) (W : World) : World :=
  {| dry_run := dry_run W;
     verbose := verbose W;
     generate_sprite := generate_sprite W;
     generate_preview := generate_preview W;
     per_page := per_page W;
     filemask := filemask W;
     translations := translations W;
     sprite_path := sprite_path W;
     preview_path := preview_path W;
     preview_clips := preview_clips W;
     preview_clip_length := preview_clip_length W;
     preview_skip_seconds := preview_skip_seconds W;
     request_ok := request_ok W;
     find_scenes := find_scenes W;
     probe_duration := probe_duration W;
     clip_failure := clip_failure W;
     frame_failure := frame_failure W;
     concat_ok := concat_ok W;
     videohash := videohash W;
     http_get := fun _ => content;
     cover_ffmpeg := cover_ffmpeg W;
     random_token := random_token W;
     normpath := normpath W;
     abspath := abspath W;
     fnmatch := fnmatch W |}.

(** Scenes 7 and 8 carry error tags, scene 9 a tag of the user *)
Definition tagged_state : State :=
  {| tags := {[7 := {[hashing_error_tag; 42]}; 8 := {[cover_error_tag]};
               9 := {[42]}]};
     fs := ∅; trace := []; requests := 0 |}.

(** Dry-run mode, and a catalog that serves a placeholder drawing as the
    cover of every scene *)
Definition dry_svg_world : World :=
  with_cover (Ret "<SVG xmlns='http://www.w3.org/2000/svg'/>") dry_world.

(** the clips of a preview whose extraction succeeds, in the order of
    their indices *)
Definition clip_survives (W : World) (self : PreviewVideoGenerator.t) (i : Z) : bool :=
  match clip_failure W (PreviewVideoGenerator.filename self) i with
  | None => true
  | Some _ => false
  end.

Definition surviving_clips (W : World) (self : PreviewVideoGenerator.t) : list string :=
  map (PreviewVideoGenerator.clip_file self)
      (List.filter (clip_survives W self)
                   (py_range 0 (PreviewVideoGenerator.num_clips self))).

(** [W] with another answer of the splicing command *)
Definition with_concat (ok : bool) (W : World) : World :=
  {| dry_run := dry_run W;
     verbose := verbose W;
     generate_sprite := generate_sprite W;
     generate_preview := generate_preview W;
     per_page := per_page W;
     filemask := filemask W;
     translations := translations W;
     sprite_path := sprite_path W;
     preview_path := preview_path W;
     preview_clips := preview_clips W;
     preview_clip_length := preview_clip_length W;
     preview_skip_seconds := preview_skip_seconds W;
     request_ok := request_ok W;
     find_scenes := find_scenes W;
     probe_duration := probe_duration W;
     clip_failure := clip_failure W;
     frame_failure := frame_failure W;
     concat_ok := fun _ => ok;
     videohash := videohash W;
     http_get := http_get W;
     cover_ffmpeg := cover_ffmpeg W;
     random_token := random_token W;
     normpath := normpath W;
     abspath := abspath W;
     fnmatch := fnmatch W |}.

(** The extraction of clip 3 exits with an error *)
Definition clip_drop_world : World :=
  linux_world false (fun _ => true) (fun _ _ => []) (Some 100%Q)
              (fun i => if (i =? 3)%Z then Some CalledProcessError else None)
              (fun _ => None).

(** The program ffmpeg is not installed: no clip extraction can start *)
Definition toolless_world : World :=
  linux_world false (fun _ => true) (fun _ _ => []) (Some 100%Q)
              (fun _ => Some FileNotFoundError) (fun _ => None).

(** The probe prints no duration *)
Definition unprobed_world : World :=
  linux_world false (fun _ => true) (fun _ _ => []) None
              (fun _ => None) (fun _ => None).

(** the cues written to the caption file, in order: start, end and the
    rectangle of the tile *)
Fixpoint cues (tr : list Event) : list (string * string * (Z * Z * Z * Z)) :=
  match tr with
  | [] => []
  | Cue start stop rect :: r => (start, stop, rect) :: cues r
  | _ :: r => cues r
  end.

(** the later state has the cues of the earlier one, and no other *)
Definition same_cues (st st' : State) : Prop := cues (trace st') = cues (trace st).

(** the sheets saved so far *)
Fixpoint saved_sprites (tr : list Event) : list (string * list (Z * Z)) :=
  match tr with
  | [] => []
  | SpriteSaved path tiles :: r => (path, tiles) :: saved_sprites r
  | _ :: r => saved_sprites r
  end.

(** a device whose [vainfo] output names a VA-API version and a driver *)
Definition usable_device (vainfo : string -> Outcome string) (device : string) : bool :=
  match vainfo device with
  | Ret output =>
      (contains "VA-API version" output && contains "Driver version" output)%bool
  | Raise _ => false
  end.

(** [config.py] on Linux *)
Definition default_config : Config.t :=
  {| Config.windows := false;
     Config.generate_sprite := true;
     Config.generate_preview := true;
     Config.dry_run := false;
     Config.verbose := false;
     Config.once := false;
     Config.debug := false;
     Config.per_page := 25;
     Config.max_workers := 4;
     Config.filemask := None;
     Config.vaapi_override := None;
     Config.binary := "./bin/videohashes-linux";
     Config.ffmpeg := "/usr/bin/ffmpeg";
     Config.ffprobe := "/usr/bin/ffprobe";
     Config.sprite_path := "/mnt/stash/stash/generated/vtt";
     Config.preview_path := "/mnt/stash/stash/generated/screenshots" |}.

(** a command line with [--batch-size] only *)
Definition batch_size_args (size : option Z) : Args.t :=
  {| Args.windows := false;
     Args.generate_sprite := false;
     Args.generate_preview := false;
     Args.dry_run := false;
     Args.verbose := false;
     Args.once := false;
     Args.debug := false;
     Args.batch_size := size;
     Args.max_workers := None;
     Args.filemask := None;
     Args.vaapi := false;
     Args.novaapi := false |}.

(** the render node answers, the cards do not *)
Definition render_node_vainfo (device : string) : Outcome string :=
  if String.eqb device "/dev/dri/card0"
  then Ret "vainfo: VA-API version: 1.20 (libva 2.12.0) vainfo: Driver version: Mesa Gallium"
  else Raise (OtherError "timed out").

(** a scene that [process_scene] reports as processed *)
Definition is_success (future : Future) : bool :=
  match future with
  | Finished true _ => true
  | _ => false
  end.

(** the futures that the loop of [main] reads before a shutdown is
    requested *)
Fixpoint examined (shutdown : nat -> bool) (k : nat) (futures : list Future)
  : list Future :=
  match futures with
  | [] => []
  | future :: rest =>
      if shutdown k then [] else future :: examined shutdown (S k) rest
  end.

(** a machine on which every call succeeds *)
Definition linux_host : Host :=
  {| getcwd := "/opt/node";
     access_x := fun _ => true;
     access_w := fun _ => true;
     access_rw := fun _ => true;
     version_failure := fun _ => None;
     rmtree_failure := fun _ => None;
     makedirs_failure := fun _ => None;
     open_failure := fun _ => None;
     remove_failure := fun _ => None |}.

(** the same machine without the program ffprobe *)
Definition probeless_host : Host :=
  {| getcwd := "/opt/node";
     access_x := fun _ => true;
     access_w := fun _ => true;
     access_rw := fun _ => true;
     version_failure :=
       fun tool => if String.eqb tool "/usr/bin/ffprobe"
                   then Some FileNotFoundError else None;
     rmtree_failure := fun _ => None;
     makedirs_failure := fun _ => None;
     open_failure := fun _ => None;
     remove_failure := fun _ => None |}.

(** the binary and the output directories are in place *)
Definition installed : State :=
  {| tags := ∅;
     fs := {["./bin/videohashes-linux"; "/mnt/stash/stash/generated/vtt";
             "/mnt/stash/stash/generated/screenshots"]};
     trace := []; requests := 0 |}.

(** the name, the verdict and the message of an entry of the results *)
Definition entry_name (entry : string * bool * string) : string := fst (fst entry).
Definition entry_passed (entry : string * bool * string) : bool := snd (fst entry).

(** the later state has seen at least the requests of the earlier one *)
Definition later (st st' : State) : Prop := (requests st <= requests st')%nat.

(** [m] returns, and does not raise, from every state from which the
    catalog accepts the requests *)
Definition returns (W : World) {A} (m : M A) : Prop :=
  forall st, accepts_from W (requests st) -> exists a st', m st = (Ret a, st').

(** The hashing binary fails on every file *)
Definition hashless_world : World :=
  {| dry_run := false;
     verbose := false;
     generate_sprite := true;
     generate_preview := true;
     per_page := 25;
     filemask := None;
     translations := [("/data/", "/mnt/strangyr/"); ("/xerxes/", "/mnt/xerxes/");
                      ("/data_stranghouse/", "/mnt/Stranghouse/")];
     sprite_path := "/mnt/stash/stash/generated/vtt";
     preview_path := "/mnt/stash/stash/generated/screenshots";
     preview_clips := 15;
     preview_clip_length := 1;
     preview_skip_seconds := 15;
     request_ok := fun _ => true;
     find_scenes := fun _ _ => [];
     probe_duration := fun _ => Some 100%Q;
     clip_failure := fun _ _ => None;
     frame_failure := fun _ _ => None;
     concat_ok := fun _ => true;
     videohash := fun _ => Raise CalledProcessError;
     http_get := fun _ => Ret "<html>";
     cover_ffmpeg := fun _ _ => (true, true);
     random_token := "k3j9x0q2m1zz";
     normpath := fun p => p;
     abspath := fun p => if String.prefix "/" p then p else "/opt/node/" ++ p;
     fnmatch := fun _ _ => true |}.

(** ** benchmarking/sprite_benchmark.py *)

(** The loop of [combine_frames_to_sprite]: the corner at which each frame
    is pasted. The loop stops at the first index that the grid cannot
    hold. The frames are taken to open. *)
Fixpoint paste_frames (frames : list (Z * string))
    (columns rows thumb_width thumb_height : Z) : Outcome (list (Z * Z)) :=
  match frames with
  | [] => Ret []
  | (idx, _) :: rest =>
      if (columns * rows <=? idx)%Z then Ret []
      else
        match gridPlacement idx columns thumb_width thumb_height with
        | Raise e => Raise e
        | Ret rect =>
            match paste_frames rest columns rows thumb_width thumb_height with
            | Raise e => Raise e
            | Ret tiles => Ret ((rect.1.1.1, rect.1.1.2) :: tiles)
            end
        end
  end.

Definition combine_frames_to_sprite (frame_files : list string)
    (columns rows thumb_width thumb_height : Z) : Outcome (list (Z * Z)) :=
  paste_frames (enumerate frame_files) columns rows thumb_width thumb_height.

(* ===================================================================== *)
(** * Part II. Properties                                                 *)
(* ===================================================================== *)

Example format_time_negative : format_time (-1.5)%Q = "-1:59:59.500".
Proof. vm_compute. reflexivity. Qed.

(** ** Ranges *)

Lemma length_py_range a b : length (py_range a b) = Z.to_nat (b - a).
Proof. unfold py_range. now rewrite length_map, length_seq. Qed.

Lemma nth_py_range a b i :
  (i < Z.to_nat (b - a))%nat -> nth i (py_range a b) 0 = a + Z.of_nat i.
Proof.
  intros Hi. unfold py_range.
  rewrite (nth_indep _ 0 (a + Z.of_nat 0)) by now rewrite length_map, length_seq.
  rewrite (map_nth (fun k => a + Z.of_nat k)), seq_nth by assumption.
  reflexivity.
Qed.

(** ** The clip start times (get_start_times) *)

Section StartTimes.
Import PreviewVideoGenerator.
Variable self : PreviewVideoGenerator.t.
Variable duration : Q.
Hypothesis clips_pos : 1 <= num_clips self.
Hypothesis long_enough : (skip_seconds self + clip_length self < duration)%Q.

Let span : Q := (duration - skip_seconds self - clip_length self)%Q.
Let interval : Q := (span / inject_Z (num_clips self + 1))%Q.

Lemma span_pos : (0 < span)%Q.
Proof. unfold span. lra. Qed.

Lemma slots_pos : (0 < inject_Z (num_clips self + 1))%Q.
Proof. change 0%Q with (inject_Z 0). rewrite <- Zlt_Qlt. lia. Qed.

Lemma interval_pos : (0 < interval)%Q.
Proof.
  unfold interval, Qdiv. apply Qmult_lt_0_compat; [apply span_pos |].
  apply Qinv_lt_0_compat, slots_pos.
Qed.

Lemma interval_slots : (interval * inject_Z (num_clips self + 1) == span)%Q.
Proof.
  unfold interval. rewrite Qmult_comm. apply Qmult_div_r.
  intros E. pose proof slots_pos as P. rewrite E in P. now apply Qlt_irrefl in P.
Qed.

Lemma start_times_value :
  get_start_times self duration =
  Ret (map (fun i => (skip_seconds self + interval * inject_Z i)%Q)
           (py_range 1 (num_clips self + 1))).
Proof.
  unfold get_start_times.
  destruct (Z.eqb_spec (num_clips self + 1) 0) as [E | _]; [lia | reflexivity].
Qed.

Lemma start_time_nth starts i :
  get_start_times self duration = Ret starts ->
  (i < length starts)%nat ->
  nth i starts 0%Q =
  (skip_seconds self + interval * inject_Z (Z.of_nat i + 1))%Q.
Proof.
  rewrite start_times_value. intros [= <-]. rewrite length_map, length_py_range.
  intros Hi.
  set (f := fun i => (skip_seconds self + interval * inject_Z i)%Q).
  rewrite (nth_indep _ 0%Q (f 0)) by now rewrite length_map, length_py_range.
  rewrite (map_nth f), nth_py_range by assumption.
  unfold f. now rewrite (Z.add_comm 1).
Qed.

End StartTimes.



(** ** Grid placement *)

Lemma gridPlacement_value index columns w h :
  columns <> 0 ->
  gridPlacement index columns w h =
  Ret ((index mod columns) * w, (index / columns) * h, w, h).
Proof.
  intros Hc. unfold gridPlacement.
  destruct (Z.eqb_spec columns 0); [contradiction | reflexivity].
Qed.

(** C8. On a grid with at least one column and tiles of positive width and
    height, the placement [x = (index % columns) * tileWidth],
    [y = (index // columns) * tileHeight] is injective in the index for
    the indices below [columns * rows], and the tile of index [columns]
    is placed at [(0, tileHeight)]. *)
Theorem gridPlacement_injective (columns rows w h : Z) :
  0 < columns -> 0 < w -> 0 < h ->
  (forall i j,
      0 <= i < columns * rows -> 0 <= j < columns * rows ->
      gridPlacement i columns w h = gridPlacement j columns w h -> i = j) /\
  gridPlacement columns columns w h = Ret (0, h, w, h).
Proof.
  intros Hc Hw Hh. split.
  - intros i j _ _. rewrite !gridPlacement_value by lia. intros [= Hx Hy].
    apply Z.mul_reg_r in Hx; [| lia]. apply Z.mul_reg_r in Hy; [| lia].
    rewrite (Z_div_mod_eq_full i columns), (Z_div_mod_eq_full j columns).
    now rewrite Hx, Hy.
  - rewrite gridPlacement_value by lia.
    rewrite Z_mod_same_full, Z_div_same_full by lia.
    now rewrite Z.mul_0_l, Z.mul_1_l.
Qed.

Lemma gridPlacement_injective_witness :
  0 < 9 /\ 0 < 160 /\ 0 < 90 /\
  (forall i j,
      0 <= i < 9 * 9 -> 0 <= j < 9 * 9 ->
      gridPlacement i 9 160 90 = gridPlacement j 9 160 90 -> i = j) /\
  gridPlacement 9 9 160 90 = Ret (0, 90, 160, 90).
Proof.
  split; [lia |]. split; [lia |]. split; [lia |].
  apply (gridPlacement_injective 9 9 160 90); lia.
Defined.

(** ** Timecodes *)

Lemma string_length_app (a b : string) :
  String.length (a ++ b) = (String.length a + String.length b)%nat.
Proof. induction a as [| c a IH]; simpl; [reflexivity | now rewrite IH]. Qed.

Lemma length_zeros n : String.length (zeros n) = n.
Proof. induction n as [| n IH]; simpl; [reflexivity | now rewrite IH]. Qed.

Lemma length_zfill width s : (width <= String.length (zfill width s))%nat.
Proof. unfold zfill. rewrite string_length_app, length_zeros. lia. Qed.

Lemma length_fmt_int width z : 0 <= z -> (width <= String.length (fmt_int width z))%nat.
Proof.
  intros Hz. unfold fmt_int.
  destruct (Z.ltb_spec z 0); [lia | apply length_zfill].
Qed.

(** Checking a property of the integers below a bound by running it *)
Lemma below_by_cases (P : Z -> bool) (bound : nat) :
  forallb (fun k => P (Z.of_nat k)) (seq 0 bound) = true ->
  forall v, 0 <= v < Z.of_nat bound -> P v = true.
Proof.
  intros Hall v Hv. rewrite forallb_forall in Hall.
  specialize (Hall (Z.to_nat v)). rewrite Z2Nat.id in Hall by lia.
  apply Hall, in_seq. lia.
Qed.

Lemma fmt_int_two_digits v : 0 <= v < 100 -> fmt_int 2 v = two_digits v.
Proof.
  intros Hv. apply String.eqb_eq.
  apply (below_by_cases (fun v => String.eqb (fmt_int 2 v) (two_digits v)) 100);
    [vm_compute; reflexivity | exact Hv].
Qed.

Lemma fmt_int_three_digits v : 0 <= v < 1000 -> fmt_int 3 v = three_digits v.
Proof.
  intros Hv. apply String.eqb_eq.
  apply (below_by_cases (fun v => String.eqb (fmt_int 3 v) (three_digits v)) 1000);
    [vm_compute; reflexivity | exact Hv].
Qed.

Lemma py_int_floor (x : Q) : (0 <= x)%Q -> py_int x = Qfloor x.
Proof.
  destruct x as [n d]. unfold Qle, py_int, Qfloor. simpl. intros Hn.
  apply Z.quot_div_nonneg; lia.
Qed.

Lemma py_mod1_range (x : Q) : (0 <= py_mod1 x < 1)%Q.
Proof.
  unfold py_mod1. pose proof (Qfloor_le x) as Hlo. pose proof (Qlt_floor x) as Hhi.
  rewrite inject_Z_plus in Hhi. change (inject_Z 1) with 1%Q in Hhi. lra.
Qed.

Lemma millisec_range (x : Q) : 0 <= Qfloor (py_mod1 x * 1000) < 1000.
Proof.
  pose proof (py_mod1_range x) as [Hlo Hhi]. split.
  - change 0 with (Qfloor 0). apply Qfloor_resp_le. lra.
  - apply Z.lt_nge. intros Hge. rewrite Zle_Qle in Hge.
    pose proof (Qfloor_le (py_mod1 x * 1000)) as Hf.
    change (inject_Z 1000) with 1000%Q in Hge. lra.
Qed.



(** ** The catalog helpers (stash_utils) *)

Lemma update_scenes_run W scene tag mode st :
  update_scenes W scene tag mode st =
  if request_ok W (requests st) then
    (Ret tt,
     with_tags (<[scene := apply_tag mode tag (scene_tags st scene)]> (tags st))
               (with_request st))
  else (Raise RemoteError, with_request st).
Proof.
  unfold update_scenes, bind, catalog_request.
  destruct (request_ok W (requests st)); reflexivity.
Qed.

Lemma scene_tags_updated scene tagset t st :
  scene_tags (with_tags (<[scene := tagset]> t) st) scene = tagset.
Proof. unfold scene_tags. simpl. now rewrite lookup_insert_eq. Qed.

Lemma scene_tags_with_fs f st scene : scene_tags (with_fs f st) scene = scene_tags st scene.
Proof. reflexivity. Qed.

Lemma scene_tags_with_event e st scene :
  scene_tags (with_event e st) scene = scene_tags st scene.
Proof. reflexivity. Qed.

Lemma scene_tags_with_request st scene :
  scene_tags (with_request st) scene = scene_tags st scene.
Proof. reflexivity. Qed.

(** What the two tag updates of [tag_scene_error] leave on the scene *)
Lemma tag_scene_error_tags (W : World) (scene error_tag : Z)
    (error_msg : option string) (st : State) :
  dry_run W = false ->
  fst (tag_scene_error W scene error_tag error_msg st) = Ret tt ->
  scene_tags (snd (tag_scene_error W scene error_tag error_msg st)) scene =
  (scene_tags st scene ∪ {[error_tag]}) ∖ {[hashing_tag]}.
Proof.
  intros Hdry. unfold tag_scene_error. rewrite Hdry.
  unfold bind, emit. rewrite update_scenes_run.
  destruct (request_ok W _); [| discriminate].
  rewrite update_scenes_run.
  destruct (request_ok W _); [| discriminate].
  intros _.
  set (s2 := with_tags (<[scene := apply_tag REMOVE _ _]> _) _).
  assert (Hs2 : scene_tags s2 scene =
                (scene_tags st scene ∪ {[error_tag]}) ∖ {[hashing_tag]}).
  { subst s2. now rewrite !scene_tags_updated. }
  destruct error_msg as [msg |]; [unfold when; destruct (negb _) |]; exact Hs2.
Qed.

(** C10. Outside dry-run mode, when [tag_scene_error] returns, the scene
    carries the error tag and no longer carries the processing tag
    ([hashing_tag]); an error tag is a tag other than the processing tag. *)
Theorem tag_scene_error_marks (W : World) (scene error_tag : Z)
    (error_msg : option string) (st : State) :
  dry_run W = false ->
  error_tag <> hashing_tag ->
  fst (tag_scene_error W scene error_tag error_msg st) = Ret tt ->
  let st' := snd (tag_scene_error W scene error_tag error_msg st) in
  error_tag ∈ scene_tags st' scene /\ hashing_tag ∉ scene_tags st' scene.
Proof.
  intros Hdry Hne Hret st'. subst st'.
  rewrite (tag_scene_error_tags W scene error_tag error_msg st Hdry Hret).
  split.
  - apply elem_of_difference. split.
    + apply elem_of_union_r. now apply elem_of_singleton.
    + rewrite elem_of_singleton. exact Hne.
  - rewrite elem_of_difference, elem_of_singleton. tauto.
Qed.

Lemma tag_scene_error_marks_witness :
  dry_run calm_world = false /\
  hashing_error_tag <> hashing_tag /\
  fst (tag_scene_error calm_world 7 hashing_error_tag None claimed_state) = Ret tt /\
  hashing_error_tag
    ∈ scene_tags (snd (tag_scene_error calm_world 7 hashing_error_tag None claimed_state)) 7 /\
  hashing_tag
    ∉ scene_tags (snd (tag_scene_error calm_world 7 hashing_error_tag None claimed_state)) 7.
Proof.
  split; [reflexivity |]. split; [discriminate |]. split; [vm_compute; reflexivity |].
  apply (tag_scene_error_marks calm_world 7 hashing_error_tag None claimed_state);
    [reflexivity | discriminate | vm_compute; reflexivity].
Defined.

(** ** Running a computation step by step *)

Lemma bind_ret_run {A B} (m : M A) (k : A -> M B) st a st1 :
  m st = (Ret a, st1) -> bind m k st = k a st1.
Proof. intros E. unfold bind. now rewrite E. Qed.

Lemma bind_raise_run {A B} (m : M A) (k : A -> M B) st e st1 :
  m st = (Raise e, st1) -> bind m k st = (Raise e, st1).
Proof. intros E. unfold bind. now rewrite E. Qed.

Lemma submit_run {A} (task : M A) st :
  submit task st = (Ret (fst (task st)), snd (task st)).
Proof. unfold submit. now destruct (task st). Qed.

(** ** Relations kept by every step of a computation *)

Section Preservation.
Context (R : State -> State -> Prop) `{!PreOrder R}.

Lemma preserves_ret {A} (a : A) : preserves R (ret a).
Proof. intros st. reflexivity. Qed.

Lemma preserves_raise {A} (e : exn) : preserves R (@raise A e).
Proof. intros st. reflexivity. Qed.

Lemma preserves_bind {A B} (m : M A) (k : A -> M B) :
  preserves R m -> (forall a, preserves R (k a)) -> preserves R (bind m k).
Proof.
  intros Hm Hk st. unfold bind. specialize (Hm st).
  destruct (m st) as [[a | e] st1]; simpl in *; [| exact Hm].
  etransitivity; [exact Hm | apply Hk].
Qed.

Lemma preserves_try_except {A} (body : M A) (handler : exn -> M A) :
  preserves R body -> (forall e, preserves R (handler e)) ->
  preserves R (try_except body handler).
Proof.
  intros Hb Hh st. unfold try_except. specialize (Hb st).
  destruct (body st) as [[a | e] st1]; simpl in *; [exact Hb |].
  etransitivity; [exact Hb | apply Hh].
Qed.

Lemma preserves_try_finally {A} (body : M A) (final : M unit) :
  preserves R body -> preserves R final -> preserves R (try_finally body final).
Proof.
  intros Hb Hf st. unfold try_finally. specialize (Hb st).
  destruct (body st) as [r st1]. specialize (Hf st1).
  destruct (final st1) as [[[] | e] st2]; simpl in *;
    (etransitivity; [exact Hb | exact Hf]).
Qed.

Lemma preserves_when (b : bool) (m : M unit) :
  preserves R m -> preserves R (when b m).
Proof. intros Hm. destruct b; [exact Hm | apply preserves_ret]. Qed.

Lemma preserves_for_each {A} (l : list A) (f : A -> M unit) :
  (forall x, preserves R (f x)) -> preserves R (for_each l f).
Proof.
  intros Hf. induction l as [| x l IH]; simpl.
  - apply preserves_ret.
  - apply preserves_bind; [apply Hf | intros _; exact IH].
Qed.

Lemma preserves_future_result {A} (future : Outcome A) :
  preserves R (future_result future).
Proof. destruct future; [apply preserves_ret | apply preserves_raise]. Qed.

Lemma preserves_submit {A} (task : M A) : preserves R task -> preserves R (submit task).
Proof.
  intros Ht st. unfold submit. specialize (Ht st).
  destruct (task st) as [r st1]. exact Ht.
Qed.

Lemma preserves_submit_all {A B} (f : B -> M A) (l : list B) :
  (forall x, preserves R (f x)) -> preserves R (submit_all (map f l)).
Proof.
  intros Hf. induction l as [| x l IH]; simpl.
  - apply preserves_ret.
  - apply preserves_bind; [apply preserves_submit, Hf | intros o].
    apply preserves_bind; [exact IH | intros os; apply preserves_ret].
Qed.

Lemma preserves_path_exists p : preserves R (path_exists p).
Proof. intros st. reflexivity. Qed.

Lemma preserves_read_fs : preserves R read_fs.
Proof. intros st. reflexivity. Qed.

Lemma preserves_collect_clips futures :
  preserves R (PreviewVideoGenerator.collect_clips futures).
Proof.
  induction futures as [| o l IH]; simpl.
  - apply preserves_ret.
  - apply preserves_bind; [apply preserves_future_result | intros c].
    apply preserves_bind; [exact IH | intros r; apply preserves_ret].
Qed.

Lemma preserves_paste_tiles self images :
  preserves R (VideoSpriteGenerator.paste_tiles self images).
Proof.
  induction images as [| [idx name] l IH]; simpl.
  - apply preserves_ret.
  - apply preserves_bind; [apply preserves_future_result | intros c].
    apply preserves_bind; [exact IH | intros r; apply preserves_ret].
Qed.

End Preservation.

(** One step of a proof that a computation keeps a relation: the shape of
    the computation decides the lemma. *)
Ltac preserves_step :=
  lazymatch goal with
  | |- preserves _ (bind _ _) => apply preserves_bind; [exact _ | | intros ?]
  | |- preserves _ (ret _) => apply preserves_ret; exact _
  | |- preserves _ (raise _) => apply preserves_raise; exact _
  | |- preserves _ (try_except _ _) =>
      apply preserves_try_except; [exact _ | | intros ?]
  | |- preserves _ (try_finally _ _) => apply preserves_try_finally; [exact _ | |]
  | |- preserves _ (when _ _) => apply preserves_when; [exact _ |]
  | |- preserves _ (for_each _ _) => apply preserves_for_each; [exact _ | intros ?]
  | |- preserves _ (submit_all (map _ _)) =>
      apply preserves_submit_all; [exact _ | intros ?]
  | |- preserves _ (future_result _) => apply preserves_future_result; exact _
  | |- preserves _ (lift _) => apply preserves_future_result; exact _
  | |- preserves _ (path_exists _) => apply preserves_path_exists; exact _
  | |- preserves _ read_fs => apply preserves_read_fs; exact _
  | |- preserves _ (PreviewVideoGenerator.collect_clips _) =>
      apply preserves_collect_clips; exact _
  | |- preserves _ (VideoSpriteGenerator.paste_tiles _ _) =>
      apply preserves_paste_tiles; exact _
  | |- preserves _ (if ?b then _ else _) => destruct b
  | |- preserves _ (match ?x with _ => _ end) => destruct x
  end.

(** ** Counting the calls of the claim protocol *)

Lemma claim_calls_app scene a b :
  claim_calls scene (a ++ b) = (claim_calls scene a + claim_calls scene b)%nat.
Proof.
  induction a as [| e a IH]; simpl; [reflexivity |].
  destruct e; rewrite IH; lia.
Qed.

Lemma release_calls_app scene a b :
  release_calls scene (a ++ b) = (release_calls scene a + release_calls scene b)%nat.
Proof.
  induction a as [| e a IH]; simpl; [reflexivity |].
  destruct e; rewrite IH; lia.
Qed.

#[local] Instance same_protocol_calls_preorder : PreOrder same_protocol_calls.
Proof.
  split.
  - intros st scene. split; reflexivity.
  - intros a b c Hab Hbc scene.
    destruct (Hab scene) as [Hc1 Hr1], (Hbc scene) as [Hc2 Hr2].
    split; congruence.
Qed.

Lemma same_trace_same_calls st st' :
  trace st' = trace st -> same_protocol_calls st st'.
Proof. intros E scene. now rewrite E. Qed.

Lemma quiet_emit e : other_event e -> preserves same_protocol_calls (emit e).
Proof.
  intros He st scene. simpl. rewrite claim_calls_app, release_calls_app.
  destruct e; simpl in *; try contradiction; lia.
Qed.

Lemma quiet_print msg : preserves same_protocol_calls (print msg).
Proof. apply quiet_emit. exact I. Qed.

Lemma quiet_create_path p : preserves same_protocol_calls (create_path p).
Proof. intros st. now apply same_trace_same_calls. Qed.

Lemma quiet_remove_path p : preserves same_protocol_calls (remove_path p).
Proof. intros st. now apply same_trace_same_calls. Qed.

Lemma quiet_remove_tree p : preserves same_protocol_calls (remove_tree p).
Proof. intros st. now apply same_trace_same_calls. Qed.

Lemma quiet_catalog_request W : preserves same_protocol_calls (catalog_request W).
Proof.
  intros st. apply same_trace_same_calls. unfold catalog_request.
  destruct (request_ok W (requests st)); reflexivity.
Qed.

Lemma quiet_update_scenes W scene tag mode :
  preserves same_protocol_calls (update_scenes W scene tag mode).
Proof.
  intros st. apply same_trace_same_calls. rewrite update_scenes_run.
  destruct (request_ok W (requests st)); reflexivity.
Qed.

Create HintDb quiet.
#[local] Hint Resolve quiet_print quiet_create_path quiet_remove_path
  quiet_remove_tree quiet_catalog_request quiet_update_scenes : quiet.
#[local] Hint Extern 1 (preserves same_protocol_calls (emit _)) =>
  apply quiet_emit; exact I : quiet.

Ltac quiet := repeat first [solve [auto with quiet] | preserves_step].

Lemma quiet_log_scene_failure scene step :
  preserves same_protocol_calls (log_scene_failure scene step).
Proof. unfold log_scene_failure. quiet. Qed.

Lemma quiet_tag_scene_error W scene tag msg :
  preserves same_protocol_calls (tag_scene_error W scene tag msg).
Proof. unfold tag_scene_error. quiet. Qed.

Lemma quiet_update_phash W file phash :
  preserves same_protocol_calls (update_phash W file phash).
Proof. unfold update_phash. quiet. Qed.

Lemma quiet_update_cover W scene : preserves same_protocol_calls (update_cover W scene).
Proof. unfold update_cover. quiet. Qed.

#[local] Hint Resolve quiet_log_scene_failure quiet_tag_scene_error
  quiet_update_phash quiet_update_cover : quiet.

Lemma quiet_generate_preview W self :
  preserves same_protocol_calls (PreviewVideoGenerator.generate_preview W self).
Proof.
  unfold PreviewVideoGenerator.generate_preview,
    PreviewVideoGenerator.clean_previous_clips,
    PreviewVideoGenerator.generate_clips,
    PreviewVideoGenerator.concatenate_clips,
    PreviewVideoGenerator.get_video_duration.
  quiet. unfold PreviewVideoGenerator.extract_clip. quiet.
Qed.

Lemma quiet_generate_sprite W self :
  preserves same_protocol_calls (VideoSpriteGenerator.generate_sprite W self).
Proof.
  unfold VideoSpriteGenerator.generate_sprite,
    VideoSpriteGenerator.take_screenshots,
    VideoSpriteGenerator.create_sprite,
    VideoSpriteGenerator.clean_up,
    VideoSpriteGenerator.clean_previous_files,
    VideoSpriteGenerator.get_video_duration.
  quiet;
    unfold VideoSpriteGenerator.extract_and_resize, VideoSpriteGenerator.write_cue;
    quiet.
Qed.

#[local] Hint Resolve quiet_generate_preview quiet_generate_sprite : quiet.

Lemma quiet_pipeline W scene file filename filehash vaapi :
  preserves same_protocol_calls (pipeline W scene file filename filehash vaapi).
Proof.
  unfold pipeline, phash_step, cover_step, sprite_step, preview_step,
    run_cover_ffmpeg.
  quiet.
Qed.

(** ** The claim protocol in process_scene *)

Lemma claim_scene_run W scene st :
  claim_scene W scene st =
  if dry_run W then
    (Ret tt, with_event (Printed "[DRY RUN] Would claim scene")
               (with_event (CallClaim scene) st))
  else update_scenes W scene hashing_tag ADD (with_event (CallClaim scene) st).
Proof. unfold claim_scene, bind, emit. destruct (dry_run W); reflexivity. Qed.

Lemma release_scene_run W scene st :
  release_scene W scene st =
  if dry_run W then
    (Ret tt, with_event (Printed "[DRY RUN] Would release scene")
               (with_event (CallRelease scene) st))
  else update_scenes W scene hashing_tag REMOVE (with_event (CallRelease scene) st).
Proof. unfold release_scene, bind, emit. destruct (dry_run W); reflexivity. Qed.

(** What one call of [release_scene] leaves, whether the catalog accepts
    the request or not. *)
Lemma release_scene_effect W scene st :
  let st' := snd (release_scene W scene st) in
  trace st' =
    (trace st ++ CallRelease scene ::
       (if dry_run W then [Printed "[DRY RUN] Would release scene"] else []))%list /\
  (forall s, claim_calls s (trace st') = claim_calls s (trace st)) /\
  release_calls scene (trace st') = S (release_calls scene (trace st)) /\
  (dry_run W = false -> request_ok W (Nat.pred (requests st')) = true ->
   hashing_tag ∉ scene_tags st' scene).
Proof.
  rewrite release_scene_run. destruct (dry_run W) eqn:Hdry.
  - simpl. split; [now rewrite <- app_assoc |]. split; [| split; [| discriminate]].
    + intros s. now rewrite !claim_calls_app, !Nat.add_0_r.
    + rewrite !release_calls_app. simpl. rewrite bool_decide_eq_true_2 by reflexivity. lia.
  - rewrite update_scenes_run. simpl.
    destruct (request_ok W (requests st)) eqn:Hok; simpl.
    + split; [reflexivity |]. split; [| split].
      * intros s. now rewrite claim_calls_app, Nat.add_0_r.
      * rewrite release_calls_app. simpl.
        rewrite bool_decide_eq_true_2 by reflexivity. lia.
      * intros _ _. rewrite scene_tags_updated. simpl.
        rewrite elem_of_difference, elem_of_singleton. tauto.
    + split; [reflexivity |]. split; [| split].
      * intros s. now rewrite claim_calls_app, Nat.add_0_r.
      * rewrite release_calls_app. simpl.
        rewrite bool_decide_eq_true_2 by reflexivity. lia.
      * intros _ Hacc. congruence.
Qed.

(** The final block of a [try]/[finally] is the last thing that runs. *)
Lemma try_finally_state {A} (body : M A) (final : M unit) st :
  snd (try_finally body final st) = snd (final (snd (body st))).
Proof.
  unfold try_finally. destruct (body st) as [r st1]. simpl.
  destruct (final st1) as [[[] | e] st2]; reflexivity.
Qed.

(** With the file in place and the claim accepted, [process_scene]
    is its [try]/[finally] block run from the state the claim leaves. *)
Lemma process_scene_claimed (W : World) (scene : Scene) (vaapi : bool)
    (st : State) (file : SceneFile) (others : list SceneFile) (pretty : string) :
  scene_files scene = file :: others ->
  after_last_sep (file_path file) = Some pretty ->
  translated_path W (file_path file) ∈ fs st ->
  (dry_run W = false -> request_ok W (requests st) = true) ->
  exists st2,
    process_scene W scene vaapi st =
      try_finally
        (pipeline W scene file (translated_path W (file_path file))
           (scratch_hash W file) vaapi)
        (release_scene W (scene_id scene)) st2 /\
    claim_calls (scene_id scene) (trace st2)
      = S (claim_calls (scene_id scene) (trace st)) /\
    release_calls (scene_id scene) (trace st2)
      = release_calls (scene_id scene) (trace st).
Proof.
  intros Hfiles Hpretty Hexists Hclaim.
  unfold process_scene. rewrite Hfiles, Hpretty.
  unfold bind at 1. unfold print at 1, emit at 1.
  unfold bind at 1. unfold path_exists at 1.
  rewrite bool_decide_eq_true_2 by exact Hexists.
  change (negb true) with false. cbv iota.
  unfold bind at 1. rewrite claim_scene_run.
  set (st1 := with_event (Printed "Processing scene") st).
  destruct (dry_run W).
  - eexists. split; [reflexivity |]. simpl.
    rewrite !claim_calls_app, !release_calls_app. simpl.
    rewrite bool_decide_eq_true_2 by reflexivity. lia.
  - rewrite update_scenes_run. simpl. rewrite Hclaim by reflexivity.
    eexists. split; [reflexivity |]. simpl.
    rewrite !claim_calls_app, !release_calls_app. simpl.
    rewrite bool_decide_eq_true_2 by reflexivity. lia.
Qed.



(** ** Scene discovery *)

Lemma page_queries_app a b :
  page_queries (a ++ b) = (page_queries a ++ page_queries b)%list.
Proof.
  induction a as [| e a IH]; simpl; [reflexivity |].
  destruct e; try exact IH. destruct page; [| exact IH]. simpl. now rewrite IH.
Qed.

Lemma fetch_page_queries W page st :
  page_queries (trace (snd (fetch_page W page st))) =
  (page_queries (trace st) ++ [(per_page W, page, full_fragment)])%list.
Proof.
  unfold fetch_page, stash_find_scenes, bind, print, emit, catalog_request. simpl.
  destruct (request_ok W (requests st)); simpl.
  - destruct (filemask W) as [mask |]; simpl.
    + destruct (String.eqb mask ""); simpl;
        rewrite ?page_queries_app; simpl; now rewrite ?app_nil_r.
    + rewrite !page_queries_app. simpl. now rewrite app_nil_r.
  - rewrite !page_queries_app. simpl. now rewrite app_nil_r.
Qed.

Lemma ceiling_pages total_count page_size :
  0 < total_count -> 0 < page_size ->
  let total_pages := Z.max 1 ((total_count + page_size - 1) / page_size) in
  1 <= total_pages /\
  (total_pages - 1) * page_size < total_count <= total_pages * page_size.
Proof.
  intros Hc Hp total_pages.
  pose proof (Z.div_mod (total_count + page_size - 1) page_size ltac:(lia)) as Hdm.
  pose proof (Z.mod_pos_bound (total_count + page_size - 1) page_size Hp) as Hmod.
  assert (Hq : 1 <= (total_count + page_size - 1) / page_size).
  { apply Z.div_le_lower_bound; lia. }
  subst total_pages. rewrite Z.max_r by lia. nia.
Qed.



(** ** A scene whose file is missing *)

Lemma tag_scene_error_run W scene tag msg st :
  dry_run W = false ->
  request_ok W (requests st) = true ->
  request_ok W (S (requests st)) = true ->
  fst (tag_scene_error W scene tag msg st) = Ret tt.
Proof.
  intros Hdry H1 H2. unfold tag_scene_error. rewrite Hdry.
  unfold bind, emit. rewrite update_scenes_run. simpl. rewrite H1.
  rewrite update_scenes_run. simpl. rewrite H2.
  destruct msg as [m |]; [unfold when; destruct (negb _) |]; reflexivity.
Qed.

Lemma tag_scene_error_trace W scene tag msg st :
  exists tail,
    trace (snd (tag_scene_error W scene tag msg st)) =
    (trace st ++ CallTagError scene tag :: tail)%list /\
    Forall other_event tail.
Proof.
  unfold tag_scene_error, bind, emit. destruct (dry_run W).
  - eexists. simpl. rewrite <- app_assoc. split; [reflexivity |].
    repeat constructor.
  - rewrite update_scenes_run. simpl.
    destruct (request_ok W (requests st)); simpl;
      [| exists []; split; [reflexivity | constructor]].
    rewrite update_scenes_run. simpl.
    destruct (request_ok W (S (requests st))); simpl;
      [| exists []; split; [reflexivity | constructor]].
    destruct msg as [m |]; [unfold when; destruct (negb _) |];
      exists []; (split; [reflexivity | constructor]).
Qed.

Lemma other_events_no_calls scene tail :
  Forall other_event tail ->
  claim_calls scene tail = 0%nat /\ release_calls scene tail = 0%nat.
Proof.
  induction 1 as [| e l He _ IH]; [split; reflexivity |].
  destruct e; simpl in *; try contradiction; exact IH.
Qed.

(** Without the file, [process_scene] is its early exit. *)
Lemma process_scene_missing_run (W : World) (scene : Scene) (vaapi : bool)
    (st : State) (file : SceneFile) (others : list SceneFile) (pretty : string) :
  scene_files scene = file :: others ->
  after_last_sep (file_path file) = Some pretty ->
  translated_path W (file_path file) ∉ fs st ->
  process_scene W scene vaapi st =
  bind (log_scene_failure (scene_id scene) "file check")
       (fun _ =>
          bind (tag_scene_error W (scene_id scene) hashing_error_tag
                  (Some "File not found after translation"))
               (fun _ =>
                  ret {| success := false; result_scene_id := scene_id scene |}))
       (with_event (Printed "Processing scene") st).
Proof.
  intros Hfiles Hpretty Hmissing.
  unfold process_scene. rewrite Hfiles, Hpretty.
  unfold bind at 1. unfold print at 1, emit at 1.
  unfold bind at 1. unfold path_exists at 1.
  rewrite bool_decide_eq_false_2 by exact Hmissing. reflexivity.
Qed.




(** ** Scratch directories *)

Lemma string_app_assoc (a b c : string) : (a ++ b) ++ c = a ++ (b ++ c).
Proof.
  induction a as [| x a IH]; [reflexivity | exact (f_equal (String x) IH)].
Qed.

Lemma prefix_app (a b : string) : String.prefix a (a ++ b) = true.
Proof.
  induction a as [| x a IH]; simpl; [now destruct b |].
  destruct (ascii_dec x x) as [_ | Hne]; [exact IH | contradiction].
Qed.

Lemma is_under_self dir : is_under dir dir = true.
Proof. unfold is_under. now rewrite String.eqb_refl. Qed.

Lemma is_under_join dir name : is_under dir (path_join dir name) = true.
Proof.
  unfold is_under, path_join. rewrite <- string_app_assoc, prefix_app.
  apply orb_true_r.
Qed.

Lemma elem_of_rmtree dir (files : gset string) p :
  p ∈ rmtree dir files <-> is_under dir p = false /\ p ∈ files.
Proof. unfold rmtree. now rewrite elem_of_filter. Qed.

Lemma rmtree_removes_dir dir (files : gset string) : dir ∉ rmtree dir files.
Proof. rewrite elem_of_rmtree, is_under_self. intros [? _]. discriminate. Qed.

(** [if os.path.exists(dir): shutil.rmtree(dir)] *)
Lemma remove_if_exists_run dir st :
  (e <- path_exists dir ;; when e (remove_tree dir)) st =
  (Ret tt, if bool_decide (dir ∈ fs st) then with_fs (rmtree dir (fs st)) st else st).
Proof.
  unfold bind, path_exists, when, remove_tree, ret.
  destruct (bool_decide (dir ∈ fs st)); reflexivity.
Qed.

Lemma remove_if_exists_absent dir st :
  dir ∉ fs (snd ((e <- path_exists dir ;; when e (remove_tree dir)) st)).
Proof.
  rewrite remove_if_exists_run. simpl.
  destruct (bool_decide (dir ∈ fs st)) eqn:E; simpl.
  - apply rmtree_removes_dir.
  - now apply bool_decide_eq_false in E.
Qed.

Lemma remove_if_exists_subset dir st p :
  p ∈ fs (snd ((e <- path_exists dir ;; when e (remove_tree dir)) st)) -> p ∈ fs st.
Proof.
  rewrite remove_if_exists_run. simpl.
  destruct (bool_decide (dir ∈ fs st)); simpl; [| tauto].
  rewrite elem_of_rmtree. tauto.
Qed.

(** ** The preview pipeline without surviving clips *)

Section NoClips.
Import PreviewVideoGenerator.
Variable W : World.
Variable self : PreviewVideoGenerator.t.
Variable duration : Q.
Hypothesis probe_ok : probe_duration W (filename self) = Some duration.
Hypothesis clips_nonneg : 0 <= num_clips self.
Hypothesis all_fail :
  forall i, 0 <= i < num_clips self -> clip_failure W (filename self) i = Some CalledProcessError.

Lemma in_enumerate {A} (l : list A) i x :
  In (i, x) (enumerate l) -> 0 <= i < Z.of_nat (length l).
Proof.
  unfold enumerate. intros Hin. apply in_combine_l in Hin.
  apply in_map_iff in Hin as (k & <- & Hk). apply in_seq in Hk. lia.
Qed.

Lemma extract_clip_fails i start_time st :
  clip_failure W (filename self) i = Some CalledProcessError ->
  extract_clip W self i start_time st =
  (Ret None, with_event (Printed "Failed to generate clip")
               (with_event (ClipCommand i) st)).
Proof. intros Hfail. unfold extract_clip. now rewrite Hfail. Qed.

Lemma failing_clips_submitted (l : list (Z * Q)) st :
  (forall i t, In (i, t) l -> clip_failure W (filename self) i = Some CalledProcessError) ->
  exists st',
    submit_all (map (fun '(i, start_time) => extract_clip W self i start_time) l) st
      = (Ret (repeat (Ret None) (length l)), st') /\
    fs st' = fs st.
Proof.
  revert st. induction l as [| [i t] l IH]; intros st Hall; simpl.
  - exists st. split; reflexivity.
  - destruct (IH (with_event (Printed "Failed to generate clip")
                    (with_event (ClipCommand i) st))) as (st' & Hrun & Hfs).
    { intros j u Hin. apply (Hall j u). now right. }
    exists st'. split; [| exact Hfs].
    erewrite bind_ret_run; [| rewrite submit_run, extract_clip_fails;
                              [reflexivity | apply (Hall i t); now left]].
    simpl. erewrite bind_ret_run; [| exact Hrun]. reflexivity.
Qed.

Lemma no_clip_collected n st : collect_clips (repeat (Ret None) n) st = (Ret [], st).
Proof.
  induction n as [| n IH]; simpl; [reflexivity |].
  unfold bind at 1. simpl. unfold bind at 1. now rewrite IH.
Qed.

Lemma generate_clips_empty st :
  exists st',
    generate_clips W self st = (Ret [], st') /\
    fs st' = {[temp_dir self]} ∪ fs st.
Proof.
  unfold generate_clips.
  unfold bind at 1, create_path at 1.
  unfold bind at 1, get_video_duration. rewrite probe_ok. unfold ret at 1.
  unfold bind at 1, lift, get_start_times.
  destruct (Z.eqb_spec (num_clips self + 1) 0) as [E | _]; [lia |].
  unfold future_result, ret at 1.
  set (starts := map _ (py_range 1 (num_clips self + 1))).
  assert (Hlen : length starts = Z.to_nat (num_clips self)).
  { subst starts. rewrite length_map, length_py_range. f_equal. lia. }
  destruct (failing_clips_submitted (enumerate starts)
              (with_fs ({[temp_dir self]} ∪ fs st) st)) as (st' & Hrun & Hfs).
  { intros i t Hin. apply all_fail. apply in_enumerate in Hin. lia. }
  unfold bind at 1. rewrite Hrun. rewrite no_clip_collected.
  exists st'. split; [reflexivity | exact Hfs].
Qed.

Lemma generate_preview_without_clips st :
  exists st1 st',
    generate_preview W self st = (Ret tt, with_event (Printed "No clips generated") st') /\
    st1 = snd (clean_previous_clips self st) /\
    fs st' = {[temp_dir self]} ∪ fs st1.
Proof.
  unfold generate_preview, clean_previous_clips.
  unfold bind at 1. rewrite remove_if_exists_run.
  set (st1 := if bool_decide (temp_dir self ∈ fs st) then _ else st).
  destruct (generate_clips_empty st1) as (st' & Hrun & Hfs).
  unfold bind at 1. rewrite Hrun.
  exists st1, st'. split; [reflexivity |]. split; [reflexivity | exact Hfs].
Qed.

End NoClips.




(** The cleaning at the end of [generate_preview] when a clip survives *)
Lemma generate_preview_cleans_with_clips (W : World)
    (self : PreviewVideoGenerator.t) (st st2 : State) (clip : string)
    (clips : list string) :
  PreviewVideoGenerator.generate_clips W self
    (snd (PreviewVideoGenerator.clean_previous_clips self st))
    = (Ret (clip :: clips), st2) ->
  PreviewVideoGenerator.temp_dir self
    ∉ fs (snd (PreviewVideoGenerator.generate_preview W self st)).
Proof.
  intros Hclips. unfold PreviewVideoGenerator.generate_preview.
  erewrite bind_ret_run.
  2:{ unfold PreviewVideoGenerator.clean_previous_clips.
      rewrite remove_if_exists_run. reflexivity. }
  erewrite bind_ret_run.
  2:{ unfold PreviewVideoGenerator.clean_previous_clips in Hclips.
      rewrite remove_if_exists_run in Hclips. exact Hclips. }
  cbv beta iota. rewrite try_finally_state. apply remove_if_exists_absent.
Qed.

(** C5 (the code against the claim). When every clip extraction of a run
    fails, [generate_preview] returns through its early exit and the
    scratch directory is still there. *)
Theorem generate_preview_leaves_scratch (W : World)
    (self : PreviewVideoGenerator.t) (duration : Q) (st : State) :
  probe_duration W (PreviewVideoGenerator.filename self) = Some duration ->
  0 <= PreviewVideoGenerator.num_clips self ->
  (forall i, 0 <= i < PreviewVideoGenerator.num_clips self ->
             clip_failure W (PreviewVideoGenerator.filename self) i
             = Some CalledProcessError) ->
  PreviewVideoGenerator.temp_dir self
    ∈ fs (snd (PreviewVideoGenerator.generate_preview W self st)).
Proof.
  intros Hprobe Hn Hfail.
  destruct (generate_preview_without_clips W self duration Hprobe Hn Hfail st)
    as (st1 & st2 & Hrun & _ & Hfs).
  rewrite Hrun. simpl. rewrite Hfs. apply elem_of_union_l. now apply elem_of_singleton.
Qed.

Lemma generate_preview_leaves_scratch_witness :
  probe_duration clipless_world (PreviewVideoGenerator.filename config_preview)
    = Some 100%Q /\
  0 <= PreviewVideoGenerator.num_clips config_preview /\
  PreviewVideoGenerator.temp_dir config_preview
    ∈ fs (snd (PreviewVideoGenerator.generate_preview clipless_world
                 config_preview empty_state)).
Proof.
  split; [reflexivity |]. split; [vm_compute; discriminate |].
  apply (generate_preview_leaves_scratch clipless_world config_preview 100 empty_state).
  - reflexivity.
  - vm_compute. discriminate.
  - intros i _. reflexivity.
Defined.

(** ** The sprite pipeline *)

#[local] Instance keeps_files_preorder : PreOrder keeps_files.
Proof.
  split.
  - intros st p Hp. exact Hp.
  - intros a b c Hab Hbc p Hp. apply Hbc, Hab, Hp.
Qed.

#[local] Instance adds_only_preorder allowed : PreOrder (adds_only allowed).
Proof.
  split.
  - intros st p Hp. now left.
  - intros a b c Hab Hbc p Hp.
    destruct (Hbc p Hp) as [Hb | Hallowed]; [apply Hab, Hb | now right].
Qed.

Lemma keeps_emit e : preserves keeps_files (emit e).
Proof. intros st p Hp. exact Hp. Qed.

Lemma keeps_create_path path : preserves keeps_files (create_path path).
Proof. intros st p Hp. simpl. now apply elem_of_union_r. Qed.

Lemma adds_emit allowed e : preserves (adds_only allowed) (emit e).
Proof. intros st p Hp. now left. Qed.

Lemma adds_create_path (allowed : string -> Prop) path :
  allowed path -> preserves (adds_only allowed) (create_path path).
Proof.
  intros Hallowed st p. simpl. rewrite elem_of_union, elem_of_singleton.
  intros [-> | Hp]; [now right | now left].
Qed.

Section FrameLoop.
Import VideoSpriteGenerator.
Variable W : World.
Variable self : VideoSpriteGenerator.t.
Variable interval : Q.

Let in_scratch : string -> Prop := fun p => is_under (temp_dir self) p = true.

(** what the future of frame [i] holds *)
Let shot (i : Z) : Outcome (Z * Q) :=
  match frame_failure W (video_path self) i with
  | Some e => Raise e
  | None => Ret (i, (inject_Z i * interval)%Q)
  end.

Lemma extract_keeps i : preserves keeps_files (extract_and_resize W self i interval).
Proof.
  unfold extract_and_resize.
  repeat first [apply keeps_emit | apply keeps_create_path | preserves_step].
Qed.

Lemma extract_adds i :
  preserves (adds_only in_scratch) (extract_and_resize W self i interval).
Proof.
  unfold extract_and_resize.
  repeat first [apply adds_emit | preserves_step].
  apply adds_create_path. apply is_under_join.
Qed.

Lemma write_cue_keeps future : preserves keeps_files (write_cue self interval future).
Proof.
  unfold write_cue. repeat first [apply keeps_emit | preserves_step].
Qed.

Lemma write_cue_adds future :
  preserves (adds_only in_scratch) (write_cue self interval future).
Proof.
  unfold write_cue. repeat first [apply adds_emit | preserves_step].
Qed.

Lemma extract_outcome i st :
  fst (extract_and_resize W self i interval st) = shot i.
Proof.
  unfold extract_and_resize, shot, bind, emit.
  destruct (frame_failure W (video_path self) i); reflexivity.
Qed.

Lemma frames_submitted (l : list Z) st :
  fst (submit_all (map (fun i => extract_and_resize W self i interval) l) st)
  = Ret (map shot l).
Proof.
  revert st. induction l as [| i l IH]; intros st; simpl; [reflexivity |].
  unfold bind at 1. rewrite submit_run.
  specialize (IH (snd (extract_and_resize W self i interval st))).
  unfold bind at 1.
  destruct (submit_all _ _) as [outs st2]. simpl in IH. subst outs.
  simpl. now rewrite extract_outcome.
Qed.

Lemma cue_loop_raises (l : list Z) st :
  columns self <> 0 ->
  (exists i, In i l /\ frame_failure W (video_path self) i <> None) ->
  exists i e,
    In i l /\ frame_failure W (video_path self) i = Some e /\
    fst (for_each (map shot l) (write_cue self interval) st) = Raise e.
Proof.
  intros Hcol. revert st. induction l as [| i l IH]; intros st (j & Hin & Hfail).
  - destruct Hin.
  - simpl. destruct (frame_failure W (video_path self) i) as [e |] eqn:Hi.
    + exists i, e. split; [now left |]. split; [exact Hi |].
      erewrite bind_raise_run; [reflexivity |].
      unfold shot. rewrite Hi. reflexivity.
    + assert (Hrest : exists k, In k l /\ frame_failure W (video_path self) k <> None).
      { exists j. split; [| exact Hfail].
        destruct Hin as [-> | Hin]; [congruence | exact Hin]. }
      erewrite bind_ret_run.
      2:{ unfold shot. rewrite Hi. unfold write_cue. simpl future_result.
          erewrite bind_ret_run; [| reflexivity]. cbv beta iota.
          unfold lift. rewrite gridPlacement_value by exact Hcol.
          erewrite bind_ret_run; reflexivity. }
      match goal with
      | |- context [for_each (map shot l) _ ?s] =>
          destruct (IH s Hrest) as (k & e & Hk & He & Hrun)
      end.
      exists k, e. split; [now right |]. split; [exact He | exact Hrun].
Qed.

End FrameLoop.

Lemma in_py_range a b i : In i (py_range a b) <-> a <= i < b.
Proof.
  unfold py_range. rewrite in_map_iff. split.
  - intros (k & <- & Hk). apply in_seq in Hk. lia.
  - intros Hi. exists (Z.to_nat (i - a)). split; [lia |]. apply in_seq. lia.
Qed.

Lemma generate_sprite_scratch_absent W self st :
  VideoSpriteGenerator.temp_dir self
    ∉ fs (snd (VideoSpriteGenerator.generate_sprite W self st)).
Proof.
  unfold VideoSpriteGenerator.generate_sprite. rewrite try_finally_state.
  unfold VideoSpriteGenerator.clean_up. apply remove_if_exists_absent.
Qed.

Lemma clean_previous_files_run self st :
  exists st1,
    VideoSpriteGenerator.clean_previous_files self st = (Ret tt, st1) /\
    forall p, p ∈ fs st1 -> p ∈ fs st.
Proof.
  unfold VideoSpriteGenerator.clean_previous_files.
  unfold bind, path_exists, when, remove_tree, remove_path, ret.
  destruct (bool_decide (VideoSpriteGenerator.temp_dir self ∈ fs st)); simpl.
  - destruct (bool_decide (_ ∈ rmtree _ _)); simpl; eexists; (split; [reflexivity |]);
      intros p; simpl; rewrite ?elem_of_difference, elem_of_rmtree; tauto.
  - destruct (bool_decide (_ ∈ fs st)); simpl; eexists; (split; [reflexivity |]);
      intros p; simpl; rewrite ?elem_of_difference; tauto.
Qed.

Section FrameFailure.
Import VideoSpriteGenerator.
Variable W : World.
Variable self : VideoSpriteGenerator.t.
Variable duration : Q.
Hypothesis probe_ok : probe_duration W (video_path self) = Some duration.
Hypothesis duration_nonzero : ~ (duration == 0)%Q.
Hypothesis columns_nonzero : columns self <> 0.
Hypothesis some_frame_fails :
  exists i, 0 <= i < total_shots self /\ frame_failure W (video_path self) i <> None.

Lemma take_screenshots_fails st :
  exists i e st',
    0 <= i < total_shots self /\
    frame_failure W (video_path self) i = Some e /\
    take_screenshots W self st = (Raise e, st') /\
    temp_dir self ∈ fs st' /\
    adds_only (fun p => p = temp_dir self \/ p = vtt_path self \/
                        is_under (temp_dir self) p = true) st st'.
Proof.
  set (interval := (duration / inject_Z (total_shots self))%Q).
  set (frames := py_range 0 (total_shots self)).
  destruct (clean_previous_files_run self st) as (st1 & Hclean & Hsub1).
  set (st2 := with_fs ({[temp_dir self]} ∪ fs st1) st1).
  set (st3 := with_fs ({[vtt_path self]} ∪ fs st2) st2).
  set (tasks := map (fun i => extract_and_resize W self i interval) frames).
  pose proof (frames_submitted W self interval frames st3) as Houts.
  pose proof (preserves_submit_all keeps_files
                (fun i => extract_and_resize W self i interval) frames
                (extract_keeps W self interval) st3) as Hkeep4.
  pose proof (preserves_submit_all _
                (fun i => extract_and_resize W self i interval) frames
                (extract_adds W self interval) st3) as Hadd4.
  fold tasks in Houts, Hkeep4, Hadd4.
  destruct (submit_all tasks st3) as [outs st4] eqn:Hsubmit.
  simpl in Houts, Hkeep4, Hadd4. subst outs.
  destruct (cue_loop_raises W self interval frames st4 columns_nonzero)
    as (i & e & Hin & Hfail & Hraise).
  { destruct some_frame_fails as (i & Hi & Hf). exists i. split; [| exact Hf].
    now apply in_py_range. }
  match type of Hraise with
  | fst (for_each ?l _ _) = _ =>
      pose proof (preserves_for_each keeps_files l (write_cue self interval)
                    (write_cue_keeps self interval) st4) as Hkeep5;
      pose proof (preserves_for_each _ l (write_cue self interval)
                    (write_cue_adds self interval) st4) as Hadd5
  end.
  destruct (for_each _ (write_cue self interval) st4) as [r st5] eqn:Hloop.
  simpl in Hraise, Hkeep5, Hadd5. subst r.
  exists i, e, st5. split; [now apply in_py_range in Hin |]. split; [exact Hfail |].
  split; [| split].
  - unfold take_screenshots.
    erewrite bind_ret_run; [| exact Hclean].
    erewrite bind_ret_run; [| reflexivity].
    erewrite bind_ret_run; [| reflexivity].
    cbv beta iota. rewrite probe_ok.
    destruct (Qeq_bool duration 0) eqn:Hz; [now apply Qeq_bool_iff in Hz |].
    destruct (Z.eqb_spec (total_shots self) 0) as [E | _].
    { destruct some_frame_fails as (j & Hj & _). lia. }
    erewrite bind_ret_run; [| reflexivity].
    erewrite bind_ret_run; [| reflexivity].
    erewrite bind_ret_run; [| exact Hsubmit].
    erewrite bind_raise_run; [reflexivity | exact Hloop].
  - apply Hkeep5, Hkeep4. subst st3 st2. simpl.
    apply elem_of_union_r, elem_of_union_l. now apply elem_of_singleton.
  - intros p Hp.
    destruct (Hadd5 p Hp) as [Hp4 | Hscratch]; [| tauto].
    destruct (Hadd4 p Hp4) as [Hp3 | Hscratch]; [| tauto].
    subst st3 st2. simpl in Hp3. rewrite !elem_of_union, !elem_of_singleton in Hp3.
    destruct Hp3 as [-> | [-> | Hp1]]; [tauto | tauto |]. left. now apply Hsub1.
Qed.

End FrameFailure.



(** ** Concrete runs of the model *)

(** [config.py]'s fifteen clips of a 100 s file start every 5.25 s from
    20.25 s on. *)
Example start_times_of_the_configuration :
  match PreviewVideoGenerator.get_start_times config_preview 100 with
  | Ret starts => map Qred starts
  | Raise _ => []
  end =
  [81 # 4; 51 # 2; 123 # 4; 36 # 1; 165 # 4; 93 # 2; 207 # 4; 57 # 1;
   249 # 4; 135 # 2; 291 # 4; 78 # 1; 333 # 4; 177 # 2; 375 # 4]%Q.
Proof. vm_compute. reflexivity. Qed.

Example placement_of_the_last_tile :
  gridPlacement 80 9 160 90 = Ret (1280, 720, 160, 90).
Proof. reflexivity. Qed.

Example placement_without_columns :
  gridPlacement 3 0 160 90 = Raise ZeroDivisionError.
Proof. reflexivity. Qed.

(** A scene that goes through every step *)
Example calm_run :
  fst (process_scene calm_world scene7 false on_disk)
    = Ret {| success := true; result_scene_id := 7 |} /\
  scene_tags (snd (process_scene calm_world scene7 false on_disk)) 7 = ∅.
Proof. split; vm_compute; reflexivity. Qed.

(** One frame fails: the scene is tagged, released, and has no sprite. *)
Example frame_drop_run :
  fst (process_scene frame_drop_world scene7 false on_disk)
    = Ret {| success := false; result_scene_id := 7 |} /\
  elements (scene_tags (snd (process_scene frame_drop_world scene7 false on_disk)) 7)
    = [hashing_error_tag] /\
  elements (fs (snd (process_scene frame_drop_world scene7 false on_disk)))
    = ["/mnt/stash/stash/generated/screenshots/0f1e2d3c.mp4";
       "/mnt/stash/stash/generated/vtt/0f1e2d3c_thumbs.vtt";
       "/mnt/xerxes/a.mp4"; "error_log.txt"].
Proof. repeat split; vm_compute; reflexivity. Qed.

(** Every clip fails: the scene counts as processed, there is no preview,
    and the preview's scratch directory stays. *)
Example clipless_run :
  fst (process_scene clipless_world scene7 false on_disk)
    = Ret {| success := true; result_scene_id := 7 |} /\
  elements (fs (snd (process_scene clipless_world scene7 false on_disk)))
    = ["/opt/node/.tmp/preview_temp_0f1e2d3c";
       "/mnt/stash/stash/generated/vtt/0f1e2d3c_sprite.jpg";
       "/mnt/stash/stash/generated/vtt/0f1e2d3c_thumbs.vtt";
       "/mnt/xerxes/a.mp4"].
Proof. split; vm_compute; reflexivity. Qed.

(** Sixty scenes in pages of twenty-five: three runs, one per page *)
Example busy_discovery :
  map (fun run => page_queries (trace (snd run)))
      (discover_scenes busy_world empty_state)
  = [[(25, 1, full_fragment)]; [(25, 2, full_fragment)]; [(25, 3, full_fragment)]].
Proof. vm_compute. reflexivity. Qed.

(** * Part III. More of the code *)

(** ** Edge cases of the clip start times *)

(** X1. [get_start_times] raises ZeroDivisionError exactly when the
    number of clips is -1; for every other number and every duration it
    returns as many start times as clips are asked for, none at all for a
    number of zero or less. *)
Theorem get_start_times_count (self : PreviewVideoGenerator.t) (duration : Q) :
  (PreviewVideoGenerator.get_start_times self duration = Raise ZeroDivisionError <->
   PreviewVideoGenerator.num_clips self = -1) /\
  (PreviewVideoGenerator.num_clips self = -1 \/
   exists starts,
     PreviewVideoGenerator.get_start_times self duration = Ret starts /\
     length starts = Z.to_nat (PreviewVideoGenerator.num_clips self) /\
     (PreviewVideoGenerator.num_clips self <= 0 <-> starts = [])).
Proof.
  unfold PreviewVideoGenerator.get_start_times.
  destruct (Z.eqb_spec (PreviewVideoGenerator.num_clips self + 1) 0) as [E | E].
  - split; [split; [lia | reflexivity] | left; lia].
  - split; [split; [discriminate | lia] |]. right.
    eexists. split; [reflexivity |].
    rewrite length_map, length_py_range.
    replace (PreviewVideoGenerator.num_clips self + 1 - 1)
      with (PreviewVideoGenerator.num_clips self) by lia.
    split; [reflexivity |]. split.
    + intros Hn. apply length_zero_iff_nil.
      rewrite length_map, length_py_range. lia.
    + intros Hnil. apply (f_equal (@length Q)) in Hnil.
      rewrite length_map, length_py_range in Hnil. simpl in Hnil. lia.
Qed.

Lemma negative_interval (span slots : Q) :
  (span < 0)%Q -> (0 < slots)%Q -> (span / slots < 0)%Q.
Proof.
  intros Hs Hn. unfold Qdiv.
  assert (H : (0 < (- span) * / slots)%Q).
  { apply Qmult_lt_0_compat; [lra | now apply Qinv_lt_0_compat]. }
  assert (E : ((- span) * / slots == - (span * / slots))%Q) by ring.
  rewrite E in H. lra.
Qed.



(** ** Tiles on the sprite sheet *)

Lemma tile_inside_sheet (index columns rows w h : Z) :
  0 <= index -> 0 < columns -> 0 < w -> 0 < h ->
  0 <= index mod columns * w /\ index mod columns * w + w <= w * columns /\
  0 <= index / columns * h /\
  (index / columns * h + h <= h * rows <-> index < columns * rows).
Proof.
  intros Hi Hc Hw Hh.
  pose proof (Z.mod_pos_bound index columns Hc) as Hmod.
  assert (Hdiv : 0 <= index / columns) by (apply Z.div_pos; lia).
  split; [nia |]. split; [nia |]. split; [nia |]. split.
  - intros Hy. assert (index / columns < rows) by nia.
    apply Z.nle_gt. intros Hge.
    assert (rows <= index / columns) by (apply Z.div_le_lower_bound; lia). lia.
  - intros Hlt. assert (index / columns < rows) by (apply Z.div_lt_upper_bound; lia).
    nia.
Qed.

(** X3. On a grid with at least one column and tiles of positive size, the
    tile of an index that is not negative lies within the width of the
    sheet ([max_width * columns], as [create_sprite] makes it), and within
    its height ([max_height * rows]) exactly when the index is below
    [columns * rows]: a tile beyond the grid is pasted below the sheet. *)
Theorem gridPlacement_inside_sheet (index columns rows w h : Z) :
  0 <= index -> 0 < columns -> 0 < w -> 0 < h ->
  exists x y,
    gridPlacement index columns w h = Ret (x, y, w, h) /\
    0 <= x /\ x + w <= w * columns /\ 0 <= y /\
    (y + h <= h * rows <-> index < columns * rows).
Proof.
  intros Hi Hc Hw Hh. rewrite gridPlacement_value by lia.
  do 2 eexists. split; [reflexivity |].
  now apply tile_inside_sheet.
Qed.

Lemma gridPlacement_inside_sheet_witness :
  exists x y,
    gridPlacement 80 9 160 90 = Ret (x, y, 160, 90) /\
    x + 160 <= 160 * 9 /\ y + 90 <= 90 * 9.
Proof.
  destruct (gridPlacement_inside_sheet 80 9 9 160 90) as (x & y & Hv & _ & Hx & _ & Hy);
    [lia | lia | lia | lia |].
  exists x, y. split; [exact Hv |]. split; [exact Hx |]. apply Hy. lia.
Defined.

(** X4. On a grid with at least one column and tiles of positive size no
    point belongs to the tiles of two indices: tiles that share a point
    have the same index. *)
Theorem gridPlacement_tiles_disjoint (i j columns w h : Z)
    (xi yi xj yj px py : Z) :
  0 < columns -> 0 < w -> 0 < h ->
  gridPlacement i columns w h = Ret (xi, yi, w, h) ->
  gridPlacement j columns w h = Ret (xj, yj, w, h) ->
  xi <= px < xi + w -> yi <= py < yi + h ->
  xj <= px < xj + w -> yj <= py < yj + h ->
  i = j.
Proof.
  intros Hc Hw Hh. rewrite !gridPlacement_value by lia.
  intros [= <- <-] [= <- <-] Hxi Hyi Hxj Hyj.
  assert (Hcol : i mod columns = j mod columns) by nia.
  assert (Hrow : i / columns = j / columns) by nia.
  rewrite (Z_div_mod_eq_full i columns), (Z_div_mod_eq_full j columns).
  now rewrite Hcol, Hrow.
Qed.

Lemma gridPlacement_tiles_disjoint_witness :
  gridPlacement 10 9 160 90 = Ret (160, 90, 160, 90) /\
  forall j xj yj,
    gridPlacement j 9 160 90 = Ret (xj, yj, 160, 90) ->
    xj <= 200 < xj + 160 -> yj <= 100 < yj + 90 -> 10 = j.
Proof.
  split; [reflexivity |]. intros j xj yj Hj Hx Hy.
  apply (gridPlacement_tiles_disjoint 10 j 9 160 90 160 90 xj yj 200 100);
    [lia | lia | lia | reflexivity | exact Hj | lia | lia | exact Hx | exact Hy].
Defined.

(** ** Names of scratch directories and artifacts *)

Lemma prefix_nil (s : string) : String.prefix "" s = true.
Proof. now destruct s. Qed.

Lemma contains_char_cons (c x : ascii) (r : string) :
  contains (String c "") (String x r) =
  ((if ascii_dec c x then true else false) || contains (String c "") r)%bool.
Proof.
  simpl. destruct (ascii_dec c x); [now rewrite prefix_nil | reflexivity].
Qed.

Lemma contains_char_app (c : ascii) (a b : string) :
  contains (String c "") a = false -> contains (String c "") b = false ->
  contains (String c "") (a ++ b) = false.
Proof.
  intros Ha Hb. induction a as [| x a IH]; [exact Hb |].
  change (String x a ++ b) with (String x (a ++ b)).
  rewrite contains_char_cons in *. apply orb_false_iff in Ha as [Hx Ha].
  rewrite Hx. now apply IH.
Qed.

Lemma basename_plain (s : string) : contains "/" s = false -> basename s = s.
Proof.
  intros Hs. destruct s as [| c r]; [reflexivity |].
  cbn [basename]. now rewrite Hs.
Qed.

Lemma basename_join (dir name : string) :
  contains "/" name = false -> basename (path_join dir name) = name.
Proof.
  intros Hname. unfold path_join. induction dir as [| c dir IH].
  - change ("" ++ "/" ++ name) with (String "/" name).
    cbn [basename]. rewrite (contains_char_cons "/" "/" name).
    destruct (ascii_dec "/" "/") as [_ | Hne]; [| contradiction].
    simpl orb. cbv iota. now apply basename_plain.
  - change (String c dir ++ "/" ++ name) with (String c (dir ++ "/" ++ name)).
    cbn [basename].
    assert (Hin : contains "/" (String c (dir ++ "/" ++ name)) = true).
    { rewrite (contains_char_cons "/" c). apply orb_true_iff. right.
      clear IH. induction dir as [| d dir IHd].
      - change ("" ++ "/" ++ name) with (String "/" name).
        rewrite (contains_char_cons "/" "/" name).
        now destruct (ascii_dec "/" "/").
      - change (String d dir ++ "/" ++ name) with (String d (dir ++ "/" ++ name)).
        rewrite (contains_char_cons "/" d). rewrite IHd. apply orb_true_r. }
    rewrite Hin. exact IH.
Qed.

Lemma scratch_hash_cases W file :
  scratch_hash W file = random_token W \/ safe_name (scratch_hash W file).
Proof.
  unfold scratch_hash.
  set (filehash := fold_left _ (fingerprints file) "").
  destruct (String.eqb filehash "" || contains ":" filehash ||
            contains "\" filehash || contains "/" filehash)%bool eqn:E;
    [now left | right].
  apply orb_false_iff in E as [E Hslash].
  apply orb_false_iff in E as [E Hback].
  apply orb_false_iff in E as [Hempty Hcolon].
  split; [now apply String.eqb_neq | now repeat split].
Qed.

(** X5. The name under which [process_scene] files the scratch directories
    and the artifacts of a scene is never empty and holds no [:], [\] or
    [/], the random token being twelve letters or digits; so the sprite,
    the caption file and the preview lie directly in the configured
    directories, and the scratch directories directly in [.tmp]. *)
Theorem scratch_hash_safe (W : World) (file : SceneFile) :
  safe_name (random_token W) ->
  let filehash := scratch_hash W file in
  safe_name filehash /\
  basename (path_join (sprite_path W) (filehash ++ "_sprite.jpg"))
    = filehash ++ "_sprite.jpg" /\
  basename (path_join (sprite_path W) (filehash ++ "_thumbs.vtt"))
    = filehash ++ "_thumbs.vtt" /\
  basename (path_join (preview_path W) (filehash ++ ".mp4")) = filehash ++ ".mp4" /\
  basename (path_join ".tmp" ("preview_temp_" ++ filehash)) = "preview_temp_" ++ filehash /\
  basename (path_join ".tmp" ("screenshots_" ++ filehash)) = "screenshots_" ++ filehash /\
  basename (path_join ".tmp" ("cover_temp_" ++ filehash)) = "cover_temp_" ++ filehash.
Proof.
  intros Htoken filehash.
  assert (Hsafe : safe_name filehash).
  { subst filehash. destruct (scratch_hash_cases W file) as [-> | H]; assumption. }
  destruct Hsafe as (Hne & Hcolon & Hback & Hslash).
  split; [now repeat split |].
  repeat split; apply basename_join;
    first [ apply (contains_char_app "/"); [exact Hslash | reflexivity]
          | apply (contains_char_app "/"); [reflexivity | exact Hslash] ].
Qed.

Lemma scratch_hash_safe_witness :
  safe_name (random_token calm_world) /\
  safe_name (scratch_hash calm_world
               {| file_id := 70; file_path := "/xerxes/a.mp4";
                  fingerprints := [("oshash", "../../etc")] |}) /\
  scratch_hash calm_world
    {| file_id := 70; file_path := "/xerxes/a.mp4";
       fingerprints := [("oshash", "../../etc")] |} = "k3j9x0q2m1zz".
Proof.
  assert (Htoken : safe_name (random_token calm_world)).
  { split; [discriminate | repeat split; vm_compute; reflexivity]. }
  split; [exact Htoken |]. split; [| reflexivity].
  apply (scratch_hash_safe calm_world _ Htoken).
Defined.

(** ** Clearing the error tags *)

Lemma scene_tags_elsewhere scene other tagset t st :
  other <> scene ->
  scene_tags (with_tags (<[scene := tagset]> t) st) other = default ∅ (t !! other).
Proof. intros Hne. unfold scene_tags. simpl. now rewrite lookup_insert_ne. Qed.

Lemma update_scenes_accepted W scene tag mode st :
  request_ok W (requests st) = true ->
  update_scenes W scene tag mode st =
  (Ret tt,
   with_tags (<[scene := apply_tag mode tag (scene_tags st scene)]> (tags st))
             (with_request st)).
Proof. intros Hok. rewrite update_scenes_run. now rewrite Hok. Qed.

Lemma without_error_tags (s : gset Z) :
  (s ∖ {[hashing_error_tag]}) ∖ {[cover_error_tag]} = s ∖ error_tags.
Proof.
  apply set_eq. intros t. unfold error_tags.
  rewrite !elem_of_difference, elem_of_union, !elem_of_singleton. tauto.
Qed.

Lemma without_error_tags_twice (s : gset Z) : (s ∖ error_tags) ∖ error_tags = s ∖ error_tags.
Proof. apply set_eq. intros t. rewrite !elem_of_difference. tauto. Qed.

Lemma clear_loop W (l : list Z) :
  forall st,
    accepts_from W (requests st) ->
    exists st',
      for_each l
        (fun scene_id =>
           update_scenes W scene_id hashing_error_tag REMOVE ;;
           update_scenes W scene_id cover_error_tag REMOVE) st = (Ret tt, st') /\
      fs st' = fs st /\ trace st' = trace st /\
      requests st' = (requests st + 2 * length l)%nat /\
      forall s, scene_tags st' s =
                if bool_decide (s ∈ l) then scene_tags st s ∖ error_tags
                else scene_tags st s.
Proof.
  induction l as [| x l IH]; intros st Hacc.
  - exists st. split; [reflexivity |]. split; [reflexivity |].
    split; [reflexivity |]. split; [simpl; lia |]. intros s.
    rewrite bool_decide_eq_false_2; [reflexivity | apply not_elem_of_nil].
  - simpl for_each.
    set (st1 := with_tags (<[x := apply_tag REMOVE hashing_error_tag (scene_tags st x)]>
                             (tags st)) (with_request st)).
    set (st2 := with_tags (<[x := apply_tag REMOVE cover_error_tag (scene_tags st1 x)]>
                             (tags st1)) (with_request st1)).
    assert (Hbody : (update_scenes W x hashing_error_tag REMOVE ;;
                     update_scenes W x cover_error_tag REMOVE) st = (Ret tt, st2)).
    { erewrite bind_ret_run; [| apply update_scenes_accepted, Hacc; lia].
      apply update_scenes_accepted. apply Hacc. simpl. lia. }
    destruct (IH st2) as (st' & Hrun & Hfs & Htrace & Hreq & Htags).
    { intros k Hk. apply Hacc. simpl in Hk. lia. }
    exists st'. split; [| split; [| split; [| split]]].
    + erewrite bind_ret_run; [exact Hrun | exact Hbody].
    + rewrite Hfs. reflexivity.
    + rewrite Htrace. reflexivity.
    + rewrite Hreq. simpl. lia.
    + intros s. rewrite Htags.
      assert (Hx : scene_tags st2 x = scene_tags st x ∖ error_tags).
      { subst st2. rewrite scene_tags_updated. subst st1.
        rewrite scene_tags_updated. simpl. apply without_error_tags. }
      assert (Hother : s <> x -> scene_tags st2 s = scene_tags st s).
      { intros Hne. subst st2. rewrite scene_tags_elsewhere by exact Hne.
        subst st1. simpl. rewrite lookup_insert_ne by congruence. reflexivity. }
      destruct (decide (s = x)) as [-> | Hne].
      * rewrite Hx, (bool_decide_eq_true_2 (x ∈ x :: l)) by apply list_elem_of_here.
        destruct (bool_decide (x ∈ l)); [apply without_error_tags_twice | reflexivity].
      * rewrite Hother by exact Hne.
        destruct (bool_decide (s ∈ l)) eqn:Hin.
        -- apply bool_decide_eq_true in Hin.
           rewrite bool_decide_eq_true_2 by now apply list_elem_of_further.
           reflexivity.
        -- apply bool_decide_eq_false in Hin.
           rewrite bool_decide_eq_false_2; [reflexivity |].
           rewrite elem_of_cons. tauto.
Qed.

Lemma clear_error_tags_clears_run W (scene_ids : list Z) st :
  dry_run W = false ->
  accepts_from W (requests st) ->
  exists st',
    clear_error_tags W scene_ids st = (Ret tt, st') /\
    forall s, scene_tags st' s =
              if bool_decide (s ∈ scene_ids) then scene_tags st s ∖ error_tags
              else scene_tags st s.
Proof.
  intros Hdry Hacc. unfold clear_error_tags. rewrite Hdry.
  destruct (clear_loop W scene_ids st Hacc) as (st' & Hrun & _ & _ & _ & Htags).
  exists st'. split; [exact Hrun | exact Htags].
Qed.

(** X6. Outside dry-run mode, with a catalog that accepts the requests,
    [clear_error_tags] returns after two requests per listed scene; every
    listed scene has lost the two error tags and kept its other tags, and
    the tags of the scenes that are not listed are as before. *)
Theorem clear_error_tags_clears (W : World) (scene_ids : list Z) (st : State) :
  dry_run W = false ->
  accepts_from W (requests st) ->
  exists st',
    clear_error_tags W scene_ids st = (Ret tt, st') /\
    requests st' = (requests st + 2 * length scene_ids)%nat /\
    (forall s, s ∈ scene_ids ->
       (hashing_error_tag ∉ scene_tags st' s) /\ (cover_error_tag ∉ scene_tags st' s) /\
       forall t, t <> hashing_error_tag -> t <> cover_error_tag ->
                 (t ∈ scene_tags st' s <-> t ∈ scene_tags st s)) /\
    (forall s, s ∉ scene_ids -> scene_tags st' s = scene_tags st s).
Proof.
  intros Hdry Hacc. unfold clear_error_tags. rewrite Hdry.
  destruct (clear_loop W scene_ids st Hacc) as (st' & Hrun & _ & _ & Hreq & Htags).
  exists st'. split; [exact Hrun |]. split; [exact Hreq |]. split.
  - intros s Hin. rewrite Htags, bool_decide_eq_true_2 by exact Hin.
    unfold error_tags.
    repeat split; rewrite ?elem_of_difference, ?elem_of_union, ?elem_of_singleton;
      try tauto.
  - intros s Hout. now rewrite Htags, bool_decide_eq_false_2 by exact Hout.
Qed.

Lemma accepts_calm n : accepts_from calm_world n.
Proof. intros k _. reflexivity. Qed.

Lemma clear_error_tags_clears_witness :
  dry_run calm_world = false /\
  accepts_from calm_world (requests tagged_state) /\
  exists st',
    clear_error_tags calm_world [7; 8] tagged_state = (Ret tt, st') /\
    (hashing_error_tag ∉ scene_tags st' 7) /\ 42 ∈ scene_tags st' 7 /\
    scene_tags st' 9 = {[42]}.
Proof.
  split; [reflexivity |]. split; [apply accepts_calm |].
  destruct (clear_error_tags_clears calm_world [7; 8] tagged_state eq_refl
              (accepts_calm _)) as (st' & Hrun & _ & Hin & Hout).
  exists st'. split; [exact Hrun |].
  destruct (Hin 7) as (Hgone & _ & Hkept); [apply list_elem_of_here |].
  split; [exact Hgone |]. split.
  - apply Hkept; [discriminate | discriminate | vm_compute; reflexivity].
  - rewrite Hout; [reflexivity |].
    rewrite !not_elem_of_cons. repeat split; [discriminate | discriminate |].
    apply not_elem_of_nil.
Defined.

(** ** The command that clears the error tags *)

Lemma has_error_tag_spec (s : gset Z) :
  has_error_tag s = true <-> hashing_error_tag ∈ s \/ cover_error_tag ∈ s.
Proof.
  unfold has_error_tag. rewrite orb_true_iff, !bool_decide_eq_true. tauto.
Qed.

Lemma elem_of_error_scene_ids (st : State) (s : Z) :
  s ∈ error_scene_ids st <-> has_error_tag (scene_tags st s) = true.
Proof.
  unfold error_scene_ids, scene_tags.
  rewrite list_elem_of_In, in_map_iff. split.
  - intros ([k v] & <- & Hin). apply filter_In in Hin as [Hin Herr].
    apply list_elem_of_In, elem_of_map_to_list in Hin. simpl in *.
    now rewrite Hin.
  - intros Herr. destruct (tags st !! s) as [v |] eqn:Hlook; simpl in Herr.
    + exists (s, v). split; [reflexivity |]. apply filter_In. split; [| exact Herr].
      now apply list_elem_of_In, elem_of_map_to_list.
    + discriminate.
Qed.

Lemma no_error_tag_left (s : gset Z) : has_error_tag (s ∖ error_tags) = false.
Proof.
  apply not_true_is_false. rewrite has_error_tag_spec. unfold error_tags.
  rewrite !elem_of_difference, !elem_of_union, !elem_of_singleton. tauto.
Qed.

Lemma nothing_to_clear (s : gset Z) : has_error_tag s = false -> s ∖ error_tags = s.
Proof.
  intros Hno. apply not_true_iff_false in Hno. rewrite has_error_tag_spec in Hno.
  apply set_eq. intros t. unfold error_tags.
  rewrite elem_of_difference, elem_of_union, !elem_of_singleton.
  split; [tauto |]. intros Ht. split; [exact Ht |].
  intros [-> | ->]; tauto.
Qed.

Lemma get_error_scenes_run W st :
  request_ok W (requests st) = true ->
  get_error_scenes W st = (Ret (error_scene_ids st), with_request st).
Proof.
  intros Hok. unfold get_error_scenes, bind, catalog_request. now rewrite Hok.
Qed.

(** X7. Outside dry-run mode, with a catalog that accepts the requests, the
    command [--clear-error-tags] ends normally, and afterwards the query of
    [get_error_scenes] finds nothing: every scene has its former tags
    without the two error tags. *)
Theorem clear_error_tags_command_clears (W : World) (st : State) :
  dry_run W = false ->
  accepts_from W (requests st) ->
  exists st',
    clear_error_tags_command W st = (Ret tt, st') /\
    error_scene_ids st' = [] /\
    forall s, scene_tags st' s = scene_tags st s ∖ error_tags.
Proof.
  intros Hdry Hacc. unfold clear_error_tags_command.
  set (st0 := with_event (Printed "Fetching scenes with error tags...") st).
  erewrite (bind_ret_run _ _ st tt st0); [| reflexivity].
  erewrite bind_ret_run; [| apply (get_error_scenes_run W st0), Hacc; simpl; lia].
  change (error_scene_ids st0) with (error_scene_ids st).
  set (st1 := with_request st0).
  assert (Hcleared : forall st' : State,
             (forall s, scene_tags st' s = scene_tags st s ∖ error_tags) ->
             error_scene_ids st' = []).
  { intros st' Htags. apply elem_of_nil_inv. intros s.
    rewrite elem_of_error_scene_ids, Htags, no_error_tag_left. discriminate. }
  destruct (error_scene_ids st) as [| id ids] eqn:Hlist.
  - eexists. split; [reflexivity |].
    assert (Htags : forall s, scene_tags st s = scene_tags st s ∖ error_tags).
    { intros s. symmetry. apply nothing_to_clear. apply not_true_is_false.
      rewrite <- elem_of_error_scene_ids, Hlist. apply not_elem_of_nil. }
    split; [apply Hcleared; exact Htags | exact Htags].
  - destruct (clear_error_tags_clears_run W (id :: ids)
                (with_event (Printed "Clearing error tags") st1))
      as (st2 & Hrun & Htags); [exact Hdry | intros k Hk; apply Hacc; simpl in Hk; lia |].
    erewrite bind_ret_run; [| reflexivity].
    erewrite bind_ret_run; [| exact Hrun].
    eexists. split; [reflexivity |].
    assert (Hall : forall s, scene_tags st2 s = scene_tags st s ∖ error_tags).
    { intros s. rewrite Htags. change (scene_tags (with_event _ st1) s) with (scene_tags st s).
      destruct (bool_decide (s ∈ id :: ids)) eqn:Hin; [reflexivity |].
      symmetry. apply nothing_to_clear. apply not_true_is_false.
      rewrite <- elem_of_error_scene_ids, Hlist.
      now apply bool_decide_eq_false in Hin. }
    split; [apply Hcleared; exact Hall | exact Hall].
Qed.

Lemma clear_error_tags_command_clears_witness :
  dry_run calm_world = false /\
  accepts_from calm_world (requests tagged_state) /\
  error_scene_ids tagged_state <> [] /\
  exists st',
    clear_error_tags_command calm_world tagged_state = (Ret tt, st') /\
    error_scene_ids st' = [].
Proof.
  split; [reflexivity |]. split; [apply accepts_calm |].
  split; [vm_compute; discriminate |].
  destruct (clear_error_tags_command_clears calm_world tagged_state eq_refl
              (accepts_calm _)) as (st' & Hrun & Hnone & _).
  exists st'. split; [exact Hrun | exact Hnone].
Defined.

(** ** What a run of process_scene leaves alone *)

#[local] Instance same_catalog_preorder : PreOrder same_catalog.
Proof.
  split.
  - intros st. split; reflexivity.
  - intros a b c [Ht1 Hr1] [Ht2 Hr2]. split; congruence.
Qed.

#[local] Instance touches_only_preorder scene : PreOrder (touches_only scene).
Proof.
  split.
  - intros st. split; [reflexivity |]. split; [now left | tauto].
  - intros a b c (Ho1 & Ha1 & Hk1) (Ho2 & Ha2 & Hk2). split; [| split].
    + intros s Hs. now rewrite Ho2, Ho1.
    + intros t Ht. destruct (Ha2 t Ht) as [Hb | Hnew]; [| now right].
      apply Ha1, Hb.
    + intros t Ht Hne. apply Hk2; [apply Hk1 |]; assumption.
Qed.

Lemma idle_emit e : preserves same_catalog (emit e).
Proof. intros st. split; reflexivity. Qed.

Lemma idle_print msg : preserves same_catalog (print msg).
Proof. apply idle_emit. Qed.

Lemma idle_create_path p : preserves same_catalog (create_path p).
Proof. intros st. split; reflexivity. Qed.

Lemma idle_remove_path p : preserves same_catalog (remove_path p).
Proof. intros st. split; reflexivity. Qed.

Lemma idle_remove_tree p : preserves same_catalog (remove_tree p).
Proof. intros st. split; reflexivity. Qed.

Create HintDb idle.
#[local] Hint Resolve idle_emit idle_print idle_create_path idle_remove_path
  idle_remove_tree : idle.

Ltac idle := repeat first [solve [auto with idle] | preserves_step].

Lemma same_tags_touches scene st st' : tags st' = tags st -> touches_only scene st st'.
Proof.
  intros E. unfold touches_only, scene_tags. rewrite E.
  split; [reflexivity |]. split; [now left | tauto].
Qed.

Lemma frame_emit scene e : preserves (touches_only scene) (emit e).
Proof. intros st. now apply same_tags_touches. Qed.

Lemma frame_print scene msg : preserves (touches_only scene) (print msg).
Proof. apply frame_emit. Qed.

Lemma frame_create_path scene p : preserves (touches_only scene) (create_path p).
Proof. intros st. now apply same_tags_touches. Qed.

Lemma frame_remove_path scene p : preserves (touches_only scene) (remove_path p).
Proof. intros st. now apply same_tags_touches. Qed.

Lemma frame_remove_tree scene p : preserves (touches_only scene) (remove_tree p).
Proof. intros st. now apply same_tags_touches. Qed.

Lemma frame_catalog_request scene W : preserves (touches_only scene) (catalog_request W).
Proof.
  intros st. apply same_tags_touches. unfold catalog_request.
  destruct (request_ok W (requests st)); reflexivity.
Qed.

Lemma frame_update_scenes scene W tag mode :
  (mode = ADD /\ (tag = hashing_tag \/ tag = hashing_error_tag \/ tag = cover_error_tag)) \/
  (mode = REMOVE /\ tag = hashing_tag) ->
  preserves (touches_only scene) (update_scenes W scene tag mode).
Proof.
  intros Hmode st. rewrite update_scenes_run.
  destruct (request_ok W (requests st)); [| now apply same_tags_touches].
  simpl. split; [| split].
  - intros s Hne. now rewrite scene_tags_elsewhere.
  - intros t. rewrite scene_tags_updated.
    destruct Hmode as [[-> Htag] | [-> ->]]; simpl.
    + rewrite elem_of_union, elem_of_singleton. intros [Hold | ->]; [now left | now right].
    + rewrite elem_of_difference. intros [Hold _]. now left.
  - intros t Hold Hne. rewrite scene_tags_updated.
    destruct Hmode as [[-> Htag] | [-> ->]]; simpl.
    + now apply elem_of_union_l.
    + rewrite elem_of_difference, elem_of_singleton. tauto.
Qed.

Create HintDb frame.
#[local] Hint Resolve frame_emit frame_print frame_create_path frame_remove_path
  frame_remove_tree frame_catalog_request : frame.
#[local] Hint Extern 1 (preserves (touches_only _) (update_scenes _ _ _ _)) =>
  apply frame_update_scenes; unfold hashing_error_tag, cover_error_tag, hashing_tag;
  intuition congruence : frame.

Ltac frame := repeat first [solve [auto with frame] | preserves_step].

Lemma frame_tag_scene_error W scene tag msg :
  tag = hashing_error_tag \/ tag = cover_error_tag ->
  preserves (touches_only scene) (tag_scene_error W scene tag msg).
Proof. intros [-> | ->]; unfold tag_scene_error; frame. Qed.

#[local] Hint Extern 1 (preserves (touches_only _) (tag_scene_error _ _ _ _)) =>
  apply frame_tag_scene_error; intuition congruence : frame.

Lemma frame_generate_preview scene W self :
  preserves (touches_only scene) (PreviewVideoGenerator.generate_preview W self).
Proof.
  unfold PreviewVideoGenerator.generate_preview,
    PreviewVideoGenerator.clean_previous_clips,
    PreviewVideoGenerator.generate_clips,
    PreviewVideoGenerator.concatenate_clips,
    PreviewVideoGenerator.get_video_duration.
  frame. unfold PreviewVideoGenerator.extract_clip. frame.
Qed.

Lemma frame_generate_sprite scene W self :
  preserves (touches_only scene) (VideoSpriteGenerator.generate_sprite W self).
Proof.
  unfold VideoSpriteGenerator.generate_sprite,
    VideoSpriteGenerator.take_screenshots,
    VideoSpriteGenerator.create_sprite,
    VideoSpriteGenerator.clean_up,
    VideoSpriteGenerator.clean_previous_files,
    VideoSpriteGenerator.get_video_duration.
  frame;
    unfold VideoSpriteGenerator.extract_and_resize, VideoSpriteGenerator.write_cue;
    frame.
Qed.

#[local] Hint Resolve frame_generate_preview frame_generate_sprite : frame.

(** X8. Whatever happens to a scene, [process_scene] leaves the tags of
    every other scene as they were; on the scene itself it adds no tag
    but the processing tag and the two error tags, and takes no tag away
    but the processing tag. *)
Theorem process_scene_touches_own_tags (W : World) (scene : Scene) (vaapi : bool)
    (st : State) :
  let st' := snd (process_scene W scene vaapi st) in
  (forall s, s <> scene_id scene -> scene_tags st' s = scene_tags st s) /\
  (forall t, t ∈ scene_tags st' (scene_id scene) ->
             t ∈ scene_tags st (scene_id scene) \/ t = hashing_tag \/
             t = hashing_error_tag \/ t = cover_error_tag) /\
  (forall t, t ∈ scene_tags st (scene_id scene) -> t <> hashing_tag ->
             t ∈ scene_tags st' (scene_id scene)).
Proof.
  assert (Hframe : preserves (touches_only (scene_id scene))
                     (process_scene W scene vaapi)).
  { unfold process_scene, pipeline, phash_step, cover_step, sprite_step,
      preview_step, run_cover_ffmpeg, claim_scene, release_scene,
      update_phash, update_cover, log_scene_failure.
    frame. }
  exact (Hframe st).
Qed.

(** ** Dry-run mode *)



(** ** A refused claim *)



(** ** The clips of a preview *)

Lemma submit_all_cons_state {A} (task : M A) (rest : list (M A)) st :
  snd (submit_all (task :: rest) st) = snd (submit_all rest (snd (task st))).
Proof.
  simpl. unfold bind at 1. rewrite submit_run. unfold bind at 1.
  destruct (submit_all rest (snd (task st))) as [[outs | e] st2]; reflexivity.
Qed.

Lemma indices_of_combine {A} (l : list A) :
  forall a, map fst (combine (map Z.of_nat (seq a (length l))) l)
            = map Z.of_nat (seq a (length l)).
Proof.
  induction l as [| x l IH]; intros a; [reflexivity |].
  simpl. now rewrite IH.
Qed.

Lemma indices_of_enumerate {A} (l : list A) :
  map fst (enumerate l) = py_range 0 (Z.of_nat (length l)).
Proof.
  unfold enumerate, py_range. rewrite indices_of_combine.
  replace (Z.to_nat (Z.of_nat (length l) - 0)) with (length l) by lia.
  apply map_ext. intros k. lia.
Qed.

Lemma py_range_to_nat (n : Z) : py_range 0 (Z.of_nat (Z.to_nat n)) = py_range 0 n.
Proof. unfold py_range. f_equal. f_equal. lia. Qed.

Lemma seq_from (start len : nat) :
  seq start len = map (fun k => (start + k)%nat) (seq 0 len).
Proof.
  revert start. induction len as [| len IH]; intros start; [reflexivity |].
  simpl. f_equal; [lia |]. rewrite (IH (S start)), (IH 1%nat), map_map.
  apply map_ext. intros k. lia.
Qed.

Lemma py_range_split (a i b : Z) :
  a <= i < b -> py_range a b = (py_range a i ++ i :: py_range (i + 1) b)%list.
Proof.
  intros Hi. unfold py_range.
  replace (Z.to_nat (b - a)) with (Z.to_nat (i - a) + S (Z.to_nat (b - (i + 1))))%nat by lia.
  rewrite seq_app, map_app. f_equal.
  rewrite (seq_from (0 + Z.to_nat (i - a))). simpl. f_equal; [lia |].
  rewrite (seq_from 1), !map_map. apply map_ext. intros k. lia.
Qed.

Section ClipRun.
Import PreviewVideoGenerator.
Variable W : World.
Variable self : PreviewVideoGenerator.t.

Let in_scratch : string -> Prop := fun p => is_under (temp_dir self) p = true.

(** what the future of clip [i] holds *)
Let clip_future (i : Z) : Outcome (option string) :=
  match clip_failure W (filename self) i with
  | None => Ret (Some (clip_file self i))
  | Some CalledProcessError => Ret None
  | Some e => Raise e
  end.

Let task : Z * Q -> M (option string) :=
  fun '(i, start_time) => extract_clip W self i start_time.

Lemma extract_clip_outcome i start_time st :
  fst (extract_clip W self i start_time st) = clip_future i.
Proof.
  unfold extract_clip, clip_future, bind, emit.
  destruct (clip_failure W (filename self) i) as [[] |]; reflexivity.
Qed.

Lemma extract_clip_keeps i start_time :
  preserves keeps_files (extract_clip W self i start_time).
Proof.
  unfold extract_clip, print.
  repeat first [apply keeps_emit | apply keeps_create_path | preserves_step].
Qed.

Lemma extract_clip_adds i start_time :
  preserves (adds_only in_scratch) (extract_clip W self i start_time).
Proof.
  unfold extract_clip, print.
  repeat first [apply adds_emit | preserves_step].
  apply adds_create_path. apply is_under_join.
Qed.

Lemma task_keeps shot : preserves keeps_files (task shot).
Proof. destruct shot as [i start_time]. apply extract_clip_keeps. Qed.

Lemma task_adds shot : preserves (adds_only in_scratch) (task shot).
Proof. destruct shot as [i start_time]. apply extract_clip_adds. Qed.

Lemma extract_clip_creates i start_time st :
  clip_survives W self i = true ->
  clip_file self i ∈ fs (snd (extract_clip W self i start_time st)).
Proof.
  unfold clip_survives, extract_clip, bind, emit, create_path, ret.
  destruct (clip_failure W (filename self) i); [discriminate |]. intros _. simpl.
  apply elem_of_union_l. now apply elem_of_singleton.
Qed.

Lemma clips_submitted (l : list (Z * Q)) st :
  fst (submit_all (map task l) st) = Ret (map (fun shot => clip_future (fst shot)) l).
Proof.
  revert st. induction l as [| [i start_time] l IH]; intros st; simpl; [reflexivity |].
  unfold bind at 1. rewrite submit_run.
  specialize (IH (snd (extract_clip W self i start_time st))).
  unfold bind at 1.
  destruct (submit_all _ _) as [outs st2]. simpl in IH. subst outs.
  simpl. now rewrite extract_clip_outcome.
Qed.

Lemma submitted_clips_exist (l : list (Z * Q)) st i start_time :
  In (i, start_time) l ->
  clip_survives W self i = true ->
  clip_file self i ∈ fs (snd (submit_all (map task l) st)).
Proof.
  intros Hin Hok. revert st. induction l as [| shot l IH]; intros st; [destruct Hin |].
  change (map task (shot :: l)) with (task shot :: map task l).
  rewrite submit_all_cons_state. destruct Hin as [-> | Hin].
  - apply (preserves_submit_all keeps_files task l task_keeps).
    now apply extract_clip_creates.
  - now apply IH.
Qed.

Lemma collect_clips_state futures st : snd (collect_clips futures st) = st.
Proof.
  induction futures as [| future rest IH]; [reflexivity |].
  simpl. unfold bind at 1. destruct future as [clip | e]; simpl; [| reflexivity].
  unfold bind at 1. destruct (collect_clips rest st) as [[clips | e] st1] eqn:E;
    simpl in *; now subst.
Qed.

Lemma collect_clips_returns (indices : list Z) st :
  (forall i, In i indices ->
             clip_failure W (filename self) i = None \/
             clip_failure W (filename self) i = Some CalledProcessError) ->
  fst (collect_clips (map clip_future indices) st)
  = Ret (map (clip_file self) (List.filter (clip_survives W self) indices)).
Proof.
  induction indices as [| i l IH]; intros Hall; [reflexivity |].
  assert (IHl := IH (fun j Hj => Hall j (or_intror Hj))). clear IH.
  pose proof (collect_clips_state (map clip_future l) st) as Hst.
  simpl. unfold clip_future at 1, clip_survives at 1.
  destruct (Hall i (or_introl eq_refl)) as [-> | ->]; simpl;
    unfold bind at 1; simpl; unfold bind at 1;
    destruct (collect_clips (map clip_future l) st) as [[clips | e] st1];
    simpl in *; congruence.
Qed.

Lemma collect_clips_raises (before after : list Z) (i : Z) (e : exn) st :
  (forall j, In j before ->
             clip_failure W (filename self) j = None \/
             clip_failure W (filename self) j = Some CalledProcessError) ->
  clip_failure W (filename self) i = Some e ->
  e <> CalledProcessError ->
  fst (collect_clips (map clip_future (before ++ i :: after)) st) = Raise e.
Proof.
  intros Hbefore Hi He. induction before as [| j l IH].
  - simpl. unfold clip_future at 1. rewrite Hi.
    destruct e; try reflexivity. contradiction.
  - assert (IHl := IH (fun k Hk => Hbefore k (or_intror Hk))). clear IH.
    pose proof (collect_clips_state (map clip_future (l ++ i :: after)) st) as Hst.
    simpl. unfold clip_future at 1.
    destruct (Hbefore j (or_introl eq_refl)) as [-> | ->]; simpl;
      unfold bind at 1; simpl; unfold bind at 1;
      destruct (collect_clips (map clip_future (l ++ i :: after)) st)
        as [[clips | e'] st1]; simpl in *; congruence.
Qed.

Lemma generate_clips_keeps_scratch st :
  temp_dir self ∈ fs (snd (generate_clips W self st)).
Proof.
  unfold generate_clips. erewrite bind_ret_run; [| reflexivity].
  assert (Hkeep : preserves keeps_files
                    (video_duration <- get_video_duration W self ;;
                     start_times <- lift (get_start_times self video_duration) ;;
                     futures <- submit_all
                       (map (fun '(i, start_time) => extract_clip W self i start_time)
                            (enumerate start_times)) ;;
                     collect_clips futures)).
  { unfold get_video_duration.
    repeat first [apply task_keeps | preserves_step]. }
  apply Hkeep. simpl. apply elem_of_union_l. now apply elem_of_singleton.
Qed.

Variable duration : Q.
Hypothesis probe_ok : probe_duration W (filename self) = Some duration.
Hypothesis count_ok : num_clips self <> -1.

Lemma generate_clips_futures st :
  exists st1,
    generate_clips W self st
      = collect_clips (map clip_future (py_range 0 (num_clips self))) st1 /\
    adds_only in_scratch st st1 /\
    (forall p, p ∈ fs st -> p ∈ fs st1) /\
    temp_dir self ∈ fs st1 /\
    (forall i, 0 <= i < num_clips self -> clip_survives W self i = true ->
               clip_file self i ∈ fs st1).
Proof.
  set (st0 := with_fs ({[temp_dir self]} ∪ fs st) st).
  assert (Hstarts : exists starts,
             get_start_times self duration = Ret starts /\
             length starts = Z.to_nat (num_clips self)).
  { unfold get_start_times.
    destruct (Z.eqb_spec (num_clips self + 1) 0) as [E | _]; [lia |].
    eexists. split; [reflexivity |].
    rewrite length_map, length_py_range. f_equal. lia. }
  destruct Hstarts as (starts & Hstarts & Hlen).
  pose proof (clips_submitted (enumerate starts) st0) as Houts.
  pose proof (preserves_submit_all keeps_files task (enumerate starts) task_keeps st0)
    as Hkeep.
  pose proof (preserves_submit_all _ task (enumerate starts) task_adds st0) as Hadd.
  assert (Hexist : forall i start_time,
             In (i, start_time) (enumerate starts) ->
             clip_survives W self i = true ->
             clip_file self i ∈ fs (snd (submit_all (map task (enumerate starts)) st0))).
  { intros i start_time. apply submitted_clips_exist. }
  destruct (submit_all (map task (enumerate starts)) st0) as [outs st1] eqn:Hsubmit.
  simpl in Houts, Hkeep, Hadd, Hexist. subst outs.
  assert (Hindices : map fst (enumerate starts) = py_range 0 (num_clips self)).
  { now rewrite indices_of_enumerate, Hlen, py_range_to_nat. }
  exists st1. split; [| split; [| split; [| split]]].
  - unfold generate_clips.
    erewrite bind_ret_run; [| reflexivity].
    erewrite bind_ret_run; [| unfold get_video_duration; rewrite probe_ok; reflexivity].
    erewrite bind_ret_run; [| rewrite Hstarts; reflexivity].
    erewrite bind_ret_run; [| exact Hsubmit].
    now rewrite <- Hindices, map_map.
  - intros p Hp. destruct (Hadd p Hp) as [Hp0 | Hscratch]; [| now right].
    subst st0. simpl in Hp0. rewrite elem_of_union, elem_of_singleton in Hp0.
    destruct Hp0 as [-> | Hold]; [right; apply is_under_self | now left].
  - intros p Hp. apply Hkeep. subst st0. simpl. now apply elem_of_union_r.
  - apply Hkeep. subst st0. simpl. apply elem_of_union_l. now apply elem_of_singleton.
  - intros i Hi Hok.
    assert (Hin : In i (map fst (enumerate starts))).
    { rewrite Hindices. apply in_py_range. lia. }
    apply in_map_iff in Hin as ([j start_time] & Hj & Hin). simpl in Hj. subst j.
    now apply (Hexist i start_time).
Qed.

Lemma generate_clips_run st :
  (forall i, 0 <= i < num_clips self ->
             clip_failure W (filename self) i = None \/
             clip_failure W (filename self) i = Some CalledProcessError) ->
  exists st1,
    generate_clips W self st = (Ret (surviving_clips W self), st1) /\
    adds_only in_scratch st st1 /\
    (forall p, p ∈ fs st -> p ∈ fs st1) /\
    temp_dir self ∈ fs st1 /\
    (forall clip, In clip (surviving_clips W self) -> clip ∈ fs st1).
Proof.
  intros Hall.
  destruct (generate_clips_futures st) as (st1 & Hrun & Hadd & Hkeep & Hdir & Hexist).
  exists st1. split; [| split; [exact Hadd | split; [exact Hkeep | split; [exact Hdir |]]]].
  - rewrite Hrun.
    pose proof (collect_clips_returns (py_range 0 (num_clips self)) st1) as Hret.
    pose proof (collect_clips_state (map clip_future (py_range 0 (num_clips self))) st1)
      as Hst.
    destruct (collect_clips _ st1) as [r st2].
    change (st2 = st1) in Hst. subst st2. simpl in Hret.
    rewrite Hret; [reflexivity |].
    intros i Hi. apply Hall. now apply in_py_range.
  - intros clip Hin. unfold surviving_clips in Hin.
    apply in_map_iff in Hin as (i & <- & Hin). apply filter_In in Hin as [Hi Hok].
    apply Hexist; [now apply in_py_range | exact Hok].
Qed.

Lemma generate_clips_first_failure st (i : Z) (e : exn) :
  0 <= i < num_clips self ->
  (forall j, 0 <= j < i ->
             clip_failure W (filename self) j = None \/
             clip_failure W (filename self) j = Some CalledProcessError) ->
  clip_failure W (filename self) i = Some e ->
  e <> CalledProcessError ->
  exists st1,
    generate_clips W self st = (Raise e, st1) /\ adds_only in_scratch st st1 /\
    (forall p, p ∈ fs st -> p ∈ fs st1) /\ temp_dir self ∈ fs st1.
Proof.
  intros Hi Hbefore Hfail He.
  destruct (generate_clips_futures st) as (st1 & Hrun & Hadd & Hkeep & Hdir & _).
  exists st1. split; [| split; [exact Hadd | split; [exact Hkeep | exact Hdir]]].
  rewrite Hrun, (py_range_split 0 i (num_clips self)) by lia.
  pose proof (collect_clips_raises (py_range 0 i) (py_range (i + 1) (num_clips self))
                i e st1) as Hraise.
  pose proof (collect_clips_state
                (map clip_future (py_range 0 i ++ i :: py_range (i + 1) (num_clips self)))
                st1) as Hst.
  clear Hrun. destruct (collect_clips _ st1) as [r st2].
  change (st2 = st1) in Hst. subst st2. simpl in Hraise.
  rewrite Hraise; [reflexivity | | exact Hfail | exact He].
  intros j Hj. apply Hbefore. now apply in_py_range in Hj.
Qed.

End ClipRun.



(** ** The exits of generate_preview *)

Lemma clean_previous_clips_run self st :
  PreviewVideoGenerator.clean_previous_clips self st
  = (Ret tt, snd (PreviewVideoGenerator.clean_previous_clips self st)).
Proof.
  unfold PreviewVideoGenerator.clean_previous_clips.
  now rewrite remove_if_exists_run.
Qed.

Lemma clean_previous_clips_fs self st p :
  p ∈ fs (snd (PreviewVideoGenerator.clean_previous_clips self st)) <->
  p ∈ fs st /\
  (PreviewVideoGenerator.temp_dir self ∈ fs st ->
   is_under (PreviewVideoGenerator.temp_dir self) p = false).
Proof.
  unfold PreviewVideoGenerator.clean_previous_clips.
  rewrite remove_if_exists_run. simpl.
  destruct (bool_decide (PreviewVideoGenerator.temp_dir self ∈ fs st)) eqn:E; simpl.
  - apply bool_decide_eq_true in E. rewrite elem_of_rmtree. tauto.
  - apply bool_decide_eq_false in E. tauto.
Qed.

Lemma generate_preview_raise_run W self st e st1 :
  PreviewVideoGenerator.generate_clips W self
    (snd (PreviewVideoGenerator.clean_previous_clips self st)) = (Raise e, st1) ->
  PreviewVideoGenerator.generate_preview W self st = (Raise e, st1).
Proof.
  intros Hclips. unfold PreviewVideoGenerator.generate_preview.
  erewrite bind_ret_run; [| apply clean_previous_clips_run].
  erewrite bind_raise_run; [reflexivity | exact Hclips].
Qed.



(** X13. Without a duration from the probe [generate_preview] raises
    ValueError, and with a clip count of -1 ZeroDivisionError; in both
    cases the scratch directory, made before the probe, is left behind. *)
Theorem generate_preview_without_start_times (W : World)
    (self : PreviewVideoGenerator.t) (st : State) :
  let run := PreviewVideoGenerator.generate_preview W self st in
  (probe_duration W (PreviewVideoGenerator.filename self) = None ->
   fst run = Raise ValueError /\
   PreviewVideoGenerator.temp_dir self ∈ fs (snd run)) /\
  (probe_duration W (PreviewVideoGenerator.filename self) <> None ->
   PreviewVideoGenerator.num_clips self = -1 ->
   fst run = Raise ZeroDivisionError /\
   PreviewVideoGenerator.temp_dir self ∈ fs (snd run)).
Proof.
  intros run.
  set (st0 := snd (PreviewVideoGenerator.clean_previous_clips self st)).
  pose proof (generate_clips_keeps_scratch W self st0) as Hdir.
  assert (Hraise : forall e,
             fst (PreviewVideoGenerator.generate_clips W self st0) = Raise e ->
             fst run = Raise e /\ PreviewVideoGenerator.temp_dir self ∈ fs (snd run)).
  { intros e He. subst run.
    destruct (PreviewVideoGenerator.generate_clips W self st0) as [r st1] eqn:Hrun.
    simpl in He, Hdir. subst r.
    rewrite (generate_preview_raise_run W self st e st1 Hrun). now split. }
  split.
  - intros Hprobe. apply Hraise.
    unfold PreviewVideoGenerator.generate_clips, PreviewVideoGenerator.get_video_duration.
    rewrite Hprobe. reflexivity.
  - intros Hprobe Hcount. apply Hraise.
    unfold PreviewVideoGenerator.generate_clips, PreviewVideoGenerator.get_video_duration,
      PreviewVideoGenerator.get_start_times.
    destruct (probe_duration W _) as [d |]; [| contradiction].
    rewrite Hcount. reflexivity.
Qed.

Lemma generate_preview_without_start_times_witness :
  probe_duration unprobed_world (PreviewVideoGenerator.filename config_preview) = None /\
  fst (PreviewVideoGenerator.generate_preview unprobed_world config_preview empty_state)
    = Raise ValueError /\
  PreviewVideoGenerator.temp_dir config_preview
    ∈ fs (snd (PreviewVideoGenerator.generate_preview unprobed_world config_preview
                 empty_state)).
Proof.
  split; [reflexivity |].
  exact (proj1 (generate_preview_without_start_times unprobed_world config_preview
                  empty_state) eq_refl).
Defined.

Lemma no_clip_missing (clips : list string) (files : gset string) :
  (forall c, In c clips -> c ∈ files) ->
  List.filter (fun c => negb (bool_decide (c ∈ files))) clips = [].
Proof.
  induction clips as [| c l IH]; intros Hall; [reflexivity |].
  simpl. rewrite bool_decide_eq_true_2 by (apply Hall; now left).
  simpl. apply IH. intros d Hd. apply Hall. now right.
Qed.

Lemma splice_block_run W self (clips : list string) st :
  (forall c, In c clips -> c ∈ fs st) ->
  exists st3,
    try_except
      (PreviewVideoGenerator.concatenate_clips W self clips ;;
       e <- path_exists (PreviewVideoGenerator.output_path self) ;;
       if e then when (verbose W) (print "Preview video created")
       else print "Preview video not created")
      (fun _ => print "Preview generation failed") st = (Ret tt, st3) /\
    (forall p, p ∈ fs st3 <->
               (p = PreviewVideoGenerator.output_path self /\
                concat_ok W (sorted clips) = true) \/
               p = path_join (PreviewVideoGenerator.temp_dir self) "clips.txt" \/
               p ∈ fs st) /\
    (concat_ok W (sorted clips) = false ->
     exists before,
       trace st3 = (before ++ [Printed "Preview generation failed"])%list).
Proof.
  intros Hall.
  unfold try_except, PreviewVideoGenerator.concatenate_clips.
  unfold bind at 1. unfold bind at 1. unfold read_fs at 1.
  rewrite (no_clip_missing clips (fs st) Hall).
  unfold bind, create_path, emit, print, emit, raise, path_exists, when, ret.
  destruct (concat_ok W (sorted clips)) eqn:Hok; simpl.
  - rewrite bool_decide_eq_true_2
      by (apply elem_of_union_l; now apply elem_of_singleton).
    destruct (verbose W); simpl; eexists; (split; [reflexivity |]);
      (split; [| discriminate]); intros p; simpl;
      rewrite !elem_of_union, !elem_of_singleton; tauto.
  - eexists. split; [reflexivity |]. split.
    + intros p. simpl. rewrite !elem_of_union, !elem_of_singleton.
      split; [tauto |]. intros [[_ Hf] | H]; [discriminate | tauto].
    + intros _. eexists. reflexivity.
Qed.



(** ** The sprite pipeline without a duration *)

Lemma clean_previous_files_effect self st :
  exists st1,
    VideoSpriteGenerator.clean_previous_files self st = (Ret tt, st1) /\
    (forall p, p ∈ fs st1 -> p ∈ fs st) /\
    (VideoSpriteGenerator.vtt_path self ∉ fs st1) /\
    trace st1 = trace st.
Proof.
  unfold VideoSpriteGenerator.clean_previous_files.
  unfold bind, path_exists, when, remove_tree, remove_path, ret.
  destruct (bool_decide (VideoSpriteGenerator.temp_dir self ∈ fs st)); simpl.
  - destruct (bool_decide (_ ∈ rmtree _ _)) eqn:E; simpl; eexists;
      (split; [reflexivity |]); (split; [| split; [| reflexivity]]); simpl.
    + intros p. rewrite elem_of_difference, elem_of_rmtree. tauto.
    + rewrite elem_of_difference, elem_of_singleton. tauto.
    + intros p. rewrite elem_of_rmtree. tauto.
    + now apply bool_decide_eq_false in E.
  - destruct (bool_decide (_ ∈ fs st)) eqn:E; simpl; eexists;
      (split; [reflexivity |]); (split; [| split; [| reflexivity]]); simpl.
    + intros p. rewrite elem_of_difference. tauto.
    + rewrite elem_of_difference, elem_of_singleton. tauto.
    + tauto.
    + now apply bool_decide_eq_false in E.
Qed.



(** ** The sprite pipeline when every frame is extracted *)

Lemma cues_app a b : cues (a ++ b) = (cues a ++ cues b)%list.
Proof.
  induction a as [| e a IH]; simpl; [reflexivity |].
  destruct e; try exact IH. simpl. now rewrite IH.
Qed.

Lemma saved_sprites_app a b :
  saved_sprites (a ++ b) = (saved_sprites a ++ saved_sprites b)%list.
Proof.
  induction a as [| e a IH]; simpl; [reflexivity |].
  destruct e; try exact IH. simpl. now rewrite IH.
Qed.

#[local] Instance same_cues_preorder : PreOrder same_cues.
Proof.
  split.
  - intros st. reflexivity.
  - intros a b c Hab Hbc. unfold same_cues in *. congruence.
Qed.

Lemma string_drop_app (a b : string) (k : nat) :
  string_drop (String.length a + k) (a ++ b) = string_drop k b.
Proof. induction a as [| c a IH]; [reflexivity | exact IH]. Qed.

Lemma ends_with_app (suffix a b : string) :
  ends_with suffix b = true -> ends_with suffix (a ++ b) = true.
Proof.
  unfold ends_with. rewrite !andb_true_iff, !Nat.leb_le, string_length_app.
  intros [Hlen Heq]. split; [lia |].
  replace (String.length a + String.length b - String.length suffix)%nat
    with (String.length a + (String.length b - String.length suffix))%nat by lia.
  now rewrite string_drop_app.
Qed.

Lemma insert_sorted_nonempty x l : insert_sorted x l <> [].
Proof. destruct l as [| y r]; simpl; [| destruct (String.leb x y)]; discriminate. Qed.

Lemma sorted_nonempty (l : list string) : l <> [] -> sorted l <> [].
Proof.
  destruct l as [| x r]; [contradiction |]. intros _. apply insert_sorted_nonempty.
Qed.

Section SpriteRun.
Import VideoSpriteGenerator.
Variable W : World.
Variable self : VideoSpriteGenerator.t.
Variable duration : Q.
Hypothesis probe_ok : probe_duration W (video_path self) = Some duration.
Hypothesis duration_nonzero : ~ (duration == 0)%Q.
Hypothesis shots_pos : 1 <= total_shots self.
Hypothesis columns_nonzero : columns self <> 0.
Hypothesis all_ok :
  forall i, 0 <= i < total_shots self -> frame_failure W (video_path self) i = None.

Let interval : Q := (duration / inject_Z (total_shots self))%Q.

Let cue (i : Z) : string * string * (Z * Z * Z * Z) :=
  (format_time (inject_Z i * interval),
   format_time (inject_Z i * interval + interval),
   (i mod columns self * max_width self, i / columns self * max_height self,
    max_width self, max_height self)).

Lemma frame_created i st :
  frame_failure W (video_path self) i = None ->
  frame_file self i ∈ fs (snd (extract_and_resize W self i interval st)).
Proof.
  intros Hok. unfold extract_and_resize, bind, emit, create_path, ret.
  rewrite Hok. simpl. apply elem_of_union_l. now apply elem_of_singleton.
Qed.

Lemma submitted_frames_exist (l : list Z) st i :
  In i l ->
  frame_failure W (video_path self) i = None ->
  frame_file self i
    ∈ fs (snd (submit_all (map (fun i => extract_and_resize W self i interval) l) st)).
Proof.
  intros Hin Hok. revert st. induction l as [| j l IH]; intros st; [destruct Hin |].
  change (map (fun i => extract_and_resize W self i interval) (j :: l))
    with (extract_and_resize W self j interval
            :: map (fun i => extract_and_resize W self i interval) l).
  rewrite submit_all_cons_state. destruct Hin as [-> | Hin].
  - apply (preserves_submit_all keeps_files
             (fun i => extract_and_resize W self i interval) l
             (extract_keeps W self interval)).
    now apply frame_created.
  - now apply IH.
Qed.

Lemma extract_same_cues i : preserves same_cues (extract_and_resize W self i interval).
Proof.
  intros st. unfold same_cues, extract_and_resize, bind, emit, create_path, raise, ret.
  destruct (frame_failure W (video_path self) i); simpl;
    rewrite cues_app; simpl; now rewrite app_nil_r.
Qed.

Lemma extract_same_sprites i st :
  saved_sprites (trace (snd (extract_and_resize W self i interval st)))
  = saved_sprites (trace st).
Proof.
  unfold extract_and_resize, bind, emit, create_path, raise, ret.
  destruct (frame_failure W (video_path self) i); simpl;
    rewrite saved_sprites_app; simpl; now rewrite app_nil_r.
Qed.

Lemma submitted_same_sprites (l : list Z) st :
  saved_sprites
    (trace (snd (submit_all (map (fun i => extract_and_resize W self i interval) l) st)))
  = saved_sprites (trace st).
Proof.
  revert st. induction l as [| i l IH]; intros st; [reflexivity |].
  change (map (fun i => extract_and_resize W self i interval) (i :: l))
    with (extract_and_resize W self i interval
            :: map (fun i => extract_and_resize W self i interval) l).
  now rewrite submit_all_cons_state, IH, extract_same_sprites.
Qed.

Lemma cue_loop_run (l : list Z) st :
  (forall i, In i l -> frame_failure W (video_path self) i = None) ->
  exists st',
    for_each
      (map (fun i => match frame_failure W (video_path self) i with
                     | Some e => Raise e
                     | None => Ret (i, (inject_Z i * interval)%Q)
                     end) l)
      (write_cue self interval) st = (Ret tt, st') /\
    fs st' = fs st /\
    cues (trace st') = (cues (trace st) ++ map cue l)%list /\
    saved_sprites (trace st') = saved_sprites (trace st).
Proof.
  revert st. induction l as [| i l IH]; intros st Hall.
  - exists st. simpl. now rewrite app_nil_r.
  - simpl. rewrite (Hall i (or_introl eq_refl)).
    set (st1 := with_event (Cue (format_time (inject_Z i * interval))
                              (format_time (inject_Z i * interval + interval))
                              (i mod columns self * max_width self,
                               i / columns self * max_height self,
                               max_width self, max_height self)) st).
    assert (Hstep : write_cue self interval (Ret (i, (inject_Z i * interval)%Q)) st
                    = (Ret tt, st1)).
    { unfold write_cue. simpl future_result.
      erewrite bind_ret_run; [| reflexivity]. cbv beta iota.
      unfold lift. rewrite gridPlacement_value by exact columns_nonzero.
      erewrite bind_ret_run; reflexivity. }
    destruct (IH st1) as (st' & Hrun & Hfs & Hcues & Hsaved).
    { intros j Hj. apply Hall. now right. }
    exists st'. split; [| split; [| split]].
    + erewrite bind_ret_run; [exact Hrun | exact Hstep].
    + rewrite Hfs. reflexivity.
    + rewrite Hcues. subst st1. simpl. rewrite cues_app. simpl.
      now rewrite <- app_assoc.
    + rewrite Hsaved. subst st1. simpl. rewrite saved_sprites_app. simpl.
      now rewrite app_nil_r.
Qed.

Lemma take_screenshots_run st :
  exists st5,
    take_screenshots W self st = (Ret true, st5) /\
    cues (trace st5) = (cues (trace st) ++ map cue (py_range 0 (total_shots self)))%list /\
    saved_sprites (trace st5) = saved_sprites (trace st) /\
    frame_file self 0 ∈ fs st5 /\
    temp_dir self ∈ fs st5 /\
    vtt_path self ∈ fs st5 /\
    (forall p, p ∈ fs st5 ->
               p ∈ fs st \/ p = vtt_path self \/ is_under (temp_dir self) p = true).
Proof.
  set (frames := py_range 0 (total_shots self)).
  destruct (clean_previous_files_effect self st) as (st1 & Hclean & Hsub1 & _ & Htrace1).
  set (st2 := with_fs ({[temp_dir self]} ∪ fs st1) st1).
  set (st3 := with_fs ({[vtt_path self]} ∪ fs st2) st2).
  set (tasks := map (fun i => extract_and_resize W self i interval) frames).
  pose proof (frames_submitted W self interval frames st3) as Houts.
  pose proof (preserves_submit_all keeps_files
                (fun i => extract_and_resize W self i interval) frames
                (extract_keeps W self interval) st3) as Hkeep4.
  pose proof (preserves_submit_all _
                (fun i => extract_and_resize W self i interval) frames
                (extract_adds W self interval) st3) as Hadd4.
  pose proof (preserves_submit_all same_cues
                (fun i => extract_and_resize W self i interval) frames
                extract_same_cues st3) as Hcues4.
  assert (Hsaved4 : saved_sprites (trace (snd (submit_all tasks st3)))
                    = saved_sprites (trace st3)).
  { apply submitted_same_sprites. }
  pose proof (submitted_frames_exist frames st3 0) as Hframe0.
  fold tasks in Houts, Hkeep4, Hadd4, Hcues4, Hframe0.
  destruct (submit_all tasks st3) as [outs st4] eqn:Hsubmit.
  simpl in Houts, Hkeep4, Hadd4, Hcues4, Hsaved4, Hframe0. subst outs.
  destruct (cue_loop_run frames st4) as (st5 & Hloop & Hfs5 & Hcues5 & Hsaved5).
  { intros i Hi. apply all_ok. now apply in_py_range in Hi. }
  exists st5. split; [| split; [| split; [| split; [| split; [| split]]]]].
  - unfold take_screenshots.
    erewrite bind_ret_run; [| exact Hclean].
    erewrite bind_ret_run; [| reflexivity].
    erewrite bind_ret_run; [| reflexivity].
    cbv beta iota. rewrite probe_ok.
    destruct (Qeq_bool duration 0) eqn:Hz; [now apply Qeq_bool_iff in Hz |].
    destruct (Z.eqb_spec (total_shots self) 0) as [E | _]; [lia |].
    erewrite bind_ret_run; [| reflexivity].
    erewrite bind_ret_run; [| reflexivity].
    erewrite bind_ret_run; [| exact Hsubmit].
    erewrite bind_ret_run; [reflexivity | exact Hloop].
  - rewrite Hcues5. f_equal. unfold same_cues in Hcues4. rewrite Hcues4.
    subst st3 st2. simpl. now rewrite Htrace1.
  - rewrite Hsaved5, Hsaved4. subst st3 st2. simpl. now rewrite Htrace1.
  - rewrite Hfs5. apply Hframe0; [apply in_py_range; lia | apply all_ok; lia].
  - rewrite Hfs5. apply Hkeep4. subst st3 st2. simpl.
    apply elem_of_union_r, elem_of_union_l. now apply elem_of_singleton.
  - rewrite Hfs5. apply Hkeep4. subst st3. simpl.
    apply elem_of_union_l. now apply elem_of_singleton.
  - intros p. rewrite Hfs5. intros Hp.
    destruct (Hadd4 p Hp) as [Hp3 | Hscratch]; [| tauto].
    subst st3 st2. simpl in Hp3. rewrite !elem_of_union, !elem_of_singleton in Hp3.
    destruct Hp3 as [-> | [-> | Hp1]]; [tauto | | left; now apply Hsub1].
    right. right. apply is_under_self.
Qed.

Lemma paste_tiles_run (images : list (Z * string)) st :
  exists tiles,
    paste_tiles self images st = (Ret tiles, st) /\
    tiles = map (fun image => (fst image mod columns self * max_width self,
                               fst image / columns self * max_height self)) images.
Proof.
  induction images as [| [idx name] l (tiles & IH & Htiles)].
  - exists []. split; reflexivity.
  - eexists. simpl. unfold lift.
    rewrite gridPlacement_value by exact columns_nonzero.
    erewrite bind_ret_run; [| reflexivity].
    erewrite bind_ret_run; [| exact IH]. split; [reflexivity |].
    simpl. now rewrite Htiles.
Qed.

Lemma frame_listed (files : gset string) :
  frame_file self 0 ∈ files -> listed_images self files <> [].
Proof.
  intros Hin. unfold listed_images. apply sorted_nonempty.
  intros Hnil.
  assert (Hlisted : In (frame_file self 0)
                       (List.filter
                          (fun p =>
                             (String.prefix (temp_dir self ++ "/") p &&
                              negb (contains "/"
                                      (string_drop (String.length (temp_dir self ++ "/")) p)) &&
                              ends_with ".jpg" p)%bool)
                          (elements files))).
  { apply filter_In. split; [now apply list_elem_of_In, elem_of_elements |].
    unfold frame_file, path_join. change (fmt_int 3 0) with "000".
    change ("frame_" ++ "000" ++ ".jpg") with "frame_000.jpg".
    rewrite <- string_app_assoc, prefix_app.
    rewrite <- (Nat.add_0_r (String.length (temp_dir self ++ "/"))), string_drop_app.
    rewrite ends_with_app by reflexivity. reflexivity. }
  rewrite Hnil in Hlisted. destruct Hlisted.
Qed.

Lemma create_sprite_run st :
  frame_file self 0 ∈ fs st ->
  exists tiles,
    create_sprite self st
    = (Ret tt, with_event (SpriteSaved (sprite_path self) tiles)
                 (with_fs ({[sprite_path self]} ∪ fs st) st)) /\
    tiles = map (fun image => (fst image mod columns self * max_width self,
                               fst image / columns self * max_height self))
                (enumerate (listed_images self (fs st))) /\
    tiles <> [].
Proof.
  intros Hframe. pose proof (frame_listed (fs st) Hframe) as Hsome.
  unfold create_sprite. erewrite bind_ret_run; [| reflexivity].
  destruct (listed_images self (fs st)) as [| image more] eqn:Hlist; [contradiction |].
  destruct (paste_tiles_run (enumerate (image :: more)) st) as (tiles & Hpaste & Htiles).
  exists tiles. split; [| split; [exact Htiles |]].
  - erewrite bind_ret_run; [| exact Hpaste].
    erewrite bind_ret_run; reflexivity.
  - rewrite Htiles. discriminate.
Qed.

End SpriteRun.



(** ** The batch size of the command line and the pages *)

Lemma truthy_int_nonzero (x : option Z) (n : Z) : truthy_int x = Some n -> n <> 0.
Proof.
  destruct x as [m |]; [| discriminate]. simpl.
  destruct (Z.eqb_spec m 0); [discriminate |]. now intros [= <-].
Qed.

Lemma apply_cli_args_per_page (args : Args.t) (config : Config.t) :
  Config.per_page config <> 0 ->
  Config.per_page (apply_cli_args args config) <> 0.
Proof.
  intros Hconfig. simpl.
  destruct (truthy_int (Args.batch_size args)) as [n |] eqn:E; [| exact Hconfig].
  now apply truthy_int_nonzero in E.
Qed.

Lemma stash_find_scenes_outcome W size page fragment st :
  fst (stash_find_scenes W size page fragment st) = Ret (find_scenes W size page) \/
  fst (stash_find_scenes W size page fragment st) = Raise RemoteError.
Proof.
  unfold stash_find_scenes, bind, emit, catalog_request. simpl.
  destruct (request_ok W (requests st)); [now left | now right].
Qed.

Lemma fetch_page_outcome W page st :
  (exists scenes, fst (fetch_page W page st) = Ret scenes) \/
  fst (fetch_page W page st) = Raise RemoteError.
Proof.
  unfold fetch_page. erewrite bind_ret_run; [| reflexivity].
  pose proof (stash_find_scenes_outcome W (per_page W) (Some page) full_fragment
                (with_event (Printed "Selected page") st)) as Hquery.
  destruct (stash_find_scenes W (per_page W) (Some page) full_fragment
              (with_event (Printed "Selected page") st))
    as [[scenes | e] st1] eqn:Hrun; simpl in Hquery.
  - erewrite bind_ret_run; [| exact Hrun]. left.
    destruct (filemask W) as [mask |]; [| now eexists].
    destruct (String.eqb mask ""); [now eexists |].
    unfold bind, print, emit, ret. now eexists.
  - erewrite bind_raise_run; [| exact Hrun]. right.
    destruct Hquery as [Hq | Hq]; [discriminate |].
    injection Hq as ->. reflexivity.
Qed.

Lemma discover_scenes_outcomes W st :
  per_page W <> 0 ->
  forall run, In run (discover_scenes W st) ->
    (exists scenes, fst run = Ret scenes) \/ fst run = Raise RemoteError.
Proof.
  intros Hpage run. unfold discover_scenes.
  pose proof (stash_find_scenes_outcome W (-1) None "id" st) as Hquery.
  destruct (stash_find_scenes W (-1) None "id" st) as [[all_scenes | e] st1];
    simpl in Hquery.
  - destruct (Z.of_nat (length all_scenes) =? 0)%Z.
    + intros [<- | []]. left. now eexists.
    + destruct (Z.eqb_spec (per_page W) 0) as [E | _]; [contradiction |].
      rewrite in_map_iff. intros (page & <- & _). apply fetch_page_outcome.
  - intros [<- | []]. right.
    destruct Hquery as [Hq | Hq]; [discriminate |].
    injection Hq as ->. reflexivity.
Qed.

(** X17. Whatever the command line says, [apply_cli_args] leaves a page
    size other than zero when [config.py] has one ([--batch-size 0] is
    ignored), so the division in [discover_scenes] cannot fail: every run
    of [discover_scenes] returns a batch or raises the error of the
    catalog, nothing else. *)
Theorem discover_scenes_after_cli (args : Args.t) (config : Config.t)
    (W : World) (st : State) :
  Config.per_page config <> 0 ->
  let W' := discovery_world (apply_cli_args args config) W in
  per_page W' <> 0 /\
  forall run, In run (discover_scenes W' st) ->
    (exists scenes, fst run = Ret scenes) \/ fst run = Raise RemoteError.
Proof.
  intros Hconfig W'.
  assert (Hpage : per_page W' <> 0).
  { subst W'. unfold discovery_world. cbn [per_page].
    now apply apply_cli_args_per_page. }
  split; [exact Hpage |]. now apply discover_scenes_outcomes.
Qed.

Lemma discover_scenes_after_cli_witness :
  Config.per_page default_config <> 0 /\
  per_page (discovery_world (apply_cli_args (batch_size_args (Some 0)) default_config)
              busy_world) = 25 /\
  forall run,
    In run (discover_scenes
              (discovery_world (apply_cli_args (batch_size_args (Some 0)) default_config)
                 busy_world) empty_state) ->
    (exists scenes, fst run = Ret scenes) \/ fst run = Raise RemoteError.
Proof.
  split; [discriminate |]. split; [reflexivity |].
  apply (discover_scenes_after_cli (batch_size_args (Some 0)) default_config busy_world
           empty_state).
  discriminate.
Defined.

(** X18. With a negative page size (as [--batch-size -1] sets it) and at
    least one matching scene, the number of pages is one: there is a
    single run, which asks the catalog for page 1 with that page size. *)
Theorem discover_scenes_negative_batch (W : World) (st : State) :
  request_ok W (requests st) = true ->
  0 < Z.of_nat (length (find_scenes W (-1) None)) ->
  per_page W < 0 ->
  exists run,
    discover_scenes W st = [run] /\
    page_queries (trace (snd run)) =
      (page_queries (trace st) ++ [(per_page W, 1, full_fragment)])%list.
Proof.
  intros Hok Hcount Hneg.
  set (total_count := Z.of_nat (length (find_scenes W (-1) None))) in *.
  assert (Hfirst : stash_find_scenes W (-1) None "id" st =
                   (Ret (find_scenes W (-1) None),
                    with_request (with_event (CatalogQuery (-1) None "id") st))).
  { unfold stash_find_scenes, bind, emit, catalog_request. simpl. now rewrite Hok. }
  assert (Hpages : Z.max 1 ((total_count + per_page W - 1) / per_page W) = 1).
  { apply Z.max_l. rewrite <- Z.div_opp_opp by lia.
    transitivity ((- per_page W) / (- per_page W)).
    - apply Z.div_le_mono; lia.
    - rewrite Z.div_same by lia. lia. }
  unfold discover_scenes. rewrite Hfirst. fold total_count.
  destruct (Z.eqb_spec total_count 0) as [E | _]; [lia |].
  destruct (Z.eqb_spec (per_page W) 0) as [E | _]; [lia |].
  rewrite Hpages. eexists. split; [reflexivity |].
  rewrite fetch_page_queries. simpl.
  rewrite page_queries_app. simpl. now rewrite app_nil_r.
Qed.

Lemma discover_scenes_negative_batch_witness :
  per_page (discovery_world (apply_cli_args (batch_size_args (Some (-1))) default_config)
              busy_world) < 0 /\
  exists run,
    discover_scenes
      (discovery_world (apply_cli_args (batch_size_args (Some (-1))) default_config)
         busy_world) empty_state = [run] /\
    page_queries (trace (snd run)) = [(-1, 1, full_fragment)].
Proof.
  split; [reflexivity |].
  destruct (discover_scenes_negative_batch
              (discovery_world (apply_cli_args (batch_size_args (Some (-1)))
                                  default_config) busy_world) empty_state)
    as (run & Hruns & Hqueries).
  - reflexivity.
  - vm_compute. reflexivity.
  - reflexivity.
  - exists run. split; [exact Hruns | exact Hqueries].
Defined.

(** ** The VAAPI device *)

Lemma probe_devices_find vainfo (devices : list string) :
  probe_devices vainfo devices =
  match List.find (usable_device vainfo) devices with
  | Some device => (true, Some device)
  | None => (false, None)
  end.
Proof.
  induction devices as [| device rest IH]; [reflexivity |].
  simpl. unfold usable_device at 1.
  destruct (vainfo device) as [output | e]; [| exact IH].
  destruct (contains "VA-API version" output && contains "Driver version" output)%bool;
    [reflexivity | exact IH].
Qed.

(** X19. [vaapi_available] answers with the first of the three device paths
    whose [vainfo] output names both a VA-API version and a driver
    version, a device whose probe raises being skipped like one whose
    output does not match; it answers [(False, None)] exactly when no
    device passes. *)
Theorem vaapi_available_first_match (vainfo : string -> Outcome string) :
  (forall device,
     vaapi_available vainfo = (true, Some device) <->
     exists before after,
       device_paths = (before ++ device :: after)%list /\
       usable_device vainfo device = true /\
       forall d, In d before -> usable_device vainfo d = false) /\
  (vaapi_available vainfo = (false, None) <->
   forall d, In d device_paths -> usable_device vainfo d = false) /\
  (vaapi_available vainfo = (false, None) \/
   exists device, In device device_paths /\ vaapi_available vainfo = (true, Some device)).
Proof.
  unfold vaapi_available. rewrite probe_devices_find.
  destruct (List.find (usable_device vainfo) device_paths) as [found |] eqn:Hfind.
  - pose proof Hfind as Hfound. apply find_some in Hfound as [Hin Husable].
    split; [| split].
    + intros device. split.
      * intros [= <-]. unfold device_paths in *. simpl in Hfind.
        destruct (usable_device vainfo "/dev/dri/renderD128") eqn:H0.
        { injection Hfind as <-. exists [], ["/dev/dri/card0"; "/dev/dri/card1"].
          split; [reflexivity |]. split; [exact H0 | intros d []]. }
        destruct (usable_device vainfo "/dev/dri/card0") eqn:H1.
        { injection Hfind as <-. exists ["/dev/dri/renderD128"], ["/dev/dri/card1"].
          split; [reflexivity |]. split; [exact H1 |].
          intros d [<- | []]. exact H0. }
        destruct (usable_device vainfo "/dev/dri/card1") eqn:H2; [| discriminate].
        injection Hfind as <-.
        exists ["/dev/dri/renderD128"; "/dev/dri/card0"], [].
        split; [reflexivity |]. split; [exact H2 |].
        intros d [<- | [<- | []]]; assumption.
      * intros (before & after & Hsplit & Hdev & Hbefore).
        rewrite Hsplit in Hfind.
        assert (Hfirst : forall l, (forall d, In d l -> usable_device vainfo d = false) ->
                   List.find (usable_device vainfo) (l ++ device :: after)%list
                   = Some device).
        { induction l as [| d l IH]; intros Hl; simpl.
          - now rewrite Hdev.
          - rewrite (Hl d (or_introl eq_refl)). apply IH.
            intros d' Hd'. apply Hl. now right. }
        rewrite (Hfirst before Hbefore) in Hfind. now injection Hfind as <-.
    + split; [discriminate |]. intros Hnone.
      rewrite (Hnone found Hin) in Husable. discriminate.
    + right. exists found. now split.
  - split; [| split].
    + intros device. split; [discriminate |].
      intros (before & after & Hsplit & Hdev & _).
      pose proof (find_none _ _ Hfind device) as Hno.
      rewrite Hno in Hdev; [discriminate |].
      rewrite Hsplit. apply in_or_app. right. now left.
    + split; [intros _ | reflexivity]. intros d Hd. now apply (find_none _ _ Hfind).
    + now left.
Qed.

Lemma resolve_vaapi_cases (config : Config.t) vainfo :
  resolve_vaapi config vainfo = (false, None) \/
  exists device,
    In device device_paths /\ resolve_vaapi config vainfo = (true, Some device).
Proof.
  unfold resolve_vaapi, vaapi_available. rewrite probe_devices_find.
  assert (Hdefault : In "/dev/dri/renderD128" device_paths) by now left.
  destruct (negb (Config.windows config)).
  - destruct (List.find (usable_device vainfo) device_paths) as [found |] eqn:Hfind.
    + apply find_some in Hfind as [Hin _].
      destruct (Config.vaapi_override config) as [[|] |];
        [right | now left | right]; exists found; now split.
    + destruct (Config.vaapi_override config) as [[|] |];
        [right | now left | now left].
      exists "/dev/dri/renderD128". now split.
  - destruct (Config.vaapi_override config) as [[|] |];
      [right | now left | now left].
    exists "/dev/dri/renderD128". now split.
Qed.

(** X20. After the VAAPI decision of [main], VAAPI is on exactly when a
    device is set, and a device that is set is one of the three known
    paths; so the device handed to the health check is the device itself.
    [--vaapi] turns VAAPI on, also on Windows and without a detected
    device, and wins over [--novaapi]; [--novaapi] alone turns it off. *)
Theorem resolve_vaapi_device (args : Args.t) (config : Config.t)
    (vainfo : string -> Outcome string) :
  let resolved := resolve_vaapi (apply_cli_args args config) vainfo in
  (fst resolved = true <-> snd resolved <> None) /\
  (forall device, snd resolved = Some device -> In device device_paths) /\
  health_check_device resolved = snd resolved /\
  (Args.vaapi args = true -> fst resolved = true) /\
  (Args.vaapi args = false -> Args.novaapi args = true -> resolved = (false, None)).
Proof.
  intros resolved.
  assert (Hshape : forall r : bool * option string,
             (r = (false, None) \/
              exists device, In device device_paths /\ r = (true, Some device)) ->
             (fst r = true <-> snd r <> None) /\
             (forall device, snd r = Some device -> In device device_paths) /\
             health_check_device r = snd r).
  { intros r [-> | (found & Hin & ->)]; simpl.
    - split; [split; congruence |]. split; [discriminate | reflexivity].
    - split; [split; congruence |]. split; [| reflexivity].
      now intros device [= <-]. }
  destruct (Hshape resolved (resolve_vaapi_cases _ vainfo)) as (Hon & Hknown & Hcheck).
  split; [exact Hon |]. split; [exact Hknown |]. split; [exact Hcheck |]. split.
  - intros Hvaapi. subst resolved. unfold resolve_vaapi. cbn [apply_cli_args Config.vaapi_override Config.windows].
    rewrite Hvaapi.
    destruct (if negb (Args.windows args) then vaapi_available vainfo else (false, None))
      as [supported [device |]]; reflexivity.
  - intros Hvaapi Hnovaapi. subst resolved. unfold resolve_vaapi.
    cbn [apply_cli_args Config.vaapi_override Config.windows].
    rewrite Hvaapi, Hnovaapi.
    destruct (if negb (Args.windows args) then vaapi_available vainfo else (false, None))
      as [supported device]; reflexivity.
Qed.

(** ** The statistics of a batch *)

Lemma examined_length shutdown k futures :
  (length (examined shutdown k futures) <= length futures)%nat.
Proof.
  revert k. induction futures as [| future rest IH]; intros k; simpl; [lia |].
  destruct (shutdown k); simpl; [lia |]. specialize (IH (S k)). lia.
Qed.

Lemma examined_all shutdown k futures :
  (forall i, shutdown i = false) -> examined shutdown k futures = futures.
Proof.
  intros Hnever. revert k. induction futures as [| future rest IH]; intros k; simpl;
    [reflexivity |].
  now rewrite Hnever, IH.
Qed.

Lemma result_loop_counts shutdown (futures : list Future) :
  forall k stats,
    let stats' := result_loop shutdown k futures stats in
    let seen := examined shutdown k futures in
    BatchStatistics.total_scenes stats' = BatchStatistics.total_scenes stats /\
    BatchStatistics.start_time stats' = BatchStatistics.start_time stats /\
    BatchStatistics.successful stats' =
      BatchStatistics.successful stats + Z.of_nat (length (List.filter is_success seen)) /\
    BatchStatistics.failed stats' =
      BatchStatistics.failed stats
      + Z.of_nat (length seen - length (List.filter is_success seen)) /\
    (length (BatchStatistics.scene_times stats')
       <= length (BatchStatistics.scene_times stats)
          + length (List.filter is_success seen))%nat.
Proof.
  induction futures as [| future rest IH]; intros k stats; simpl.
  - repeat split; lia.
  - destruct (shutdown k); simpl; [repeat split; lia |].
    destruct (IH (S k) (record_future future stats)) as (Htotal & Hstart & Hok & Hko & Htimes).
    pose proof (filter_length_le is_success (examined shutdown (S k) rest)) as Hle.
    destruct future as [[|] elapsed_time | | e]; simpl in *;
      rewrite Htotal, Hstart, Hok, Hko; repeat split; try lia.
    destruct elapsed_time as [elapsed |]; [destruct (Qeq_bool elapsed 0) |];
      rewrite ?length_app in Htimes; simpl in Htimes; lia.
Qed.

(** X21. After [start_batch] and the loop of [main] over the futures of a
    batch, the statistics count every future that was read once: the
    successes are the scenes that [process_scene] reported as processed,
    everything else (a reported failure, a timeout, an exception of the
    worker) is a failure; the two counts add up to the number of futures
    read, which is the size of the batch unless a shutdown was requested;
    and no more times are recorded than successes. *)
Theorem run_batch_counts (now : Q) (shutdown : nat -> bool) (futures : list Future)
    (stats : BatchStatistics.t) :
  let stats' := run_batch now shutdown futures stats in
  let seen := examined shutdown 0 futures in
  BatchStatistics.total_scenes stats' = Z.of_nat (length futures) /\
  BatchStatistics.start_time stats' = Some now /\
  BatchStatistics.successful stats' = Z.of_nat (length (List.filter is_success seen)) /\
  BatchStatistics.successful stats' + BatchStatistics.failed stats'
    = Z.of_nat (length seen) /\
  0 <= BatchStatistics.failed stats' /\
  BatchStatistics.successful stats' + BatchStatistics.failed stats'
    <= BatchStatistics.total_scenes stats' /\
  ((forall k, shutdown k = false) ->
   BatchStatistics.successful stats' + BatchStatistics.failed stats'
     = BatchStatistics.total_scenes stats') /\
  Z.of_nat (length (BatchStatistics.scene_times stats'))
    <= BatchStatistics.successful stats'.
Proof.
  intros stats' seen. subst stats'. unfold run_batch.
  destruct (result_loop_counts shutdown futures 0%nat
              (BatchStatistics.start_batch now (Z.of_nat (length futures)) stats))
    as (Htotal & Hstart & Hok & Hko & Htimes).
  fold seen in Hok, Hko, Htimes. simpl in Htotal, Hstart, Hok, Hko, Htimes.
  pose proof (filter_length_le is_success seen) as Hle.
  pose proof (examined_length shutdown 0 futures) as Hseen. fold seen in Hseen.
  rewrite Htotal, Hstart, Hok, Hko.
  split; [reflexivity |]. split; [reflexivity |]. split; [reflexivity |].
  split; [lia |]. split; [lia |]. split; [lia |]. split; [| lia].
  intros Hnever. subst seen. rewrite (examined_all shutdown 0 futures Hnever) in *. lia.
Qed.

Lemma true_div_nonzero (a b : Q) : ~ (b == 0)%Q -> true_div a b = Ret (a / b)%Q.
Proof.
  intros Hb. unfold true_div. destruct (Qeq_bool b 0) eqn:E; [| reflexivity].
  now apply Qeq_bool_iff in E.
Qed.

Lemma inject_Z_nonzero (z : Z) : z <> 0 -> ~ (inject_Z z == 0)%Q.
Proof.
  intros Hz E. apply Hz. unfold Qeq in E. simpl in E. lia.
Qed.

(** X22. [get_summary] never divides by zero: before the first batch it
    answers that there are no statistics, afterwards it returns the
    numbers of the summary, whatever the counts are. The success rate is
    zero when nothing was processed and lies between 0 and 100 for counts
    that are not negative; the average time is zero when no time was
    recorded. *)
Theorem get_summary_total (now : Q) (self : BatchStatistics.t) :
  (BatchStatistics.start_time self = None ->
   BatchStatistics.get_summary now self = Ret None) /\
  (forall started,
     BatchStatistics.start_time self = Some started ->
     exists summary,
       BatchStatistics.get_summary now self = Ret (Some summary) /\
       BatchStatistics.elapsed summary = (now - started)%Q /\
       BatchStatistics.shown_successful summary = BatchStatistics.successful self /\
       BatchStatistics.shown_failed summary = BatchStatistics.failed self /\
       BatchStatistics.shown_total summary = BatchStatistics.total_scenes self /\
       (BatchStatistics.successful self + BatchStatistics.failed self <= 0 ->
        BatchStatistics.success_rate summary = 0%Q) /\
       (0 <= BatchStatistics.successful self -> 0 <= BatchStatistics.failed self ->
        (0 <= BatchStatistics.success_rate summary <= 100)%Q) /\
       (BatchStatistics.scene_times self = [] ->
        BatchStatistics.avg_time summary = 0%Q)).
Proof.
  unfold BatchStatistics.get_summary. split; [now intros -> |].
  intros started ->.
  set (total := BatchStatistics.successful self + BatchStatistics.failed self).
  assert (Hrate : exists rate,
             (if (0 <? total)%Z
              then match true_div (inject_Z (BatchStatistics.successful self))
                                  (inject_Z total) with
                   | Ret ratio => Ret (ratio * 100)%Q
                   | Raise e => Raise e
                   end
              else Ret 0%Q) = Ret rate /\
             (total <= 0 -> rate = 0%Q) /\
             (0 <= BatchStatistics.successful self -> 0 <= BatchStatistics.failed self ->
              (0 <= rate <= 100)%Q)).
  { destruct (Z.ltb_spec 0 total) as [Hpos | Hnone].
    - rewrite true_div_nonzero by (apply inject_Z_nonzero; lia).
      eexists. split; [reflexivity |]. split; [lia |]. intros Hok Hko.
      assert (Htotal : (0 < inject_Z total)%Q).
      { change 0%Q with (inject_Z 0). rewrite <- Zlt_Qlt. exact Hpos. }
      assert (Hlow : (0 <= inject_Z (BatchStatistics.successful self) / inject_Z total)%Q).
      { apply Qle_shift_div_l; [exact Htotal |]. rewrite Qmult_0_l.
        change 0%Q with (inject_Z 0). rewrite <- Zle_Qle. exact Hok. }
      assert (Hhigh : (inject_Z (BatchStatistics.successful self) / inject_Z total <= 1)%Q).
      { apply Qle_shift_div_r; [exact Htotal |]. rewrite Qmult_1_l.
        rewrite <- Zle_Qle. subst total. lia. }
      split; lra.
    - eexists. split; [reflexivity |]. split; [reflexivity |]. intros _ _. split; lra. }
  destruct Hrate as (rate & -> & Hzero & Hrange).
  assert (Haverage : exists average,
             match BatchStatistics.scene_times self with
             | [] => Ret 0%Q
             | _ :: _ =>
                 true_div (py_sum (BatchStatistics.scene_times self))
                   (inject_Z (Z.of_nat (length (BatchStatistics.scene_times self))))
             end = Ret average /\
             (BatchStatistics.scene_times self = [] -> average = 0%Q)).
  { destruct (BatchStatistics.scene_times self) as [| time times].
    - eexists. split; reflexivity.
    - rewrite true_div_nonzero by (apply inject_Z_nonzero; simpl; lia).
      eexists. split; [reflexivity | discriminate]. }
  destruct Haverage as (average & -> & Hnone).
  eexists. split; [reflexivity |]. simpl. repeat split; try assumption; try reflexivity;
    now apply Hrange.
Qed.

(** ** Durations in the summary *)

Lemma Qfloor_unique (x : Q) (n : Z) :
  (inject_Z n <= x < inject_Z n + 1)%Q -> Qfloor x = n.
Proof.
  intros [Hlo Hhi]. apply Z.le_antisymm.
  - apply Z.lt_succ_r. rewrite Zlt_Qlt.
    apply Qle_lt_trans with x; [apply Qfloor_le |].
    unfold Z.succ. rewrite inject_Z_plus. exact Hhi.
  - rewrite <- (Qfloor_Z n). now apply Qfloor_resp_le.
Qed.

Lemma Qfloor_div (x : Q) (d : Z) :
  0 < d -> Qfloor (x / inject_Z d) = Qfloor x / d.
Proof.
  intros Hd. apply Qfloor_unique.
  pose proof (Qfloor_le x) as Hlo. pose proof (Qlt_floor x) as Hhi.
  pose proof (Z.div_mod (Qfloor x) d ltac:(lia)) as Hdm.
  pose proof (Z.mod_pos_bound (Qfloor x) d Hd) as Hmod.
  assert (Hdpos : (0 < inject_Z d)%Q).
  { change 0%Q with (inject_Z 0). now rewrite <- Zlt_Qlt. }
  split.
  - apply Qle_shift_div_l; [exact Hdpos |].
    apply Qle_trans with (inject_Z (Qfloor x)); [| exact Hlo].
    rewrite <- inject_Z_mult, <- Zle_Qle. nia.
  - apply Qlt_shift_div_r; [exact Hdpos |].
    apply Qlt_le_trans with (inject_Z (Qfloor x + 1)); [exact Hhi |].
    change 1%Q with (inject_Z 1). rewrite <- inject_Z_plus, <- inject_Z_mult, <- Zle_Qle.
    nia.
Qed.

Lemma Qfloor_minus_Z (x : Q) (k : Z) : Qfloor (x - inject_Z k) = Qfloor x - k.
Proof.
  apply Qfloor_unique.
  pose proof (Qfloor_le x) as Hlo. pose proof (Qlt_floor x) as Hhi.
  rewrite inject_Z_plus in Hhi. change (inject_Z 1) with 1%Q in Hhi.
  unfold Z.sub. rewrite inject_Z_plus, inject_Z_opp. split; lra.
Qed.

Lemma py_int_inject_Z (z : Z) : py_int (inject_Z z) = z.
Proof. unfold py_int. simpl. apply Z.quot_1_r. Qed.

Lemma float_floordiv_int (x : Q) (d : Z) :
  0 < d -> py_int (float_floordiv x d) = Qfloor x / d.
Proof. intros Hd. unfold float_floordiv. now rewrite py_int_inject_Z, Qfloor_div. Qed.

Lemma float_mod_floor (x : Q) (d : Z) :
  0 < d -> Qfloor (float_mod x d) = Qfloor x mod d.
Proof.
  intros Hd. unfold float_mod, float_floordiv.
  rewrite <- inject_Z_mult, Qfloor_minus_Z, Qfloor_div by exact Hd.
  rewrite Z.mod_eq by lia. reflexivity.
Qed.

Lemma float_mod_int (x : Q) (d : Z) :
  0 < d -> py_int (float_mod x d) = Qfloor x mod d.
Proof.
  intros Hd. rewrite py_int_floor; [now apply float_mod_floor |].
  unfold float_mod, float_floordiv.
  pose proof (Qfloor_le (x / inject_Z d)) as Hlo.
  assert (Hdpos : (0 < inject_Z d)%Q).
  { change 0%Q with (inject_Z 0). now rewrite <- Zlt_Qlt. }
  assert (Hmul : (inject_Z d * inject_Z (Qfloor (x / inject_Z d))
                  <= inject_Z d * (x / inject_Z d))%Q).
  { apply Qmult_le_l; assumption. }
  assert (Hback : (inject_Z d * (x / inject_Z d) == x)%Q).
  { apply Qmult_div_r. intros E. rewrite E in Hdpos. now apply Qlt_irrefl in Hdpos. }
  lra.
Qed.

(** X23. From one minute on [_format_duration] prints whole numbers cut
    off, not rounded: below an hour the minutes (1 to 59) and the seconds
    (0 to 59) of the whole seconds, from an hour on the hours and the
    minutes (0 to 59), the seconds being dropped. *)
Theorem format_duration_parts (format_1f : Q -> string) (seconds : Q) :
  (60 <= seconds)%Q ->
  let whole := Qfloor seconds in
  ((seconds < 3600)%Q ->
   BatchStatistics._format_duration format_1f seconds
     = fmt_int 0 (whole / 60) ++ "m " ++ fmt_int 0 (whole mod 60) ++ "s" /\
   1 <= whole / 60 < 60 /\ 0 <= whole mod 60 < 60 /\
   whole = 60 * (whole / 60) + whole mod 60) /\
  ((3600 <= seconds)%Q ->
   BatchStatistics._format_duration format_1f seconds
     = fmt_int 0 (whole / 3600) ++ "h " ++ fmt_int 0 (whole mod 3600 / 60) ++ "m" /\
   1 <= whole / 3600 /\ 0 <= whole mod 3600 / 60 < 60 /\
   3600 * (whole / 3600) + 60 * (whole mod 3600 / 60) <= whole
     < 3600 * (whole / 3600) + 60 * (whole mod 3600 / 60) + 60).
Proof.
  intros Hminute whole.
  assert (Hbranch : Qle_bool 60 seconds = true) by now apply Qle_bool_iff.
  assert (Hwhole : 60 <= whole).
  { change 60 with (Qfloor (inject_Z 60)). now apply Qfloor_resp_le. }
  unfold BatchStatistics._format_duration, Qlt_bool. rewrite Hbranch.
  change (negb true) with false. cbv iota. split.
  - intros Hhour.
    assert (Hno : Qle_bool 3600 seconds = false).
    { apply not_true_is_false. rewrite Qle_bool_iff. lra. }
    rewrite Hno. change (negb false) with true. cbv iota.
    rewrite float_floordiv_int, float_mod_int by lia. fold whole.
    assert (Hlt : whole < 3600).
    { rewrite Zlt_Qlt. apply Qle_lt_trans with seconds; [apply Qfloor_le | exact Hhour]. }
    pose proof (Z.mod_pos_bound whole 60 ltac:(lia)) as Hmod.
    pose proof (Z.div_mod whole 60 ltac:(lia)) as Hdm.
    split; [reflexivity |]. split; [| split; [exact Hmod | exact Hdm]].
    split; [apply Z.div_le_lower_bound; lia | apply Z.div_lt_upper_bound; lia].
  - intros Hhour.
    assert (Hyes : Qle_bool 3600 seconds = true) by now apply Qle_bool_iff.
    rewrite Hyes. change (negb true) with false. cbv iota.
    rewrite !float_floordiv_int, float_mod_floor by lia. fold whole.
    assert (Hge : 3600 <= whole).
    { change 3600 with (Qfloor (inject_Z 3600)). now apply Qfloor_resp_le. }
    pose proof (Z.mod_pos_bound whole 3600 ltac:(lia)) as Hmod.
    pose proof (Z.div_mod whole 3600 ltac:(lia)) as Hdm.
    pose proof (Z.mod_pos_bound (whole mod 3600) 60 ltac:(lia)) as Hmod2.
    pose proof (Z.div_mod (whole mod 3600) 60 ltac:(lia)) as Hdm2.
    split; [reflexivity |]. split; [apply Z.div_le_lower_bound; lia |].
    split; [| lia].
    split; [apply Z.div_pos; lia | apply Z.div_lt_upper_bound; lia].
Qed.

Lemma format_duration_parts_witness :
  (60 <= 3725.9)%Q /\
  BatchStatistics._format_duration (fun _ => "") 3725.9 = "1h 2m" /\
  BatchStatistics._format_duration (fun _ => "") 119.99 = "1m 59s".
Proof.
  split; [vm_compute; discriminate |]. split.
  - destruct (format_duration_parts (fun _ => "") 3725.9) as [_ Hhours];
      [vm_compute; discriminate |].
    destruct Hhours as (Htext & _); [vm_compute; discriminate |].
    rewrite Htext. vm_compute. reflexivity.
  - destruct (format_duration_parts (fun _ => "") 119.99) as [Hminutes _];
      [vm_compute; discriminate |].
    destruct Hminutes as (Htext & _); [vm_compute; reflexivity |].
    rewrite Htext. vm_compute. reflexivity.
Defined.

(** ** The health checks *)

Lemma run_check_returns (name : string) (check : M (bool * string))
    (results : list (string * bool * string)) (flag : bool) st :
  exists passed message st1,
    run_check (name, check) (results, flag) st
    = (Ret ((results ++ [(name, passed, message)])%list, (flag && passed)%bool), st1) /\
    (passed = true -> fst (check st) = Ret (true, message)) /\
    fs st1 = fs (snd (check st)) /\
    requests st1 = requests (snd (check st)) /\
    tags st1 = tags (snd (check st)).
Proof.
  unfold run_check, try_except.
  destruct (check st) as [[[passed message] | e] st1] eqn:Hcheck.
  - exists passed, message,
      (with_event (Printed ((if passed then "passed " else "failed ")
                             ++ name ++ ": " ++ message)) st1).
    split.
    + erewrite bind_ret_run; [| exact Hcheck]. cbv beta iota.
      erewrite bind_ret_run; [| reflexivity]. unfold ret.
      destruct passed, flag; reflexivity.
    + split; [now intros -> | repeat split].
  - exists false, (exn_text e),
      (with_event (Printed ("failed " ++ name ++ ": Unexpected error - " ++ exn_text e))
         st1).
    split.
    + erewrite bind_raise_run; [| exact Hcheck].
      erewrite bind_ret_run; [| reflexivity]. unfold ret.
      now rewrite andb_false_r.
    + split; [discriminate | repeat split].
Qed.

Lemma run_checks_returns (checks : list (string * M (bool * string))) :
  forall results flag st,
    exists entries st',
      run_checks checks (results, flag) st
      = (Ret ((results ++ entries)%list, (flag && forallb entry_passed entries)%bool), st') /\
      map entry_name entries = map fst checks.
Proof.
  induction checks as [| [name check] rest IH]; intros results flag st.
  - exists [], st. simpl. now rewrite app_nil_r, andb_true_r.
  - destruct (run_check_returns name check results flag st)
      as (passed & message & st1 & Hstep & _).
    destruct (IH (results ++ [(name, passed, message)])%list (flag && passed)%bool st1)
      as (entries & st' & Hrest & Hnames).
    exists ((name, passed, message) :: entries), st'. split.
    + simpl run_checks. erewrite bind_ret_run; [| exact Hstep].
      rewrite Hrest, <- app_assoc. simpl. now rewrite andb_assoc.
    + simpl. now rewrite Hnames.
Qed.

(** X24. [run_health_check] never raises, whatever the checks do: a check
    that raises counts as failed. It returns one result per check, in
    the order of the checks (five, and the VAAPI check when a device is
    given), and [all_passed] holds exactly when every result passed. *)
Theorem run_health_check_total (W : World) (config : Config.t) (H : Host)
    (vaapi_device : option string) (st : State) :
  exists all_passed results st',
    run_health_check W config H vaapi_device st = (Ret (all_passed, results), st') /\
    all_passed = forallb entry_passed results /\
    map entry_name results =
      (["Stash API Connection"; "Videohashes Binary"; "FFmpeg/FFprobe"; "Output Paths";
        "Temp Directory"] ++
       match truthy_string vaapi_device with
       | Some _ => ["VAAPI Device"]
       | None => []
       end)%list.
Proof.
  unfold run_health_check.
  destruct (run_checks_returns (health_checks W config H vaapi_device) [] true
              (with_event (Printed "Running Health Checks...") st))
    as (entries & st1 & Hrun & Hnames).
  exists (forallb entry_passed entries), entries. eexists.
  split; [| split; [reflexivity |]].
  - erewrite bind_ret_run; [| reflexivity].
    erewrite bind_ret_run; [| exact Hrun]. cbv beta iota. simpl andb.
    erewrite bind_ret_run; reflexivity.
  - rewrite Hnames. unfold health_checks. rewrite map_app. simpl.
    destruct (truthy_string vaapi_device); reflexivity.
Qed.

Section PassedChecks.
Variable W : World.
Variable config : Config.t.
Variable H : Host.

Lemma check_stash_connection_passed st message :
  fst (check_stash_connection W st) = Ret (true, message) ->
  request_ok W (requests st) = true.
Proof.
  unfold check_stash_connection, try_except, bind, catalog_request, ret.
  destruct (request_ok W (requests st)); [reflexivity | discriminate].
Qed.

Lemma check_stash_connection_fs st : fs (snd (check_stash_connection W st)) = fs st.
Proof.
  unfold check_stash_connection, try_except, bind, catalog_request, ret.
  destruct (request_ok W (requests st)); reflexivity.
Qed.

Lemma check_binary_exists_passed st message :
  fst (check_binary_exists config H st) = Ret (true, message) ->
  Config.binary config ∈ fs st /\ access_x H (Config.binary config) = true.
Proof.
  unfold check_binary_exists, bind, path_exists, ret.
  destruct (bool_decide (Config.binary config ∈ fs st)) eqn:E; simpl; [| discriminate].
  apply bool_decide_eq_true in E.
  destruct (access_x H (Config.binary config)); simpl; [now split | discriminate].
Qed.

Lemma check_binary_exists_state st : snd (check_binary_exists config H st) = st.
Proof.
  unfold check_binary_exists, bind, path_exists, ret.
  destruct (bool_decide _); simpl; [| reflexivity].
  destruct (access_x H _); reflexivity.
Qed.

Lemma check_ffmpeg_available_passed st message :
  fst (check_ffmpeg_available config H st) = Ret (true, message) ->
  version_failure H (Config.ffmpeg config) = None /\
  version_failure H (Config.ffprobe config) = None.
Proof.
  unfold check_ffmpeg_available, try_except, bind, host_call, raise, ret.
  destruct (version_failure H (Config.ffmpeg config)) as [e |].
  - destruct e; discriminate.
  - destruct (version_failure H (Config.ffprobe config)) as [e |]; [| now split].
    destruct e; discriminate.
Qed.

Lemma check_ffmpeg_available_state st : snd (check_ffmpeg_available config H st) = st.
Proof.
  unfold check_ffmpeg_available, try_except, bind, host_call, raise, ret.
  destruct (version_failure H (Config.ffmpeg config)) as [e |].
  - destruct e; reflexivity.
  - destruct (version_failure H (Config.ffprobe config)) as [e |]; [| reflexivity].
    destruct e; reflexivity.
Qed.

Lemma check_paths_passed (paths : list (string * string)) st message :
  fst (check_paths H paths st) = Ret (true, message) ->
  forall name path, In (name, path) paths -> path ∈ fs st /\ access_w H path = true.
Proof.
  induction paths as [| [n p] rest IH]; intros Hpass name path Hin; [destruct Hin |].
  simpl in Hpass. unfold bind, path_exists in Hpass.
  destruct (bool_decide (p ∈ fs st)) eqn:E; simpl in Hpass; [| discriminate].
  apply bool_decide_eq_true in E.
  destruct (access_w H p) eqn:Hw; simpl in Hpass; [| discriminate].
  destruct Hin as [[= <- <-] | Hin]; [now split | exact (IH Hpass name path Hin)].
Qed.

Lemma check_paths_state (paths : list (string * string)) st :
  snd (check_paths H paths st) = st.
Proof.
  induction paths as [| [n p] rest IH]; [reflexivity |].
  simpl. unfold bind, path_exists.
  destruct (bool_decide (p ∈ fs st)); simpl; [| reflexivity].
  destruct (access_w H p); simpl; [exact IH | reflexivity].
Qed.

Lemma check_temp_directory_passed st message :
  fst (check_temp_directory H st) = Ret (true, message) ->
  makedirs_failure H (tmp_dir H) = None /\
  open_failure H (path_join (tmp_dir H) "health_check_test") = None /\
  remove_failure H (path_join (tmp_dir H) "health_check_test") = None /\
  fs (snd (check_temp_directory H st))
  = ({[path_join (tmp_dir H) "health_check_test"]} ∪ ({[tmp_dir H]} ∪ fs st))
      ∖ {[path_join (tmp_dir H) "health_check_test"]}.
Proof.
  unfold check_temp_directory, tmp_dir, try_except, bind, host_call, raise, ret,
    create_path, remove_path.
  destruct (makedirs_failure H _); [discriminate |].
  destruct (open_failure H _); [discriminate |].
  destruct (remove_failure H _); [discriminate |]. intros _. now repeat split.
Qed.

Lemma check_vaapi_device_passed device st message :
  device <> "" ->
  Config.windows config = false ->
  fst (check_vaapi_device config H (Some device) st) = Ret (true, message) ->
  device ∈ fs st /\ access_rw H device = true.
Proof.
  intros Hsome Hlinux. unfold check_vaapi_device, truthy_string.
  apply String.eqb_neq in Hsome. rewrite Hsome, Hlinux. simpl.
  unfold bind, path_exists, ret.
  destruct (bool_decide (device ∈ fs st)) eqn:E; simpl; [| discriminate].
  apply bool_decide_eq_true in E.
  destruct (access_rw H device); simpl; [now split | discriminate].
Qed.

End PassedChecks.

Lemma run_checks_cons (name : string) (check : M (bool * string))
    (rest : list (string * M (bool * string)))
    (results : list (string * bool * string)) (flag : bool) st :
  exists passed message st1,
    run_checks ((name, check) :: rest) (results, flag) st
    = run_checks rest ((results ++ [(name, passed, message)])%list, (flag && passed)%bool)
        st1 /\
    (passed = true -> fst (check st) = Ret (true, message)) /\
    fs st1 = fs (snd (check st)) /\
    requests st1 = requests (snd (check st)).
Proof.
  destruct (run_check_returns name check results flag st)
    as (passed & message & st1 & Hstep & Hpass & Hfs & Hreq & _).
  exists passed, message, st1. split; [| now repeat split].
  simpl run_checks. erewrite bind_ret_run; [reflexivity | exact Hstep].
Qed.

Lemma run_checks_flag checks results flag st results' st' :
  run_checks checks (results, flag) st = (Ret (results', true), st') -> flag = true.
Proof.
  destruct (run_checks_returns checks results flag st) as (entries & st1 & Hrun & _).
  rewrite Hrun. intros [= _ Hflag _]. now apply andb_true_iff in Hflag.
Qed.

(** The next check of a run of [run_checks] that ends with the flag up:
    the check passed. *)
Ltac next_check Hall m s Hp Hfs :=
  lazymatch type of Hall with
  | run_checks ((?name, ?check) :: ?rest) (?results, ?flag) ?st = _ =>
      let p := fresh "passed" in
      let Hq := fresh "Hq" in
      let E := fresh "E" in
      destruct (run_checks_cons name check rest results flag st)
        as (p & m & s & Hq & Hp & Hfs & _);
      rewrite Hq in Hall; clear Hq;
      pose proof (run_checks_flag _ _ _ _ _ _ Hall) as E; simpl in E; subst p;
      specialize (Hp eq_refl); simpl andb in Hall
  end.

(** X25. When [run_health_check] reports that all checks passed, then at
    the time of the check the catalog answered, the hashing binary
    existed and was executable, [ffmpeg -version] and [ffprobe -version]
    ran, every enabled output directory existed and was writable, and the
    scratch directory could be made and written to; on Linux a VAAPI
    device that was handed in exists and can be read and written. *)
Theorem passed_health_check (W : World) (config : Config.t) (H : Host)
    (vaapi_device : option string) (st st' : State)
    (results : list (string * bool * string)) :
  run_health_check W config H vaapi_device st = (Ret (true, results), st') ->
  request_ok W (requests st) = true /\
  (Config.binary config ∈ fs st /\ access_x H (Config.binary config) = true) /\
  (version_failure H (Config.ffmpeg config) = None /\
   version_failure H (Config.ffprobe config) = None) /\
  (Config.generate_sprite config = true ->
   Config.sprite_path config ∈ fs st /\ access_w H (Config.sprite_path config) = true) /\
  (Config.generate_preview config = true ->
   Config.preview_path config ∈ fs st /\ access_w H (Config.preview_path config) = true) /\
  makedirs_failure H (tmp_dir H) = None /\
  tmp_dir H ∈ fs st' /\
  (forall device,
     truthy_string vaapi_device = Some device -> Config.windows config = false ->
     device ∈ fs st' /\ access_rw H device = true).
Proof.
  unfold run_health_check. intros Hrun.
  set (st0 := with_event (Printed "Running Health Checks...") st) in *.
  erewrite bind_ret_run in Hrun; [| reflexivity]. fold st0 in Hrun.
  destruct (run_checks_returns (health_checks W config H vaapi_device) [] true st0)
    as (entries & st6 & Hall & _).
  erewrite bind_ret_run in Hrun; [| exact Hall]. cbv beta iota in Hrun.
  erewrite bind_ret_run in Hrun; [| reflexivity]. unfold ret in Hrun.
  injection Hrun as Hflag Hresults Hst'. simpl in Hflag.
  rewrite Hflag in Hall. clear Hflag. subst results.
  assert (Hfs' : fs st' = fs st6) by now subst st'.
  clear Hst'. unfold health_checks in Hall. simpl app in Hall.
  (* the five checks, one after the other *)
  simpl andb in Hall.
  next_check Hall m1 s1 Hp1 Hfs1.
  next_check Hall m2 s2 Hp2 Hfs2.
  next_check Hall m3 s3 Hp3 Hfs3.
  next_check Hall m4 s4 Hp4 Hfs4.
  next_check Hall m5 s5 Hp5 Hfs5.
  (* the file system at each check *)
  rewrite check_stash_connection_fs in Hfs1.
  rewrite check_binary_exists_state in Hfs2.
  rewrite check_ffmpeg_available_state in Hfs3.
  unfold check_output_paths in Hfs4, Hp4. rewrite check_paths_state in Hfs4.
  assert (Hsame : forall p, p ∈ fs s3 <-> p ∈ fs st).
  { intros p. now rewrite Hfs3, Hfs2, Hfs1. }
  apply check_stash_connection_passed in Hp1.
  apply check_binary_exists_passed in Hp2.
  apply check_ffmpeg_available_passed in Hp3.
  pose proof (check_paths_passed H _ _ _ Hp4) as Hpaths.
  apply check_temp_directory_passed in Hp5 as (Hmk & _ & _ & Htmp).
  rewrite Htmp in Hfs5.
  assert (Hdir5 : tmp_dir H ∈ fs s5).
  { rewrite Hfs5, elem_of_difference, !elem_of_union, !elem_of_singleton.
    split; [tauto |]. unfold path_join. intros E.
    apply (f_equal String.length) in E. rewrite string_length_app in E.
    simpl in E. lia. }
  split; [exact Hp1 |].
  split; [split; [destruct Hp2 as [Hin _]; rewrite Hfs1 in Hin; exact Hin | apply Hp2] |].
  split; [exact Hp3 |].
  split.
  { intros Hon. destruct (Hpaths "Sprite path" (Config.sprite_path config)) as [Hin Hw].
    - unfold output_paths. rewrite Hon. now left.
    - split; [now apply Hsame | exact Hw]. }
  split.
  { intros Hon. destruct (Hpaths "Preview path" (Config.preview_path config)) as [Hin Hw].
    - unfold output_paths. rewrite Hon. apply in_or_app. right. now left.
    - split; [now apply Hsame | exact Hw]. }
  split; [exact Hmk |].
  destruct (truthy_string vaapi_device) as [device |] eqn:Hdevice.
  - next_check Hall m6 s6 Hp6 Hfs6. simpl in Hall. injection Hall as _ <-.
    assert (Hstate6 : fs s6 = fs s5).
    { rewrite Hfs6. unfold check_vaapi_device. rewrite Hdevice.
      destruct (negb (Config.windows config)); [| reflexivity].
      unfold bind, path_exists, ret.
      destruct (bool_decide _); simpl; [| reflexivity].
      destruct (access_rw H device); reflexivity. }
    rewrite Hfs', Hstate6. split; [exact Hdir5 |].
    intros d [= <-] Hlinux.
    assert (Hgiven : vaapi_device = Some device /\ device <> "").
    { destruct vaapi_device as [v |]; [| discriminate]. simpl in Hdevice.
      destruct (String.eqb_spec v ""); [discriminate |].
      injection Hdevice as <-. now split. }
    destruct Hgiven as [-> Hsome].
    now apply (check_vaapi_device_passed config H device s5 m6).
  - simpl in Hall. injection Hall as _ <-.
    rewrite Hfs'. split; [exact Hdir5 | discriminate].
Qed.

Lemma passed_health_check_witness :
  exists results st',
    run_health_check calm_world default_config linux_host None installed
      = (Ret (true, results), st') /\
    Config.binary default_config ∈ fs installed /\
    Config.sprite_path default_config ∈ fs installed /\
    tmp_dir linux_host ∈ fs st'.
Proof.
  destruct (run_health_check calm_world default_config linux_host None installed)
    as [[[[|] results] | e] st'] eqn:Hrun.
  - exists results, st'. split; [reflexivity |].
    destruct (passed_health_check calm_world default_config linux_host None installed
                st' results Hrun) as (_ & [Hbinary _] & _ & Hsprite & _ & _ & Htmp & _).
    split; [exact Hbinary |]. split; [apply Hsprite; reflexivity | exact Htmp].
  - vm_compute in Hrun. discriminate.
  - vm_compute in Hrun. discriminate.
Defined.

(** Without ffprobe the third check fails and the others still run. *)
Example health_check_without_ffprobe :
  match run_health_check calm_world default_config probeless_host None installed with
  | (Ret (all_passed, results), _) => (all_passed, map entry_passed results)
  | (Raise _, _) => (true, [])
  end = (false, [true; true; false; true; true]).
Proof. vm_compute. reflexivity. Qed.

(** ** The scratch directory between two batches *)

Lemma path_join_longer (dir name : string) : path_join dir name <> dir.
Proof.
  unfold path_join. intros E. apply (f_equal String.length) in E.
  rewrite string_length_app in E. simpl in E. lia.
Qed.

Lemma clean_temp_dirs_run (config : Config.t) (H : Host) (recreate : bool) st :
  exists st',
    clean_temp_dirs config H recreate st = (Ret tt, st') /\
    fs st' =
      (if (recreate && match makedirs_failure H (tmp_dir H) with
                       | None => true
                       | Some _ => false
                       end)%bool
       then {[tmp_dir H]} else ∅)
      ∪ (if (bool_decide (tmp_dir H ∈ fs st) &&
             match rmtree_failure H (tmp_dir H) with
             | None => true
             | Some _ => false
             end)%bool
         then rmtree (tmp_dir H) (fs st) else fs st) /\
    tags st' = tags st /\ requests st' = requests st.
Proof.
  unfold clean_temp_dirs, bind, path_exists, when, try_except, host_call, remove_tree,
    create_path, raise, ret, print, emit.
  destruct (bool_decide (tmp_dir H ∈ fs st)); simpl;
    destruct (rmtree_failure H (tmp_dir H)); simpl;
    destruct (Config.verbose config); simpl;
    destruct recreate; simpl;
    destruct (makedirs_failure H (tmp_dir H)); simpl;
    eexists; (split; [reflexivity |]); (split; [| split; reflexivity]); simpl;
    rewrite ?union_empty_l_L; reflexivity.
Qed.

(** X26. [clean_temp_dirs] never raises, also when the removal or the
    making of the directory fails; it sends nothing to the catalog, leaves
    every path outside [.tmp] as it was, and adds no path but [.tmp]
    itself. *)
Theorem clean_temp_dirs_effect (config : Config.t) (H : Host) (recreate : bool)
    (st : State) :
  let run := clean_temp_dirs config H recreate st in
  fst run = Ret tt /\
  tags (snd run) = tags st /\ requests (snd run) = requests st /\
  (forall p, is_under (tmp_dir H) p = false -> (p ∈ fs (snd run) <-> p ∈ fs st)) /\
  (forall p, p ∈ fs (snd run) -> p ∈ fs st \/ (p = tmp_dir H /\ recreate = true)).
Proof.
  intros run. subst run.
  destruct (clean_temp_dirs_run config H recreate st) as (st' & Hrun & Hfs & Htags & Hreq).
  rewrite Hrun. simpl. split; [reflexivity |]. split; [exact Htags |].
  split; [exact Hreq |]. split.
  - intros p Hout. rewrite Hfs, elem_of_union.
    assert (Hnot : p <> tmp_dir H).
    { intros ->. now rewrite is_under_self in Hout. }
    split.
    + intros [Hnew | Hold].
      * destruct (recreate && _)%bool;
          [apply elem_of_singleton in Hnew; contradiction
          | now apply not_elem_of_empty in Hnew].
      * destruct (bool_decide _ && _)%bool; [| exact Hold].
        now apply elem_of_rmtree in Hold.
    + intros Hold. right. destruct (bool_decide _ && _)%bool; [| exact Hold].
      apply elem_of_rmtree. now split.
  - intros p. rewrite Hfs, elem_of_union. intros [Hnew | Hold].
    + destruct recreate; simpl in Hnew; [| now apply not_elem_of_empty in Hnew].
      destruct (makedirs_failure H (tmp_dir H));
        [now apply not_elem_of_empty in Hnew |].
      apply elem_of_singleton in Hnew. now right.
    + left. destruct (bool_decide _ && _)%bool; [| exact Hold].
      now apply elem_of_rmtree in Hold.
Qed.

(** X27. When the removal works, [clean_temp_dirs] leaves nothing below
    [.tmp]: of the paths at or below it only the directory itself can
    exist afterwards, and only when it is made again; the scratch
    directory of a generator, a directory of [.tmp], is gone. The paths
    below [.tmp] are taken to exist only while [.tmp] does. *)
Theorem clean_temp_dirs_empties (config : Config.t) (H : Host) (recreate : bool)
    (st : State) :
  rmtree_failure H (tmp_dir H) = None ->
  (forall p, is_under (tmp_dir H) p = true -> p ∈ fs st -> tmp_dir H ∈ fs st) ->
  let st' := snd (clean_temp_dirs config H recreate st) in
  (forall p, is_under (tmp_dir H) p = true -> p ∈ fs st' ->
             p = tmp_dir H /\ recreate = true) /\
  (recreate = true -> makedirs_failure H (tmp_dir H) = None -> tmp_dir H ∈ fs st') /\
  (forall name, path_join (tmp_dir H) name ∉ fs st').
Proof.
  intros Hworks Hparent st'. subst st'.
  destruct (clean_temp_dirs_run config H recreate st) as (st' & Hrun & Hfs & _).
  rewrite Hrun. simpl. rewrite Hworks, andb_true_r in Hfs.
  assert (Hbelow : forall p, is_under (tmp_dir H) p = true -> p ∈ fs st' ->
                             p = tmp_dir H /\ recreate = true).
  { intros p Hin. rewrite Hfs, elem_of_union. intros [Hnew | Hold].
    - destruct recreate; simpl in Hnew; [| now apply not_elem_of_empty in Hnew].
      destruct (makedirs_failure H (tmp_dir H));
        [now apply not_elem_of_empty in Hnew |].
      apply elem_of_singleton in Hnew. now split.
    - destruct (bool_decide (tmp_dir H ∈ fs st)) eqn:E.
      + apply elem_of_rmtree in Hold as [Hout _]. congruence.
      + apply bool_decide_eq_false in E. exfalso. apply E. now apply (Hparent p). }
  split; [exact Hbelow |]. split.
  - intros -> Hmake. rewrite Hfs, Hmake. simpl.
    apply elem_of_union_l. now apply elem_of_singleton.
  - intros name Hin.
    destruct (Hbelow _ (is_under_join _ _) Hin) as [Hsame _].
    now apply path_join_longer in Hsame.
Qed.

Lemma clean_temp_dirs_empties_witness :
  rmtree_failure linux_host (tmp_dir linux_host) = None /\
  (let st := {| tags := ∅;
                fs := {["/opt/node/.tmp"; "/opt/node/.tmp/preview_temp_0f1e2d3c";
                        "/mnt/xerxes/a.mp4"]};
                trace := []; requests := 0 |} in
   PreviewVideoGenerator.temp_dir config_preview ∈ fs st /\
   (PreviewVideoGenerator.temp_dir config_preview
      ∉ fs (snd (clean_temp_dirs default_config linux_host true st))) /\
   tmp_dir linux_host ∈ fs (snd (clean_temp_dirs default_config linux_host true st))).
Proof.
  split; [reflexivity |]. cbv zeta.
  split; [vm_compute; reflexivity |].
  destruct (clean_temp_dirs_empties default_config linux_host true
              {| tags := ∅;
                 fs := {["/opt/node/.tmp"; "/opt/node/.tmp/preview_temp_0f1e2d3c";
                         "/mnt/xerxes/a.mp4"]};
                 trace := []; requests := 0 |}) as (_ & Hmade & Hgone).
  - reflexivity.
  - intros p _ _. vm_compute. reflexivity.
  - split; [exact (Hgone "preview_temp_0f1e2d3c") | now apply Hmade].
Defined.

(** ** No failure of a tool leaves process_scene *)

#[local] Instance later_preorder : PreOrder later.
Proof. split; [intros st; apply Nat.le_refl | intros a b c; apply Nat.le_trans]. Qed.

Lemma same_requests_later st st' : requests st' = requests st -> later st st'.
Proof. unfold later. lia. Qed.

Lemma later_emit e : preserves later (emit e).
Proof. intros st. now apply same_requests_later. Qed.

Lemma later_print msg : preserves later (print msg).
Proof. apply later_emit. Qed.

Lemma later_create_path p : preserves later (create_path p).
Proof. intros st. now apply same_requests_later. Qed.

Lemma later_remove_path p : preserves later (remove_path p).
Proof. intros st. now apply same_requests_later. Qed.

Lemma later_remove_tree p : preserves later (remove_tree p).
Proof. intros st. now apply same_requests_later. Qed.

Lemma later_catalog_request W : preserves later (catalog_request W).
Proof.
  intros st. unfold later, catalog_request.
  destruct (request_ok W (requests st)); simpl; lia.
Qed.

Lemma later_update_scenes W scene tag mode : preserves later (update_scenes W scene tag mode).
Proof.
  intros st. unfold later. rewrite update_scenes_run.
  destruct (request_ok W (requests st)); simpl; lia.
Qed.

Create HintDb later.
#[local] Hint Resolve later_emit later_print later_create_path later_remove_path
  later_remove_tree later_catalog_request later_update_scenes : later.

Ltac later := repeat first [solve [auto with later] | preserves_step].

Lemma later_generate_preview W self :
  preserves later (PreviewVideoGenerator.generate_preview W self).
Proof.
  unfold PreviewVideoGenerator.generate_preview,
    PreviewVideoGenerator.clean_previous_clips,
    PreviewVideoGenerator.generate_clips,
    PreviewVideoGenerator.concatenate_clips,
    PreviewVideoGenerator.get_video_duration.
  later. unfold PreviewVideoGenerator.extract_clip. later.
Qed.

Lemma later_generate_sprite W self :
  preserves later (VideoSpriteGenerator.generate_sprite W self).
Proof.
  unfold VideoSpriteGenerator.generate_sprite,
    VideoSpriteGenerator.take_screenshots,
    VideoSpriteGenerator.create_sprite,
    VideoSpriteGenerator.clean_up,
    VideoSpriteGenerator.clean_previous_files,
    VideoSpriteGenerator.get_video_duration.
  later;
    unfold VideoSpriteGenerator.extract_and_resize, VideoSpriteGenerator.write_cue;
    later.
Qed.

#[local] Hint Resolve later_generate_preview later_generate_sprite : later.

Lemma accepts_later W st st' :
  later st st' -> accepts_from W (requests st) -> accepts_from W (requests st').
Proof. intros Hle Hacc k Hk. apply Hacc. unfold later in Hle. lia. Qed.

Section Returns.
Variable W : World.

Lemma returns_ret {A} (a : A) : returns W (ret a).
Proof. intros st _. now exists a, st. Qed.

Lemma returns_bind {A B} (m : M A) (k : A -> M B) :
  returns W m -> preserves later m -> (forall a, returns W (k a)) ->
  returns W (bind m k).
Proof.
  intros Hm Hlater Hk st Hacc. destruct (Hm st Hacc) as (a & st1 & Hrun).
  specialize (Hlater st). rewrite Hrun in Hlater. simpl in Hlater.
  destruct (Hk a st1 (accepts_later W st st1 Hlater Hacc)) as (b & st2 & Hrest).
  exists b, st2. erewrite bind_ret_run; [exact Hrest | exact Hrun].
Qed.

Lemma returns_try_except {A} (body : M A) (handler : exn -> M A) :
  preserves later body -> (forall e, returns W (handler e)) ->
  returns W (try_except body handler).
Proof.
  intros Hlater Hh st Hacc. unfold try_except. specialize (Hlater st).
  destruct (body st) as [[a | e] st1]; simpl in Hlater; [now exists a, st1 |].
  apply Hh. exact (accepts_later W st st1 Hlater Hacc).
Qed.

Lemma returns_try_finally {A} (body : M A) (final : M unit) :
  returns W body -> preserves later body -> returns W final ->
  returns W (try_finally body final).
Proof.
  intros Hb Hlater Hf st Hacc. unfold try_finally.
  destruct (Hb st Hacc) as (a & st1 & Hrun). specialize (Hlater st).
  rewrite Hrun in *. simpl in Hlater.
  destruct (Hf st1 (accepts_later W st st1 Hlater Hacc)) as ([] & st2 & Hfinal).
  rewrite Hfinal. now exists a, st2.
Qed.

Lemma returns_when (b : bool) (m : M unit) : returns W m -> returns W (when b m).
Proof. intros Hm. destruct b; [exact Hm | apply returns_ret]. Qed.

Lemma returns_emit e : returns W (emit e).
Proof. intros st _. now eexists _, _. Qed.

Lemma returns_print msg : returns W (print msg).
Proof. apply returns_emit. Qed.

Lemma returns_create_path p : returns W (create_path p).
Proof. intros st _. now eexists _, _. Qed.

Lemma returns_remove_tree p : returns W (remove_tree p).
Proof. intros st _. now eexists _, _. Qed.

Lemma returns_path_exists p : returns W (path_exists p).
Proof. intros st _. now eexists _, _. Qed.

Lemma returns_update_scenes scene tag mode : returns W (update_scenes W scene tag mode).
Proof.
  intros st Hacc. rewrite update_scenes_run, (Hacc (requests st)) by lia.
  now eexists _, _.
Qed.

End Returns.

(** One step of a proof that a computation returns under an accepting
    catalog; the side conditions on the requests are solved on the way. *)
Ltac returns_step :=
  lazymatch goal with
  | |- returns _ (bind _ _) => apply returns_bind; [ | solve [later] | intros ?]
  | |- returns _ (ret _) => apply returns_ret
  | |- returns _ (try_except _ _) => apply returns_try_except; [solve [later] | intros ?]
  | |- returns _ (try_finally _ _) => apply returns_try_finally; [ | solve [later] | ]
  | |- returns _ (when _ _) => apply returns_when
  | |- returns _ (emit _) => apply returns_emit
  | |- returns _ (print _) => apply returns_print
  | |- returns _ (create_path _) => apply returns_create_path
  | |- returns _ (remove_tree _) => apply returns_remove_tree
  | |- returns _ (path_exists _) => apply returns_path_exists
  | |- returns _ (update_scenes _ _ _ _) => apply returns_update_scenes
  | |- returns _ (if ?b then _ else _) => destruct b
  | |- returns _ (match ?x with _ => _ end) => destruct x
  end.

Lemma returns_tag_scene_error W scene tag msg :
  returns W (tag_scene_error W scene tag msg).
Proof. unfold tag_scene_error. repeat returns_step. Qed.

Lemma later_tag_scene_error W scene tag msg :
  preserves later (tag_scene_error W scene tag msg).
Proof. unfold tag_scene_error. later. Qed.

#[local] Hint Resolve later_tag_scene_error : later.

Lemma returns_failure_handler W scene step tag msg :
  returns W (log_scene_failure scene step ;;
             tag_scene_error W scene tag msg ;;
             ret false).
Proof.
  unfold log_scene_failure.
  repeat first [apply returns_tag_scene_error | returns_step].
Qed.

Lemma returns_phash_step W scene file filename :
  returns W (phash_step W scene file filename).
Proof.
  unfold phash_step, update_phash.
  repeat first [apply returns_failure_handler | returns_step].
Qed.

Lemma returns_cover_step W scene filename filehash :
  returns W (cover_step W scene filename filehash).
Proof.
  unfold cover_step, update_cover, run_cover_ffmpeg, log_scene_failure.
  repeat first [apply returns_tag_scene_error | returns_step].
Qed.

Lemma returns_sprite_step W scene filename filehash vaapi :
  returns W (sprite_step W scene filename filehash vaapi).
Proof.
  unfold sprite_step.
  repeat first [apply returns_failure_handler | returns_step].
Qed.

Lemma returns_preview_step W scene filename filehash vaapi :
  returns W (preview_step W scene filename filehash vaapi).
Proof.
  unfold preview_step.
  repeat first [apply returns_failure_handler | returns_step].
Qed.

Lemma later_pipeline_steps W :
  (forall scene file filename, preserves later (phash_step W scene file filename)) /\
  (forall scene filename filehash, preserves later (cover_step W scene filename filehash)) /\
  (forall scene filename filehash vaapi,
     preserves later (sprite_step W scene filename filehash vaapi)) /\
  (forall scene filename filehash vaapi,
     preserves later (preview_step W scene filename filehash vaapi)).
Proof.
  split; [| split; [| split]]; intros;
    unfold phash_step, cover_step, sprite_step, preview_step, update_phash,
      update_cover, run_cover_ffmpeg, log_scene_failure;
    later.
Qed.

Lemma returns_pipeline W scene file filename filehash vaapi :
  returns W (pipeline W scene file filename filehash vaapi).
Proof.
  destruct (later_pipeline_steps W) as (Hphash & Hcover & Hsprite & Hpreview).
  unfold pipeline.
  apply returns_bind; [apply returns_phash_step | apply Hphash | intros hashed].
  apply returns_bind; [apply returns_cover_step | apply Hcover | intros _].
  apply returns_bind; [apply returns_sprite_step | apply Hsprite | intros sprite_ok].
  apply returns_bind; [apply returns_preview_step | apply Hpreview | intros preview_ok].
  apply returns_ret.
Qed.

Lemma later_pipeline W scene file filename filehash vaapi :
  preserves later (pipeline W scene file filename filehash vaapi).
Proof.
  destruct (later_pipeline_steps W) as (Hphash & Hcover & Hsprite & Hpreview).
  unfold pipeline.
  apply preserves_bind; [exact _ | apply Hphash | intros hashed].
  apply preserves_bind; [exact _ | apply Hcover | intros _].
  apply preserves_bind; [exact _ | apply Hsprite | intros sprite_ok].
  apply preserves_bind; [exact _ | apply Hpreview | intros preview_ok].
  apply preserves_ret. exact _.
Qed.

#[local] Hint Resolve later_pipeline : later.



(** ** A failure of the hashing binary *)

Lemma frame_pipeline_steps W :
  (forall scene filename filehash,
     preserves (touches_only (scene_id scene)) (cover_step W scene filename filehash)) /\
  (forall scene filename filehash vaapi,
     preserves (touches_only scene) (sprite_step W scene filename filehash vaapi)) /\
  (forall scene filename filehash vaapi,
     preserves (touches_only scene) (preview_step W scene filename filehash vaapi)).
Proof.
  split; [| split]; intros;
    unfold cover_step, sprite_step, preview_step, update_cover, run_cover_ffmpeg,
      log_scene_failure;
    frame.
Qed.

Lemma phash_step_fails W scene file filename e st :
  dry_run W = false ->
  videohash W filename = Raise e ->
  accepts_from W (requests st) ->
  exists st',
    phash_step W scene file filename st = (Ret false, st') /\
    hashing_error_tag ∈ scene_tags st' scene /\
    later st st'.
Proof.
  intros Hdry Hhash Hacc. unfold phash_step. rewrite Hdry, Hhash.
  unfold try_except. erewrite bind_raise_run; [| reflexivity].
  unfold log_scene_failure. erewrite bind_ret_run; [| reflexivity].
  set (st1 := with_event (LogFailure scene "hashing") st).
  pose proof (tag_scene_error_run W scene hashing_error_tag (Some (exn_text e)) st1 Hdry
                (Hacc _ (Nat.le_refl _)) (Hacc _ (Nat.le_succ_diag_r _))) as Hret.
  pose proof (tag_scene_error_tags W scene hashing_error_tag (Some (exn_text e)) st1 Hdry
                Hret) as Htags.
  pose proof (later_tag_scene_error W scene hashing_error_tag (Some (exn_text e)) st1)
    as Hlater.
  destruct (tag_scene_error W scene hashing_error_tag (Some (exn_text e)) st1)
    as [[[] | e'] st2] eqn:Htagging; [| discriminate].
  simpl in Htags, Hlater. exists st2.
  split; [erewrite bind_ret_run; [reflexivity | exact Htagging] |].
  split; [| exact Hlater].
  rewrite Htags, elem_of_difference, elem_of_union, !elem_of_singleton.
  split; [now right | discriminate].
Qed.

Lemma pipeline_after_failed_hash W scene file filename filehash vaapi e st :
  dry_run W = false ->
  videohash W filename = Raise e ->
  accepts_from W (requests st) ->
  exists st',
    pipeline W scene file filename filehash vaapi st
    = (Ret {| success := false; result_scene_id := scene_id scene |}, st') /\
    hashing_error_tag ∈ scene_tags st' (scene_id scene) /\
    later st st'.
Proof.
  intros Hdry Hhash Hacc.
  destruct (later_pipeline_steps W) as (_ & Lcover & Lsprite & Lpreview).
  destruct (frame_pipeline_steps W) as (Fcover & Fsprite & Fpreview).
  destruct (phash_step_fails W (scene_id scene) (file_id file) filename e st Hdry Hhash Hacc)
    as (st1 & Hphash & Htag1 & Hlater1).
  pose proof (accepts_later W st st1 Hlater1 Hacc) as Hacc1.
  destruct (returns_cover_step W scene filename filehash st1 Hacc1) as ([] & st2 & Hcover).
  pose proof (Lcover scene filename filehash st1) as Hlater2.
  pose proof (Fcover scene filename filehash st1) as (_ & _ & Hkeep2).
  rewrite Hcover in Hlater2, Hkeep2. simpl in Hlater2, Hkeep2.
  pose proof (accepts_later W st1 st2 Hlater2 Hacc1) as Hacc2.
  destruct (returns_sprite_step W (scene_id scene) filename filehash vaapi st2 Hacc2)
    as (sprite_ok & st3 & Hsprite).
  pose proof (Lsprite (scene_id scene) filename filehash vaapi st2) as Hlater3.
  pose proof (Fsprite (scene_id scene) filename filehash vaapi st2) as (_ & _ & Hkeep3).
  rewrite Hsprite in Hlater3, Hkeep3. simpl in Hlater3, Hkeep3.
  pose proof (accepts_later W st2 st3 Hlater3 Hacc2) as Hacc3.
  destruct (returns_preview_step W (scene_id scene) filename filehash vaapi st3 Hacc3)
    as (preview_ok & st4 & Hpreview).
  pose proof (Lpreview (scene_id scene) filename filehash vaapi st3) as Hlater4.
  pose proof (Fpreview (scene_id scene) filename filehash vaapi st3) as (_ & _ & Hkeep4).
  rewrite Hpreview in Hlater4, Hkeep4. simpl in Hlater4, Hkeep4.
  exists st4. split; [| split].
  - unfold pipeline.
    erewrite bind_ret_run; [| exact Hphash].
    erewrite bind_ret_run; [| exact Hcover].
    erewrite bind_ret_run; [| exact Hsprite].
    erewrite bind_ret_run; [| exact Hpreview]. reflexivity.
  - apply Hkeep4; [| discriminate]. apply Hkeep3; [| discriminate].
    apply Hkeep2; [exact Htag1 | discriminate].
  - unfold later in *. lia.
Qed.



(** ** The sheet of the sprite benchmark *)

Lemma paste_frames_run (columns rows w h : Z) (l : list string) :
  forall a : nat,
    exists tiles,
      paste_frames (combine (map Z.of_nat (seq a (length l))) l) columns rows w h
      = Ret tiles /\
      length tiles = Nat.min (length l) (Z.to_nat (columns * rows) - a) /\
      (0 < columns -> 0 < w -> 0 < h ->
       forall x y, In (x, y) tiles ->
                   0 <= x /\ x + w <= w * columns /\ 0 <= y /\ y + h <= h * rows).
Proof.
  induction l as [| frame l IH]; intros a.
  - exists []. split; [reflexivity |]. split; [reflexivity |]. intros _ _ _ x y [].
  - cbn [length seq map combine paste_frames].
    destruct (Z.leb_spec (columns * rows) (Z.of_nat a)) as [Hfull | Hroom].
    + exists []. split; [reflexivity |]. split; [simpl length; lia |].
      intros _ _ _ x y [].
    + assert (Hcol : columns <> 0) by nia.
      rewrite gridPlacement_value by exact Hcol.
      destruct (IH (S a)) as (tiles & -> & Hlen & Hinside).
      eexists. split; [reflexivity |]. split; [simpl length; lia |].
      intros Hc Hw Hh x y [[= <- <-] | Hin]; [| now apply Hinside].
      destruct (tile_inside_sheet (Z.of_nat a) columns rows w h) as (Hx0 & Hx1 & Hy0 & Hy1);
        [lia | exact Hc | exact Hw | exact Hh |].
      repeat split; try assumption. apply Hy1. lia.
Qed.


Example sprite_benchmark_grid :
  match combine_frames_to_sprite (repeat "frame.png" 60) 10 5 160 90 with
  | Ret tiles => (length tiles, List.last tiles (0, 0))
  | Raise _ => (0%nat, (0, 0))
  end = (50%nat, (1440, 360)).
Proof. vm_compute. reflexivity. Qed.
